(** * PENTrack: equations of motion, brute-force spin tracking, logging and
      the command line

    Two programs of the repository are embedded here.

    - [Bahnen2005] follows [src/bahnen2005.c] (pnTracker): the derivative
      function [derivs], the start of [IntegrateParticle], the logging tail of
      its integration loop, [BruteForceIntegration] and the seeding done by
      [main].
    - [PENTrack] follows [src/src/main.cpp]: the command line of [main],
      [ConfigInit], the tables and the summary printed by [OutputCodes].
    - [Tracking] goes on with [src/bahnen2005.c]: the start vector of
      [IntegrateParticle], its integration loop, the end of the particle and
      the output of the field, with more about [BruteForceIntegration] and the
      track files.
    - [PENTrackRun] goes on with [src/src/main.cpp]: the settings of [all]
      and the totals of the loop of the particles.

    Conventions of the embedding.  A [long double] (or [double]) is a real
    number: rounding, infinities and NaN are idealised away, so [sqrtl],
    [fabsl], [cosl], [sinl] are [sqrt], [Rabs], [cos], [sin].  An [int] is an
    integer of [Z]; a flag is tested with [truthy].  C arrays are functions
    from their index.  Global variables are the fields of the record
    [Globals], grouped by what they serve; a function of the program is a
    function from [Globals] to [Globals].  Functions whose code is not part
    of the sources ([BFeld], [EFeld], [Entkommen], the integrators, the
    Mersenne twister, ...) are variables of the section.  In [Bahnen2005]
    the diagnostics printed on the console and in the log file [LOGSCR] are
    left out; [PENTrack] keeps what is written to the standard output. *)

From Stdlib Require Import Reals Lra Lia ZArith List Bool.
From stdpp Require Import gmap strings pretty sorting.

(** ** Comparisons and loops of C over the reals and the integers *)

Module CLang.
#[local] Open Scope R_scope.

Definition Rltb (x y : R) : bool := if Rlt_dec x y then true else false.
Definition Rleb (x y : R) : bool := if Rle_dec x y then true else false.
Definition Rgtb (x y : R) : bool := Rltb y x.
Definition Rgeb (x y : R) : bool := Rleb y x.
Definition Reqb (x y : R) : bool := if Req_dec_T x y then true else false.

(** A C integer used as a condition. *)
Definition truthy (z : Z) : bool := negb (z =? 0)%Z.

(** [for (k = lo; k <= hi; k++) s = body k s]. *)
Fixpoint for_from {S : Type} (n : nat) (k : Z) (body : Z -> S -> S) (s : S) : S :=
  match n with
  | O => s
  | Datatypes.S n' => for_from n' (k + 1)%Z body (body k s)
  end.

Definition for_loop {S : Type} (lo hi : Z) (body : Z -> S -> S) (s : S) : S :=
  for_from (Z.to_nat (hi + 1 - lo)) lo body s.

(** [a[i] = v] on an array seen as a function. *)
Definition upd {V : Type} (a : Z -> V) (i : Z) (v : V) : Z -> V :=
  fun j => if (j =? i)%Z then v else a j.

Lemma Rltb_true x y : x < y -> Rltb x y = true.
Proof. intros Hxy. unfold Rltb. destruct (Rlt_dec x y); [reflexivity | contradiction]. Qed.

Lemma Rltb_false x y : y <= x -> Rltb x y = false.
Proof. intros Hxy. unfold Rltb. destruct (Rlt_dec x y); [lra | reflexivity]. Qed.

Lemma Rleb_true x y : x <= y -> Rleb x y = true.
Proof. intros Hxy. unfold Rleb. destruct (Rle_dec x y); [reflexivity | contradiction]. Qed.

Lemma Rleb_false x y : y < x -> Rleb x y = false.
Proof. intros Hxy. unfold Rleb. destruct (Rle_dec x y); [lra | reflexivity]. Qed.

Lemma Rltb_spec x y : Rltb x y = true <-> x < y.
Proof. unfold Rltb. destruct (Rlt_dec x y); split; auto; discriminate. Qed.

Lemma Rleb_spec x y : Rleb x y = true <-> x <= y.
Proof. unfold Rleb. destruct (Rle_dec x y); split; auto; discriminate. Qed.

Lemma Rgtb_spec x y : Rgtb x y = true <-> y < x.
Proof. apply Rltb_spec. Qed.

Lemma Rgeb_spec x y : Rgeb x y = true <-> y <= x.
Proof. apply Rleb_spec. Qed.

Lemma for_from_snoc {S : Type} (n : nat) (k : Z) (body : Z -> S -> S) (s : S) :
  for_from (Datatypes.S n) k body s = body (k + Z.of_nat n)%Z (for_from n k body s).
Proof.
  revert k s. induction n as [|n IH]; intros k s.
  - simpl. now rewrite Z.add_0_r.
  - change (for_from (Datatypes.S (Datatypes.S n)) k body s)
      with (for_from (Datatypes.S n) (k + 1)%Z body (body k s)).
    rewrite IH. simpl for_from at 2.
    f_equal. lia.
Qed.

(** The rule of the [for] loop: an invariant [P k s] that holds before round
    [k] holds with [hi + 1] when the loop is left. *)
Lemma for_from_ind {S : Type} (P : Z -> S -> Prop) (n : nat) (k : Z)
    (body : Z -> S -> S) (s : S) :
  P k s ->
  (forall j t, (k <= j < k + Z.of_nat n)%Z -> P j t -> P (j + 1)%Z (body j t)) ->
  P (k + Z.of_nat n)%Z (for_from n k body s).
Proof.
  revert k s. induction n as [|n IH]; intros k s Hs Hstep.
  - simpl. now rewrite Z.add_0_r.
  - simpl for_from.
    replace (k + Z.of_nat (Datatypes.S n))%Z with (k + 1 + Z.of_nat n)%Z by lia.
    apply IH.
    + apply Hstep; [lia | exact Hs].
    + intros j t Hj. apply Hstep. lia.
Qed.

Lemma for_loop_ind {S : Type} (P : Z -> S -> Prop) (lo hi : Z)
    (body : Z -> S -> S) (s : S) :
  (lo <= hi + 1)%Z ->
  P lo s ->
  (forall j t, (lo <= j <= hi)%Z -> P j t -> P (j + 1)%Z (body j t)) ->
  P (hi + 1)%Z (for_loop lo hi body s).
Proof.
  intros Hle Hs Hstep. unfold for_loop.
  replace (hi + 1)%Z with (lo + Z.of_nat (Z.to_nat (hi + 1 - lo)))%Z at 1 by lia.
  apply for_from_ind; [exact Hs|].
  intros j t Hj. apply Hstep. lia.
Qed.

(** A property kept by every round is kept by the loop. *)
Lemma for_loop_keeps {S : Type} (P : S -> Prop) (lo hi : Z)
    (body : Z -> S -> S) (s : S) :
  P s -> (forall j t, P t -> P (body j t)) -> P (for_loop lo hi body s).
Proof.
  intros Hs Hstep. unfold for_loop.
  generalize (Z.to_nat (hi + 1 - lo)) as n. intros n. revert lo s Hs.
  induction n as [|n IH]; intros lo s Hs; simpl; [exact Hs|].
  apply IH. now apply Hstep.
Qed.

Lemma for_loop_empty {S : Type} (lo hi : Z) (body : Z -> S -> S) (s : S) :
  (hi < lo)%Z -> for_loop lo hi body s = s.
Proof.
  intros Hlt. unfold for_loop.
  replace (Z.to_nat (hi + 1 - lo)) with O by lia. reflexivity.
Qed.

End CLang.

(** ** pnTracker, [src/bahnen2005.c] *)

Module Bahnen2005.
Import CLang.
#[local] Open Scope R_scope.

#[local] Notation "a .[ i ]" := (a i%Z) (at level 1, left associativity, only parsing).
#[local] Notation "a .[ i , j ]" := (a i%Z j%Z) (at level 1, left associativity, only parsing).

(** *** Constants initialised at file scope (lines 22-29) *)

Definition ele_e : R := 1.602176487E-19.
Definition Qm0_init : R := 1.602176487E-19 / 1.672621637E-27.
Definition gravconst : R := 9.80665.
Definition conv : R := 0.01745329251.
Definition pi : R := 3.141592655359.
Definition m_n : R := 1.674927211E-27 / 1.602176487E-19.
Definition m_p : R := 1.672621637E-27 / 1.602176487E-19.
Definition m_e : R := 9.10938215e-31 / 1.602176487E-19.
Definition c_0 : R := 299792458.
Definition mu_nSI : R := 0.96623641e-26.
Definition gamma_n : R := 1.83247185e8.
Definition tau : R := 885.7.

(** [log10l]. *)
Definition log10l (x : R) : R := ln x / ln 10.

(** *** Enumerations of [main.h] (their numbers are not in the sources) *)

(** [protneut]: the macros the program compares it with, and any other
    number (line 1115 compares it with 99). *)
Inductive Kind : Set :=
  | NEUTRON
  | PROTON
  | BF_ONLY
  | ELECTRONS
  | KIND_OTHER (code : Z).

(** [polarisation]. *)
Inductive Polar : Set :=
  | POLARISATION_GOOD
  | POLARISATION_BAD
  | POLARISATION_NONE
  | POLARISATION_OTHER (code : Z).

Definition is_NEUTRON (k : Kind) : bool := match k with NEUTRON => true | _ => false end.
Definition is_PROTON (k : Kind) : bool := match k with PROTON => true | _ => false end.
Definition is_ELECTRONS (k : Kind) : bool := match k with ELECTRONS => true | _ => false end.
Definition is_BF_ONLY (k : Kind) : bool := match k with BF_ONLY => true | _ => false end.

(** *** Files *)

Inductive FileName : Set :=
  | TrackFile (outpath : string) (jobnumber Filecount : Z)
  | BFFile (outpath : string) (jobnumber BFFilecount : Z)
  | EndFile (outpath : string) (jobnumber : Z).

Inductive Line : Type :=
  | Header (text : string)
  | TrackRow (Teilchen : Z) (vals : list R)
  | BFRow (vals : list R)
  | EndRow (vals : list R).

(** An open file: its name and the lines written so far. *)
Definition File : Type := (FileName * list Line)%type.

Definition fprintf (f : File) (l : Line) : File := (f.1, f.2 ++ [l]).
Definition fopen_w (name : FileName) : File := (name, []).

(** *** The global variables, by group *)

(** What [BFeld] leaves in the globals: the field, its modulus [Bws], the
    gradient of the modulus and the derivatives of the components. *)
Record Felder : Type := mkFelder {
  Br : R; Bphi : R; Bz : R; Bws : R;
  dBdr : R; dBdz : R; dBdphi : R;
  dBrdr : R; dBrdphi : R; dBrdz : R;
  dBphidr : R; dBphidphi : R; dBphidz : R;
  dBzdr : R; dBzdphi : R; dBzdz : R }.

(** What [EFeld] leaves in the globals. *)
Record EFelder : Type := mkEFelder { Er : R; Ephi : R; Ez : R }.

(** Values read from the configuration and not written by the functions
    embedded here. *)
Record Config : Type := mkConfig {
  protneut : Kind; M : R;
  BruteForce : Z; flipspin : Z; MonteCarlo : Z;
  polarisation : Polar; BFTargetB : R;
  bfeldwahl : Z; nodelay : Z; ausgabewunschsave : Z;
  delx : R; spinflipcheck : Z; iMC : Z;
  outpath : string; jobnumber : Z }.

(** The discrete spin state. *)
Record Spin : Type := mkSpin { hfs : Z; mu_n : R; mumB : R; NSF : Z }.

(** The loop variables of the parameter scan of [main] (lines 576-597), their
    end values and the step of the innermost loop. *)
Record Scan : Type := mkScan {
  Energie : R; r_n : R; z_n : R; alpha : R; gammaa : R; phi_n : R;
  EnergieE : R; r_ne : R; z_ne : R; alphae : R; gammae : R; phie : R;
  dphi : R }.

(** The particle being tracked. *)
Record Part : Type := mkPart {
  stopall : Z; kennz : Z; Ekin : R; v_n : R; Hstart : R; Hmax : R;
  x1 : R; x2 : R; xstart : R; xend : R; ausgabewunsch : Z }.

(** Counters and spin-flip estimates reset for every particle. *)
Record Diag : Type := mkDiag {
  matoraprob : R; matmax : R; thumbmax : R; rabmax : R;
  vladtotal : R; vladmax : R; trajlengthsum : R;
  nrefl : Z; Feldcount : Z; NoAbsorption : Z; AbsorberHits : Z }.

(** Brute-force Bloch integration: the buffer [BFtime], [BFField] filled up
    to [offset], the spin vector [I_n] and the probabilities. *)
Record BF : Type := mkBF {
  BFBmin : R; BFPolmin : bool; firstint : Z;
  offset : Z; BFtime : Z -> R; BFField : Z -> Z -> R;
  I_n : Z -> R; BFpol : R; BFlogpol : R;
  BFsurvprob : R; BFflipprob : R; BFBws : Z -> R }.

(** The intermediate values [BFodeintrk] saves. *)
Record BFOut : Type := mkBFOut {
  BFkount : Z; BFxp : Z -> R; BFyp : Z -> Z -> R; BFypFields : Z -> Z -> R }.

(** The intermediate values [odeint] saves of a trajectory step. *)
Record Dense : Type := mkDense {
  kount : Z; xp : Z -> R; yp : Z -> Z -> R; Bp : Z -> Z -> R; Ep : Z -> Z -> R }.

(** Output of the track. *)
Record Track : Type := mkTrack {
  Zeilencount : Z; Filecount : Z; time_temp : R; timetemp : R;
  BahnPointSaveTime : R; vend : R; H_ : R;
  vlad : R; frac : R; logvlad : R; logfrac : R }.

(** The files: the open track file, the open spin log, the end log and the
    files already closed. *)
Record Files : Type := mkFiles {
  OUTFILE1 : File; BFLOG : File; ENDLOG : File; closed : list File;
  BFZeilencount : Z; BFFilecount : Z }.

(** The state of the Mersenne twister: the numbers it is going to return. *)
Record mt_state_t : Type := mkMT { mt_out : nat -> R; mt_pos : nat }.

Definition mt_get_double (s : mt_state_t) : R * mt_state_t :=
  (mt_out s (mt_pos s), mkMT (mt_out s) (S (mt_pos s))).

Record Globals : Type := mkGlobals {
  cfg : Config; spin : Spin; fld : Felder; efld : EFelder; Qm0 : R;
  scan : Scan; part : Part; diag : Diag;
  bf : BF; bfout : BFOut; dense : Dense;
  trk : Track; files : Files;
  v_mt_state : mt_state_t; rando : R; dxsav : R;
  ystart : Z -> R; nintcalls : R }.

Definition set_spin (v : Spin) (g : Globals) : Globals :=
  mkGlobals (cfg g) v (fld g) (efld g) (Qm0 g) (scan g) (part g) (diag g)
    (bf g) (bfout g) (dense g) (trk g) (files g) (v_mt_state g) (rando g) (dxsav g)
    (ystart g) (nintcalls g).
Definition set_fld (v : Felder) (g : Globals) : Globals :=
  mkGlobals (cfg g) (spin g) v (efld g) (Qm0 g) (scan g) (part g) (diag g)
    (bf g) (bfout g) (dense g) (trk g) (files g) (v_mt_state g) (rando g) (dxsav g)
    (ystart g) (nintcalls g).
Definition set_efld (v : EFelder) (g : Globals) : Globals :=
  mkGlobals (cfg g) (spin g) (fld g) v (Qm0 g) (scan g) (part g) (diag g)
    (bf g) (bfout g) (dense g) (trk g) (files g) (v_mt_state g) (rando g) (dxsav g)
    (ystart g) (nintcalls g).
Definition set_Qm0 (v : R) (g : Globals) : Globals :=
  mkGlobals (cfg g) (spin g) (fld g) (efld g) v (scan g) (part g) (diag g)
    (bf g) (bfout g) (dense g) (trk g) (files g) (v_mt_state g) (rando g) (dxsav g)
    (ystart g) (nintcalls g).
Definition set_scan (v : Scan) (g : Globals) : Globals :=
  mkGlobals (cfg g) (spin g) (fld g) (efld g) (Qm0 g) v (part g) (diag g)
    (bf g) (bfout g) (dense g) (trk g) (files g) (v_mt_state g) (rando g) (dxsav g)
    (ystart g) (nintcalls g).
Definition set_part (v : Part) (g : Globals) : Globals :=
  mkGlobals (cfg g) (spin g) (fld g) (efld g) (Qm0 g) (scan g) v (diag g)
    (bf g) (bfout g) (dense g) (trk g) (files g) (v_mt_state g) (rando g) (dxsav g)
    (ystart g) (nintcalls g).
Definition set_diag (v : Diag) (g : Globals) : Globals :=
  mkGlobals (cfg g) (spin g) (fld g) (efld g) (Qm0 g) (scan g) (part g) v
    (bf g) (bfout g) (dense g) (trk g) (files g) (v_mt_state g) (rando g) (dxsav g)
    (ystart g) (nintcalls g).
Definition set_bf (v : BF) (g : Globals) : Globals :=
  mkGlobals (cfg g) (spin g) (fld g) (efld g) (Qm0 g) (scan g) (part g) (diag g)
    v (bfout g) (dense g) (trk g) (files g) (v_mt_state g) (rando g) (dxsav g)
    (ystart g) (nintcalls g).
Definition set_bfout (v : BFOut) (g : Globals) : Globals :=
  mkGlobals (cfg g) (spin g) (fld g) (efld g) (Qm0 g) (scan g) (part g) (diag g)
    (bf g) v (dense g) (trk g) (files g) (v_mt_state g) (rando g) (dxsav g)
    (ystart g) (nintcalls g).
Definition set_trk (v : Track) (g : Globals) : Globals :=
  mkGlobals (cfg g) (spin g) (fld g) (efld g) (Qm0 g) (scan g) (part g) (diag g)
    (bf g) (bfout g) (dense g) v (files g) (v_mt_state g) (rando g) (dxsav g)
    (ystart g) (nintcalls g).
Definition set_files (v : Files) (g : Globals) : Globals :=
  mkGlobals (cfg g) (spin g) (fld g) (efld g) (Qm0 g) (scan g) (part g) (diag g)
    (bf g) (bfout g) (dense g) (trk g) v (v_mt_state g) (rando g) (dxsav g)
    (ystart g) (nintcalls g).
Definition set_mt (v : mt_state_t) (g : Globals) : Globals :=
  mkGlobals (cfg g) (spin g) (fld g) (efld g) (Qm0 g) (scan g) (part g) (diag g)
    (bf g) (bfout g) (dense g) (trk g) (files g) v (rando g) (dxsav g)
    (ystart g) (nintcalls g).
Definition set_rando (v : R) (g : Globals) : Globals :=
  mkGlobals (cfg g) (spin g) (fld g) (efld g) (Qm0 g) (scan g) (part g) (diag g)
    (bf g) (bfout g) (dense g) (trk g) (files g) (v_mt_state g) v (dxsav g)
    (ystart g) (nintcalls g).
Definition set_dxsav (v : R) (g : Globals) : Globals :=
  mkGlobals (cfg g) (spin g) (fld g) (efld g) (Qm0 g) (scan g) (part g) (diag g)
    (bf g) (bfout g) (dense g) (trk g) (files g) (v_mt_state g) (rando g) v
    (ystart g) (nintcalls g).

(** [stopall] and [kennz], the two globals [Entkommen] may write. *)
Definition set_stop (sk : Z * Z) (g : Globals) : Globals :=
  let p := part g in
  set_part (mkPart sk.1 sk.2 (Ekin p) (v_n p) (Hstart p) (Hmax p)
              (x1 p) (x2 p) (xstart p) (xend p) (ausgabewunsch p)) g.

Section Program.

(** *** Functions of the program whose code is not in the sources *)

(** [BFeld(r, phi, z, t)] and [EFeld(r, phi, z)]: the fields at a point. *)
Variable BFeld : R -> R -> R -> R -> Felder.
Variable EFeld : R -> R -> R -> EFelder.

(** [Entkommen(y, x, H)] tests whether the particle has to stop; it gets
    [stopall] and [kennz] and returns them. *)
Variable Entkommen : (Z -> R) -> R -> R -> Z * Z -> Z * Z.

(** *** [derivs] (lines 644-695) *)

Definition derivs (x : R) (y : Z -> R) (dydx : Z -> R) (g : Globals) : Globals * (Z -> R) :=
  let g := set_stop (Entkommen y x (H_ (trk g)) (stopall (part g), kennz (part g))) g in
  let g := set_fld (BFeld y.[1] y.[5] y.[3] x) g in
  let g := if negb (is_NEUTRON (protneut (cfg g)))
           then set_efld (EFeld y.[1] y.[5] y.[3]) g else g in
  let B := fld g in
  let E := efld g in
  if is_NEUTRON (protneut (cfg g)) then
    let dydx := upd dydx 1 y.[2] in
    let dydx := upd dydx 2 (y.[1] * (y.[6] * y.[6]) + mumB (spin g) * dBdr B) in
    let dydx := upd dydx 3 y.[4] in
    let dydx := upd dydx 4 (mumB (spin g) * dBdz B - gravconst) in
    let dydx := upd dydx 5 y.[6] in
    let dydx := upd dydx 6 (- 2 * y.[2] * y.[6] / y.[1]
                            + mumB (spin g) / y.[1] * dBdphi B / y.[1]) in
    (g, dydx)
  else if is_PROTON (protneut (cfg g)) then
    let q := Qm0 g in
    let dydx := upd dydx 1 y.[2] in
    let dydx := upd dydx 2 (y.[1] * (y.[6] * y.[6])
                            + q * (Bz B * y.[1] * y.[6] - Bphi B * y.[4] + Er E)) in
    let dydx := upd dydx 3 y.[4] in
    let dydx := upd dydx 4 (q * (Ez E + Bphi B * y.[2] - y.[1] * Br B * y.[6])) in
    let dydx := upd dydx 5 y.[6] in
    let dydx := upd dydx 6 (- 2 * y.[2] * y.[6] / y.[1]
                            + q * (Ephi E + Br B * y.[4] - Bz B * y.[2]) / y.[1]) in
    (g, dydx)
  else if is_ELECTRONS (protneut (cfg g)) then
    let g := set_Qm0 (- 1.0 / M (cfg g)
                      * sqrt (1 - (y.[2] * y.[2] + y.[1] * y.[1] * y.[6] * y.[6]
                                   + y.[4] * y.[4]) / (c_0 * c_0))) g in
    let q := Qm0 g in
    let dydx := upd dydx 1 y.[2] in
    let dydx := upd dydx 2 (y.[1] * (y.[6] * y.[6])
                            + q * (Bz B * y.[1] * y.[6] - Bphi B * y.[4] + Er E)) in
    let dydx := upd dydx 3 y.[4] in
    let dydx := upd dydx 4 (q * (Ez E + Bphi B * y.[2] - y.[1] * Br B * y.[6])) in
    let dydx := upd dydx 5 y.[6] in
    let dydx := upd dydx 6 (- 2 * y.[2] * y.[6] / y.[1]
                            + q * (Ephi E + Br B * y.[4] - Bz B * y.[2]) / y.[1]) in
    (g, dydx)
  else (g, dydx).

(** *** The spin state set at the start of a particle (lines 732-752) and
    after a flip (lines 1204-1207) *)

(** [mu_n = hfs * mu_nSI / ele_e; mumB = mu_n / M]. *)
Definition spin_of_hfs (h : Z) (mass : R) (nsf : Z) : Spin :=
  let mu := IZR h * mu_nSI / ele_e in
  mkSpin h mu (mu / mass) nsf.

(** *** The start of [IntegrateParticle] (lines 697-827) *)

(** [MCStartwerte(delx)] draws the start values of a particle: it writes the
    scan variables, the start time [xstart] and the lifetime [xend], and it
    consumes random numbers.  [GeomCheck] returns 1 for a point outside the
    boundaries. *)
Variable MCStartwerte : R -> Scan * (R * R) * mt_state_t -> Scan * (R * R) * mt_state_t.
Variable GeomCheck : (Z -> R) -> R -> R -> R -> R -> R -> R -> R -> Z.

(** The macro [KENNZAHL_UNKNOWN] of [main.h]. *)
Variable KENNZAHL_UNKNOWN : Z.

(** Lines 829-1159 of [IntegrateParticle]: the start velocity, the
    integration loop and the output of the end values.  Of these lines
    [BruteForceIntegration] and the logging at the end of the loop body are
    embedded below; the rest rests on [odeint], [ausgabe] and
    [IncrementCodes], which are not in the sources. *)
Variable IntegrateParticle_track : Globals -> Globals.

Definition call_MCStartwerte (g : Globals) : Globals :=
  let p := part g in
  let '(sc, (xs, xe), mt) :=
    MCStartwerte (delx (cfg g)) (scan g, (xstart p, xend p), v_mt_state g) in
  set_mt mt
    (set_part (mkPart (stopall p) (kennz p) (Ekin p) (v_n p) (Hstart p) (Hmax p)
                 (x1 p) (x2 p) xs xe (ausgabewunsch p))
       (set_scan sc g)).

(** Lines 698-712. *)
Definition IntegrateParticle_reset (g : Globals) : Globals :=
  let p := part g in
  let g := set_part (mkPart 0 0 (Ekin p) (v_n p) (Hstart p) 0.0
                       0 0 (xstart p) (xend p) (ausgabewunsch p)) g in
  let b := bf g in
  let g := set_bf (mkBF (BFBmin b) (BFPolmin b) (firstint b) 0 (BFtime b) (BFField b)
                     (upd (upd (upd (I_n b) 3 0.5) 1 0) 2 0) 0.5 (BFlogpol b)
                     1.0 0.0 (BFBws b)) g in
  let d := diag g in
  set_diag (mkDiag (matoraprob d) (matmax d) (thumbmax d) (rabmax d)
              (vladtotal d) (vladmax d) (trajlengthsum d)
              (nrefl d) (Feldcount d) 0 0) g.

(** Lines 715-727: [while (BadParticle == 1)], entered with [BadParticle = 1]. *)
Fixpoint MC_start_loop (fuel : nat) (g : Globals) : option Globals :=
  match fuel with
  | O => None
  | S fuel' =>
      let g := call_MCStartwerte g in
      let sc := scan g in
      let ytemp : Z -> R :=
        fun i => if (i =? 0)%Z then r_n sc else if (i =? 2)%Z then z_n sc
                 else if (i =? 4)%Z then phi_n sc else 0 in
      let BadParticle := GeomCheck ytemp (r_n sc) 0 (z_n sc) 0 (phi_n sc) 0 0.0 in
      if (BadParticle =? 1)%Z then MC_start_loop fuel' g else Some g
  end.

Definition IntegrateParticle_MCstart (fuel : nat) (g : Globals) : option Globals :=
  if (MonteCarlo (cfg g) =? 1)%Z then
    match MC_start_loop fuel g with
    | None => None
    | Some g =>
        let p := part g in
        Some (set_part (mkPart (stopall p) (kennz p) (Ekin p) (v_n p) (Hstart p) (Hmax p)
                          (x1 p) (xstart p) (xstart p) (xend p) (ausgabewunsch p)) g)
    end
  else Some g.

(** Lines 729-752. *)
Definition IntegrateParticle_spin (g : Globals) : Globals :=
  let p := part g in
  let g := set_part (mkPart (stopall p) (kennz p) (Ekin p) (v_n p) (Energie (scan g)) (Hmax p)
                       (x1 p) (x2 p) (xstart p) (xend p) (ausgabewunsch p)) g in
  if truthy (BruteForce (cfg g)) then
    let s := spin g in
    let g := set_spin (mkSpin (hfs s) (mu_n s) (mumB s) 0) g in
    let b := bf g in
    let g := set_bf (mkBF (BFBmin b) (BFPolmin b) 0 (offset b) (BFtime b) (BFField b)
                       (I_n b) (BFpol b) (BFlogpol b) (BFsurvprob b) (BFflipprob b)
                       (BFBws b)) g in
    if is_NEUTRON (protneut (cfg g)) then
      match polarisation (cfg g) with
      | POLARISATION_GOOD => set_spin (spin_of_hfs (-1) (M (cfg g)) (NSF (spin g))) g
      | POLARISATION_BAD => set_spin (spin_of_hfs 1 (M (cfg g)) (NSF (spin g))) g
      | POLARISATION_NONE =>
          set_spin (mkSpin 0 0 (0 / M (cfg g)) (NSF (spin g))) g
      | POLARISATION_OTHER _ => g
      end
    else g
  else g.

(** Lines 754-769.  The stream read here is the global [STARTIN], which is
    never opened: [main] opens [start.in] into a local variable of the same
    name (line 427) and the global keeps its initial [NULL] (line 10).  So
    for [MonteCarlo == 2] the call of [fgets] has no result. *)
Definition IntegrateParticle_startfile (g : Globals) : option Globals :=
  if (MonteCarlo (cfg g) =? 2)%Z then None else Some g.

(** Lines 778-788. *)
Definition IntegrateParticle_counters (g : Globals) : Globals :=
  let d := diag g in
  let g := set_diag (mkDiag (matoraprob d) (matmax d) (thumbmax d) (rabmax d)
                       (vladtotal d) (vladmax d) 0 0 0
                       (NoAbsorption d) (AbsorberHits d)) g in
  let p := part g in
  set_part (mkPart 0 KENNZAHL_UNKNOWN (Ekin p) (v_n p) (Hstart p) (Hmax p)
              (x1 p) (x2 p) (xstart p) (xend p) (ausgabewunsch p)) g.

(** Lines 801-804: the kinetic energy [ekin] is not negative. *)
Definition neutron_started (ekin : R) (g : Globals) : Globals :=
  let p := part g in
  let v := sqrt (2.0 / M (cfg g) * ekin) in
  let v := if (bfeldwahl (cfg g) =? 3)%Z then 1.0 else v in
  set_part (mkPart (stopall p) (kennz p) ekin v (Hstart p) (Hmax p)
              (x1 p) (x2 p) (xstart p) (xend p) (ausgabewunschsave (cfg g))) g.

(** Lines 806-825: the kinetic energy [ekin] is negative. *)
Definition neutron_stopped (ekin : R) (g : Globals) : Globals :=
  let p := part g in
  let sc := scan g in
  let g := set_part (mkPart 1 (kennz p) ekin 0.0 (Hstart p) (Hmax p)
                       (x1 p) (x2 p) (xstart p) (xend p) 5) g in
  if truthy (MonteCarlo (cfg g))
  then set_scan (mkScan (EnergieE sc + 1) (r_ne sc + 1) (z_ne sc + 1)
                   (alphae sc + 1) (gammae sc + 1) (phi_n sc)
                   (EnergieE sc) (r_ne sc) (z_ne sc) (alphae sc) (gammae sc)
                   (phie sc) (dphi sc)) g
  else g.

(** Lines 792-799: the estimates of the spin flip are reset and the field at
    the start point is computed. *)
Definition neutron_field (g : Globals) : Globals :=
  let d := diag g in
  let g := set_diag (mkDiag 1.0 0.0 0.0 0.0 1.0 0.0 (trajlengthsum d)
                       (nrefl d) (Feldcount d) (NoAbsorption d) (AbsorberHits d)) g in
  let sc := scan g in
  set_fld (BFeld (r_n sc) (phi_n sc * conv) (z_n sc) 0.0) g.

(** The kinetic energy computed at line 799. *)
Definition start_Ekin (g : Globals) : R :=
  let sc := scan g in
  Energie sc - M (cfg g) * gravconst * z_n sc
  + mu_n (spin g) * Bws (BFeld (r_n sc) (phi_n sc * conv) (z_n sc) 0.0).

(** Lines 790-827.  The boolean tells whether the function has returned. *)
Definition IntegrateParticle_neutron (g : Globals) : Globals * bool :=
  if is_NEUTRON (protneut (cfg g)) then
    let ekin := start_Ekin g in
    let g := neutron_field g in
    if Rgeb ekin 0.0 then (neutron_started ekin g, false)
    else (neutron_stopped ekin g, true)
  else (g, false).

(** Lines 1161-1169. *)
Definition IntegrateParticle_MCend (g : Globals) : Globals :=
  if truthy (MonteCarlo (cfg g)) then
    let sc := scan g in
    set_scan (mkScan (EnergieE sc + 1) (r_ne sc + 1) (z_ne sc + 1)
                (alphae sc + 1) (gammae sc + 1) (phie sc + 1)
                (EnergieE sc) (r_ne sc) (z_ne sc) (alphae sc) (gammae sc)
                (phie sc) (dphi sc)) g
  else g.

(** The state in which line 790 is reached. *)
Definition IntegrateParticle_start (fuel : nat) (g : Globals) : option Globals :=
  match IntegrateParticle_MCstart fuel (IntegrateParticle_reset g) with
  | None => None
  | Some g =>
      match IntegrateParticle_startfile (IntegrateParticle_spin g) with
      | None => None
      | Some g => Some (IntegrateParticle_counters g)
      end
  end.

Definition IntegrateParticle (fuel : nat) (g : Globals) : option Globals :=
  match IntegrateParticle_start fuel g with
  | None => None
  | Some g =>
      let (g, returned) := IntegrateParticle_neutron g in
      if returned then Some g
      else Some (IntegrateParticle_MCend (IntegrateParticle_track g))
  end.

(** [phi_n += dphi]. *)
Definition next_angle (g : Globals) : Globals :=
  let sc := scan g in
  set_scan (mkScan (Energie sc) (r_n sc) (z_n sc) (alpha sc) (gammaa sc)
              (phi_n sc + dphi sc)
              (EnergieE sc) (r_ne sc) (z_ne sc) (alphae sc) (gammae sc)
              (phie sc) (dphi sc)) g.

(** The innermost loop of the scan (lines 588-591), entered after
    [phi_n = phis]: [for (...; phi_n <= phie; phi_n += dphi)
    IntegrateParticle();].  It returns the state and the number of calls. *)
Fixpoint phi_loop (fuel : nat) (calls : nat) (g : Globals) : option (Globals * nat) :=
  match fuel with
  | O => None
  | S fuel' =>
      if Rleb (phi_n (scan g)) (phie (scan g)) then
        match IntegrateParticle fuel' g with
        | None => None
        | Some g => phi_loop fuel' (S calls) (next_angle g)
        end
      else Some (g, calls)
  end.

(** *** [BruteForceIntegration] (lines 1172-1325) *)

(** [CylKartCoord(Wr, Wphi, Wz, phi, &Wx0, &Wy0, &Wz0)]: cylindrical to
    Cartesian components. *)
Variable CylKartCoord : R -> R -> R -> R -> R * R * R.

(** [BFodeintrk(I_n, 3, x1, x2, eps, h1, hmin, &nok, &nbad, BFderivs,
    BFrkqs)]: the integration of the Bloch equation over the buffer
    ([offset], [BFtime], [BFField]); it returns the spin vector and the
    intermediate values it saved. *)
Variable BFodeintrk :
  (Z -> R) -> Z -> R -> R -> R -> R -> R -> Z * (Z -> R) * (Z -> Z -> R) -> (Z -> R) * BFOut.

(** Macros of [main.h] for [ausgabewunsch]. *)
Variables OUTPUT_EVERYTHING OUTPUT_EVERYTHINGandSPIN OUTPUT_ENDPOINTSandSPIN : Z.

Definition upd2 (a : Z -> Z -> R) (c i : Z) (v : R) : Z -> Z -> R :=
  fun c' i' => if ((c' =? c) && (i' =? i))%Z then v else a c' i'.

(** The smallest [Bp[13][klauf]] of the step, started from 10 (lines
    1184-1192). *)
Definition step_BFBmin (d : Dense) : R :=
  for_loop 1 (kount d)
    (fun klauf m => if Rltb (Bp d).[13, klauf] m then (Bp d).[13, klauf] else m) 10.

(** Lines 1175-1192. *)
Definition BF_threshold (g : Globals) : Globals :=
  let g := set_dxsav 1e-9 g in
  let b := bf g in
  let polmin :=
    if Rltb (BFBmin b) (BFTargetB (cfg g)) then true
    else if Rgeb (BFBmin b) (BFTargetB (cfg g)) then false
    else BFPolmin b in
  set_bf (mkBF (step_BFBmin (dense g)) polmin (firstint b) (offset b) (BFtime b) (BFField b)
            (I_n b) (BFpol b) (BFlogpol b) (BFsurvprob b) (BFflipprob b) (BFBws b)) g.

(** Lines 1194-1212. *)
Definition BF_polarisation (g : Globals) : Globals :=
  let b := bf g in
  if Rgtb (BFBmin b) (BFTargetB (cfg g)) && BFPolmin b then
    let surv := (BFpol b + 0.5) * BFsurvprob b in
    let g := set_bf (mkBF (BFBmin b) (BFPolmin b) (firstint b) (offset b) (BFtime b)
                       (BFField b) (I_n b) (BFpol b) (BFlogpol b) surv (1 - surv)
                       (BFBws b)) g in
    if truthy (flipspin (cfg g)) then
      let (r1, mt1) := mt_get_double (v_mt_state g) in
      let g := set_rando r1 (set_mt mt1 g) in
      let (r2, mt2) := mt_get_double (v_mt_state g) in
      let g := set_mt mt2 g in
      if Rltb r2 (1 - (BFpol b + 0.5)) then
        set_spin (spin_of_hfs (hfs (spin g) * -1) (M (cfg g)) (NSF (spin g) + 1)) g
      else g
    else g
  else g.

(** Lines 1214-1217. *)
Definition BF_firstint (g : Globals) : Globals :=
  let b := bf g in
  if Rgtb (BFBmin b) (BFTargetB (cfg g)) then
    set_bf (mkBF (BFBmin b) (BFPolmin b) 1 (offset b) (BFtime b) (BFField b)
              (I_n b) (BFpol b) (BFlogpol b) (BFsurvprob b) (BFflipprob b) (BFBws b)) g
  else g.

(** The body of the loop of lines 1236-1256. *)
Definition BF_store (d : Dense) (off klaufstart klauf : Z)
    (tf : (Z -> R) * (Z -> Z -> R)) : (Z -> R) * (Z -> Z -> R) :=
  let i := (off + klauf - (klaufstart - 1))%Z in
  let '(Bx, By, Bz_) :=
    CylKartCoord (Bp d).[1, klauf] (Bp d).[5, klauf] (Bp d).[9, klauf] (yp d).[5, klauf] in
  let f := upd2 tf.2 1 i Bx in
  let f := upd2 f 2 i By in
  let f := upd2 f 3 i Bz_ in
  let f := upd2 f 4 i (yp d).[1, klauf] in
  let f := upd2 f 5 i (yp d).[3, klauf] in
  (upd tf.1 i (xp d).[klauf], f).

(** Lines 1219-1258. *)
Definition BF_buffer (g : Globals) : Globals :=
  let b := bf g in
  let d := dense g in
  if Rltb (BFBmin b) (BFTargetB (cfg g)) then
    let klaufstart := if (offset b >? 0)%Z then 2%Z else 1%Z in
    let tf := for_loop klaufstart (kount d) (BF_store d (offset b) klaufstart)
                (BFtime b, BFField b) in
    set_bf (mkBF (BFBmin b) (BFPolmin b) (firstint b)
              (offset b + kount d - (klaufstart - 1))%Z tf.1 tf.2
              (I_n b) (BFpol b) (BFlogpol b) (BFsurvprob b) (BFflipprob b) (BFBws b)) g
  else g.

(** The condition of line 1263. *)
Definition BF_integrates (g : Globals) : bool :=
  (Rgeb (BFBmin (bf g)) (BFTargetB (cfg g)) && (offset (bf g) >=? 10)%Z)
  || (offset (bf g) >=? 2000)%Z.

(** [I * B / |B|] of the saved value [k] (lines 1289-1294 and 1309). *)
Definition projection (o : BFOut) (k : Z) : R :=
  ((BFyp o).[1, k] * (BFypFields o).[1, k]
   + (BFyp o).[2, k] * (BFypFields o).[2, k]
   + (BFyp o).[3, k] * (BFypFields o).[3, k])
  / sqrt ((BFypFields o).[1, k] ^ 2 + (BFypFields o).[2, k] ^ 2 + (BFypFields o).[3, k] ^ 2).

(** The body of the loop of lines 1306-1317. *)
Definition BF_write (o : BFOut) (BFcount : Z) (g : Globals) : Globals :=
  let b := bf g in
  let bws := sqrt ((BFypFields o).[1, BFcount] * (BFypFields o).[1, BFcount]
                   + (BFypFields o).[2, BFcount] * (BFypFields o).[2, BFcount]
                   + (BFypFields o).[3, BFcount] * (BFypFields o).[3, BFcount]) in
  let pol := ((BFyp o).[1, BFcount] * (BFypFields o).[1, BFcount]
              + (BFyp o).[2, BFcount] * (BFypFields o).[2, BFcount]
              + (BFyp o).[3, BFcount] * (BFypFields o).[3, BFcount]) / bws in
  let logpol := if Rltb pol 0.5 then log10l (0.5 + pol)
                else if Reqb pol 0.5 then 0.0 else BFlogpol b in
  let g := set_bf (mkBF (BFBmin b) (BFPolmin b) (firstint b) (offset b) (BFtime b)
                     (BFField b) (I_n b) pol logpol (BFsurvprob b) (BFflipprob b)
                     (upd (BFBws b) BFcount bws)) g in
  let f := files g in
  set_files (mkFiles (OUTFILE1 f)
               (fprintf (BFLOG f)
                  (BFRow [(BFxp o).[BFcount]; bws; pol; logpol;
                          (BFyp o).[1, BFcount]; (BFyp o).[2, BFcount]; (BFyp o).[3, BFcount];
                          (BFypFields o).[1, BFcount]; (BFypFields o).[2, BFcount];
                          (BFypFields o).[3, BFcount]]))
               (ENDLOG f) (closed f) (BFZeilencount f + 1)%Z (BFFilecount f)) g.

(** Lines 1265-1274: the spin is put along the first field of the buffer. *)
Definition BF_first_spin (b : BF) : BF :=
  if truthy (firstint b) then
    let bws1 := sqrt ((BFField b).[1, 1] ^ 2 + (BFField b).[2, 1] ^ 2
                      + (BFField b).[3, 1] ^ 2) in
    let I := upd (I_n b) 1 ((BFField b).[1, 1] / bws1 * 0.5) in
    let I := upd I 2 ((BFField b).[2, 1] / bws1 * 0.5) in
    let I := upd I 3 ((BFField b).[3, 1] / bws1 * 0.5) in
    mkBF (BFBmin b) (BFPolmin b) (firstint b) (offset b) (BFtime b) (BFField b)
      I (BFpol b) (BFlogpol b) (BFsurvprob b) (BFflipprob b) (upd (BFBws b) 1 bws1)
  else b.

(** Line 1284. *)
Definition BF_call (b : BF) : (Z -> R) * BFOut :=
  BFodeintrk (I_n b) 3 (BFtime b).[1] (BFtime b (offset b)) 1e-13 1e-5 0
    (offset b, BFtime b, BFField b).

(** Lines 1262-1323. *)
Definition BF_integrate (g : Globals) : Globals :=
  if BF_integrates g then
    let b := BF_first_spin (bf g) in
    let (I, o) := BF_call b in
    let g := set_bfout o g in
    let g := set_bf (mkBF (BFBmin b) (BFPolmin b) 0 (offset b) (BFtime b) (BFField b)
                       I (projection o (BFkount o)) (BFlogpol b)
                       (BFsurvprob b) (BFflipprob b) (BFBws b)) g in
    let aw := ausgabewunsch (part g) in
    let g := if ((aw =? OUTPUT_EVERYTHINGandSPIN) || (aw =? OUTPUT_ENDPOINTSandSPIN))%Z
             then for_loop 2 (BFkount o) (BF_write o) g else g in
    let b := bf g in
    set_bf (mkBF (BFBmin b) (BFPolmin b) (firstint b) 0 (BFtime b) (BFField b)
              (I_n b) (BFpol b) (BFlogpol b) (BFsurvprob b) (BFflipprob b) (BFBws b)) g
  else g.

Definition BruteForceIntegration (g : Globals) : Globals :=
  BF_integrate (BF_buffer (BF_firstint (BF_polarisation (BF_threshold g)))).

(** *** The output at the end of the body of the integration loop (lines
    982-1075) *)

(** The header written when a track file is opened by the loop (line 1047)
    and the header of a spin log (line 1067). *)
Definition track_header : string :=
  "Teilchen t r drdt z dzdt phi dphidt x y v H Matora Br dBrdr dBrdphi dBrdz Bphi dBphidr dBphidphi dBphidz Bz dBzdr dBzdphi dBzdz Babs Polar Er Ez timestep Bcheck logvlad logthumb".
Definition BF_header : string := "t Babs Polar logPolar Ix Iy Iz Bx By Bz".

(** The energy [H] of lines 993-996 and 1021-1024 for the speed [v], the
    height [z] and the field modulus [b]; it keeps its value for a run that is
    neither of neutrons nor of protons or electrons. *)
Definition energy_H (g : Globals) (v z b : R) : R :=
  if is_NEUTRON (protneut (cfg g)) then
    (M (cfg g) * gravconst * z + 0.5 * M (cfg g) * v * v - mu_n (spin g) * b) * 1E9
  else if is_PROTON (protneut (cfg g)) || is_ELECTRONS (protneut (cfg g)) then
    c_0 * c_0 * M (cfg g) * (1 / sqrt (1 - v * v / (c_0 * c_0)) - 1)
  else H_ (trk g).

(** Lines 998-1004 and 1025-1030. *)
Definition update_logs (g : Globals) (t : Track) : R * R :=
  if (spinflipcheck (cfg g) =? 2)%Z then
    (if Rgtb (vlad t) 1e-99 then log10l (vlad t) else logvlad t,
     if Rgtb (frac t) 1e-99 then log10l (frac t) else logfrac t)
  else (logvlad t, logfrac t).

(** One round of the loop of lines 985-1013. *)
Definition track_dense (klauf : Z) (g : Globals) : Globals :=
  let d := dense g in
  let t := trk g in
  if Rgeb ((xp d).[klauf] - time_temp t) (BahnPointSaveTime t) then
    let v := sqrt (Rabs ((yp d).[2, klauf] * (yp d).[2, klauf]
                         + (yp d).[1, klauf] * (yp d).[1, klauf]
                           * (yp d).[6, klauf] * (yp d).[6, klauf]
                         + (yp d).[4, klauf] * (yp d).[4, klauf])) in
    let h := energy_H g v (yp d).[3, klauf] (Bp d).[13, klauf] in
    let (lv, lf) := update_logs g t in
    let row :=
      TrackRow (iMC (cfg g))
        ([(xp d).[klauf]; (yp d).[1, klauf]; (yp d).[2, klauf]; (yp d).[3, klauf];
          (yp d).[4, klauf]; (yp d).[5, klauf]; (yp d).[6, klauf];
          (yp d).[1, klauf] * cos (yp d).[5, klauf];
          (yp d).[1, klauf] * sin (yp d).[5, klauf]; v; h]
         ++ map (fun c => Bp d c klauf) [1; 2; 3; 4; 5; 6; 7; 8; 9; 10; 11; 12; 13]%Z
         ++ [(Ep d).[1, klauf]; (Ep d).[2, klauf];
             x2 (part g) - x1 (part g); lv; lf]) in
    let f := files g in
    let g := set_files (mkFiles (fprintf (OUTFILE1 f) row) (BFLOG f) (ENDLOG f) (closed f)
                          (BFZeilencount f) (BFFilecount f)) g in
    set_trk (mkTrack (Zeilencount t + 1)%Z (Filecount t) (xp d).[klauf] (timetemp t)
               (BahnPointSaveTime t) v h (vlad t) (frac t) lv lf) g
  else g.

(** Lines 1015-1038. *)
Definition track_point (g : Globals) : Globals :=
  let t := trk g in
  let y := ystart g in
  if Rgeb (x2 (part g) - timetemp t) (BahnPointSaveTime t) then
    let g := set_fld (BFeld y.[1] y.[5] y.[3] (x2 (part g))) g in
    let B := fld g in
    let v := sqrt (Rabs (y.[2] * y.[2] + y.[1] * y.[1] * y.[6] * y.[6] + y.[4] * y.[4])) in
    let h := energy_H g v y.[3] (Bws B) in
    let (lv, lf) := update_logs g t in
    let row :=
      TrackRow (iMC (cfg g))
        [x2 (part g); y.[1]; y.[2]; y.[3]; y.[4]; y.[5]; y.[6];
         y.[1] * cos y.[5]; y.[1] * sin y.[5];
         y.[2] * y.[2] + y.[6] * y.[6] * y.[1] * y.[1] + y.[4] * y.[4]; h;
         Br B; dBrdr B; dBrdphi B; dBrdz B; Bphi B; dBphidr B; dBphidphi B; dBphidz B;
         Bz B; dBzdr B; dBzdphi B; dBzdz B; Bws B; Er (efld g); Ez (efld g);
         x2 (part g) - x1 (part g); lv; lf] in
    let f := files g in
    let g := set_files (mkFiles (fprintf (OUTFILE1 f) row) (BFLOG f) (ENDLOG f) (closed f)
                          (BFZeilencount f) (BFFilecount f)) g in
    set_trk (mkTrack (Zeilencount t + 1)%Z (Filecount t) (time_temp t) (x2 (part g))
               (BahnPointSaveTime t) v h (vlad t) (frac t) lv lf) g
  else g.

(** Lines 982-1039. *)
Definition track_output (g : Globals) : Globals :=
  let aw := ausgabewunsch (part g) in
  let wanted := ((aw =? OUTPUT_EVERYTHING) || (aw =? OUTPUT_EVERYTHINGandSPIN))%Z in
  let step := x2 (part g) - x1 (part g) in
  if wanted && Rgeb step (BahnPointSaveTime (trk g)) then
    for_loop 2 (kount (dense g)) track_dense g
  else if wanted && Rltb step (BahnPointSaveTime (trk g)) then
    track_point g
  else g.

(** Lines 1041-1055. *)
Definition track_rollover (g : Globals) : Globals :=
  let t := trk g in
  if (Zeilencount t >? 40000)%Z then
    let f := files g in
    let name := TrackFile (outpath (cfg g)) (jobnumber (cfg g)) (Filecount t + 1) in
    let g := set_files (mkFiles (fprintf (fopen_w name) (Header track_header))
                          (BFLOG f) (ENDLOG f) (OUTFILE1 f :: closed f)
                          (BFZeilencount f) (BFFilecount f)) g in
    set_trk (mkTrack 1 (Filecount t + 1)%Z (time_temp t) (timetemp t)
               (BahnPointSaveTime t) (vend t) (H_ t) (vlad t) (frac t)
               (logvlad t) (logfrac t)) g
  else g.

(** Whether [fopen] fails on a name. *)
Variable fopen_fails : FileName -> bool.

(** Lines 1057-1075; [inr 1] is [exit(1)]. *)
Definition BF_rollover (g : Globals) : Globals + Z :=
  let f := files g in
  if (BFZeilencount f >? 100000)%Z && truthy (BruteForce (cfg g)) then
    let name := BFFile (outpath (cfg g)) (jobnumber (cfg g)) (BFFilecount f + 1) in
    if fopen_fails name then inr 1%Z
    else
      inl (set_files (mkFiles (OUTFILE1 f) (fprintf (fopen_w name) (Header BF_header))
                        (ENDLOG f) (BFLOG f :: closed f) 1 (BFFilecount f + 1)%Z) g)
  else inl g.

(** Lines 968-974. *)
Definition save_time (g : Globals) : Globals :=
  let c := cfg g in
  let t := trk g in
  let s := BahnPointSaveTime t in
  let s := if negb (truthy (BruteForce c)) && negb (is_PROTON (protneut c))
              && negb (is_ELECTRONS (protneut c)) then 1e-3
           else if truthy (BruteForce c) then 1e-4 else s in
  let s := if (spinflipcheck c =? 3)%Z then 1e-4 else s in
  set_trk (mkTrack (Zeilencount t) (Filecount t) (time_temp t) (timetemp t) s
             (vend t) (H_ t) (vlad t) (frac t) (logvlad t) (logfrac t)) g.

(** Lines 968-1075: what a round of the integration loop does with the
    trajectory step before it tests [Entkommen]. *)
Definition loop_output (g : Globals) : Globals + Z :=
  let g := save_time g in
  let g := if truthy (BruteForce (cfg g)) then BruteForceIntegration g else g in
  BF_rollover (track_rollover (track_output g)).

(** *** The seed set by [main] (lines 220-292) *)

(** [atoi] and [mt_set]. *)
Variable atoi : string -> Z.
Variable mt_set : Z -> mt_state_t.

(** The values of an [unsigned long int] (64 bits). *)
Definition ULONG : Z := 2 ^ 64.

Record Start : Type := mkStart {
  start_jobnumber : Z; start_inpath : string; start_outpath : string;
  (** the argument of [mt_set] *)
  start_seed : Z;
  start_mt : mt_state_t }.

(** Lines 227-292: the arguments and the seed; [mytime] is what [time(NULL)]
    returns. *)
Definition main (argv : list string) (mytime : Z) : Start :=
  let argc := Z.of_nat (length argv) in
  let arg (i : nat) : string := nth i argv ""%string in
  let '(job, inp, outp) :=
    if (argc >? 3)%Z then (atoi (arg 1%nat), arg 2%nat, arg 3%nat)
    else if (argc >? 2)%Z then (atoi (arg 1%nat), arg 2%nat, "./out"%string)
    else if (argc =? 2)%Z then (atoi (arg 1%nat), "./in"%string, "./out"%string)
    else (0%Z, "./in"%string, "./out"%string) in
  let seed := ((mytime mod ULONG + job) mod ULONG)%Z in
  mkStart job inp outp seed (mt_set seed).

(** *** Properties of [derivs] *)

(** The functions of the program keep the configuration. *)
Lemma derivs_cfg x y dydx g : cfg (derivs x y dydx g).1 = cfg g.
Proof.
  unfold derivs.
  destruct (protneut (cfg g)) eqn:Hk; cbn; rewrite ?Hk; cbn; rewrite ?Hk; reflexivity.
Qed.

(** The spin state set at the start of a particle in brute-force mode. *)
Lemma IntegrateParticle_spin_neutron g :
  protneut (cfg g) = NEUTRON -> truthy (BruteForce (cfg g)) = true ->
  let s := spin (IntegrateParticle_spin g) in
  match polarisation (cfg g) with
  | POLARISATION_GOOD => hfs s = (-1)%Z
  | POLARISATION_BAD => hfs s = 1%Z
  | POLARISATION_NONE => hfs s = 0%Z
  | POLARISATION_OTHER _ => hfs s = hfs (spin g)
  end
  /\ ((forall c, polarisation (cfg g) <> POLARISATION_OTHER c) ->
      mu_n s = IZR (hfs s) * (mu_nSI / ele_e) /\ mumB s = mu_n s / M (cfg g)).
Proof.
  intros Hn Hbf. unfold IntegrateParticle_spin. cbn. rewrite Hbf. cbn. rewrite Hn. cbn.
  destruct (polarisation (cfg g)) eqn:Hp; cbn; split; try reflexivity; intros Hc;
    try (exfalso; now apply (Hc code)); split; try reflexivity; try lra.
  all: unfold Rdiv; ring.
Qed.

(** The Lorentz acceleration [q (E + v x B)] in the orthonormal frame
    [(e_r, e_phi, e_z)] of the point, written after the specification: the
    components of the velocity there are [(r', r phi', z')]. *)
Definition cross (a b : R * R * R) : R * R * R :=
  let '(a_r, a_phi, a_z) := a in
  let '(b_r, b_phi, b_z) := b in
  (a_phi * b_z - a_z * b_phi, a_z * b_r - a_r * b_z, a_r * b_phi - a_phi * b_r).

Definition Lorentz (q : R) (E B v : R * R * R) : R * R * R :=
  let '(E_r, E_phi, E_z) := E in
  let '(c_r, c_phi, c_z) := cross v B in
  (q * (E_r + c_r), q * (E_phi + c_phi), q * (E_z + c_z)).

(** The square of the speed, [vr^2 + r^2 vphi^2 + vz^2]. *)
Definition speed2 (y : Z -> R) : R :=
  y.[2] * y.[2] + y.[1] * y.[1] * y.[6] * y.[6] + y.[4] * y.[4].

(** C5.  For protons and for electrons [derivs] returns the velocities and,
    in cylindrical coordinates, the accelerations of the Lorentz force
    [Qm0 (E + v x B)].  For protons [Qm0] is left as it is (its initial value
    is the charge over the proton mass, [1/m_p] in the units of the program);
    for electrons every call first sets it to
    [-(1/M) sqrt (1 - |v|^2/c^2)]. *)
Theorem derivs_Lorentz_force (g : Globals) (x : R) (y dydx : Z -> R) :
  protneut (cfg g) = PROTON \/ protneut (cfg g) = ELECTRONS ->
  let res := derivs x y dydx g in
  let q := Qm0 res.1 in
  let d := res.2 in
  let F := BFeld y.[1] y.[5] y.[3] x in
  let E := EFeld y.[1] y.[5] y.[3] in
  let a := Lorentz q (Er E, Ephi E, Ez E) (Br F, Bphi F, Bz F) (y.[2], y.[1] * y.[6], y.[4]) in
  (protneut (cfg g) = PROTON -> q = Qm0 g)
  /\ (protneut (cfg g) = ELECTRONS ->
      q = - (1 / M (cfg g)) * sqrt (1 - speed2 y / (c_0 * c_0)))
  /\ Qm0_init = 1 / m_p
  /\ d.[1] = y.[2]
  /\ d.[2] = y.[1] * y.[6] ^ 2 + a.1.1
  /\ d.[3] = y.[4]
  /\ d.[4] = a.2
  /\ d.[5] = y.[6]
  /\ d.[6] = - 2 * y.[2] * y.[6] / y.[1] + a.1.2 / y.[1].
Proof.
  intros Hk res q d F E a.
  assert (Hq : Qm0_init = 1 / m_p).
  { unfold Qm0_init, m_p. field. lra. }
  subst a q d res. unfold derivs, Lorentz, cross, speed2.
  destruct Hk as [Hk | Hk]; cbn; rewrite ?Hk; cbn; rewrite ?Hk; cbn; fold F E.
  - repeat split; try reflexivity; try discriminate; try exact Hq; unfold Rdiv; ring.
  - assert (H10 : -1.0 = -1) by lra.
    repeat split; try reflexivity; try discriminate; try exact Hq; try (intros _);
      rewrite ?H10; unfold Rdiv; ring.
Qed.

(** *** Properties of [BruteForceIntegration] *)

(** The state in which line 1263 tests whether to integrate. *)
Definition BF_filled (g : Globals) : Globals :=
  BF_buffer (BF_firstint (BF_polarisation (BF_threshold g))).

(** The condition of line 1194, on the state in which the function is
    called: the smallest [|B|] of this step is above the threshold and the
    one of the preceding step was below. *)
Definition BF_left_low_field (g : Globals) : bool :=
  Rgtb (step_BFBmin (dense g)) (BFTargetB (cfg g))
  && Rltb (BFBmin (bf g)) (BFTargetB (cfg g)).

(** [step_BFBmin] is the smallest of 10 and of the values [Bp[13][1..kount]]. *)
Lemma step_BFBmin_spec (d : Dense) :
  let m := step_BFBmin d in
  m <= 10
  /\ (forall k, (1 <= k <= kount d)%Z -> m <= Bp d 13%Z k)
  /\ (m = 10 \/ exists k, (1 <= k <= kount d)%Z /\ m = Bp d 13%Z k).
Proof.
  unfold step_BFBmin.
  destruct (Z_lt_le_dec (kount d) 1) as [Hlt | Hge].
  - rewrite for_loop_empty by lia. cbn. repeat split; [lra | intros k Hk; lia | now left].
  - pose (P := fun (j : Z) (m : R) =>
        m <= 10
        /\ (forall k, (1 <= k < j)%Z -> m <= Bp d 13%Z k)
        /\ (m = 10 \/ exists k, (1 <= k < j)%Z /\ m = Bp d 13%Z k)).
    assert (HP : P (kount d + 1)%Z
                   (for_loop 1 (kount d)
                      (fun klauf m => if Rltb (Bp d 13%Z klauf) m then Bp d 13%Z klauf else m)
                      10)).
    { apply for_loop_ind; [lia | |].
      - unfold P. repeat split; [lra | intros k Hk; lia | now left].
      - intros j t Hj (H10 & Hlow & Hmem). unfold P.
        destruct (Rltb (Bp d 13%Z j) t) eqn:Hc.
        + apply Rltb_spec in Hc. repeat split.
          * lra.
          * intros k Hk. destruct (Z.eq_dec k j) as [-> | Hne]; [lra|].
            specialize (Hlow k ltac:(lia)). lra.
          * right. exists j. split; [lia | reflexivity].
        + assert (Hge' : t <= Bp d 13%Z j).
          { destruct (Rle_dec t (Bp d 13%Z j)) as [Hl | Hn]; [exact Hl|].
            rewrite Rltb_true in Hc by lra. discriminate. }
          repeat split.
          * exact H10.
          * intros k Hk. destruct (Z.eq_dec k j) as [-> | Hne]; [exact Hge'|].
            apply Hlow. lia.
          * destruct Hmem as [-> | (k & Hk & ->)]; [now left|].
            right. exists k. split; [lia | reflexivity]. }
    destruct HP as (H10 & Hlow & Hmem). cbn. repeat split.
    + exact H10.
    + intros k Hk. apply Hlow. lia.
    + destruct Hmem as [-> | (k & Hk & ->)]; [now left|].
      right. exists k. split; [lia | reflexivity].
Qed.

(** Lines 1176-1182 set [BFPolmin] to [BFBmin < BFTargetB]. *)
Lemma BF_threshold_bf g :
  let b := bf g in
  bf (BF_threshold g)
  = mkBF (step_BFBmin (dense g)) (Rltb (BFBmin b) (BFTargetB (cfg g))) (firstint b)
      (offset b) (BFtime b) (BFField b) (I_n b) (BFpol b) (BFlogpol b)
      (BFsurvprob b) (BFflipprob b) (BFBws b).
Proof.
  unfold BF_threshold. cbn.
  destruct (Rltb (BFBmin (bf g)) (BFTargetB (cfg g))) eqn:Hlt; [reflexivity|].
  unfold Rgeb. rewrite Rleb_true; [reflexivity|].
  destruct (Rle_dec (BFTargetB (cfg g)) (BFBmin (bf g))) as [Hl | Hn]; [exact Hl|].
  rewrite Rltb_true in Hlt by lra. discriminate.
Qed.

(** What the four first parts of the function keep. *)
Lemma BF_threshold_keeps g :
  let g' := BF_threshold g in
  cfg g' = cfg g /\ dense g' = dense g /\ part g' = part g /\ spin g' = spin g
  /\ v_mt_state g' = v_mt_state g /\ files g' = files g /\ bfout g' = bfout g
  /\ rando g' = rando g.
Proof. cbn. repeat split. Qed.

Lemma BF_polarisation_keeps g :
  let g' := BF_polarisation g in
  let b := bf g in
  let b' := bf g' in
  cfg g' = cfg g /\ dense g' = dense g /\ part g' = part g
  /\ files g' = files g /\ bfout g' = bfout g
  /\ BFBmin b' = BFBmin b /\ BFPolmin b' = BFPolmin b /\ firstint b' = firstint b
  /\ offset b' = offset b /\ BFtime b' = BFtime b /\ BFField b' = BFField b
  /\ I_n b' = I_n b /\ BFpol b' = BFpol b.
Proof.
  unfold BF_polarisation.
  destruct (Rgtb (BFBmin (bf g)) (BFTargetB (cfg g)) && BFPolmin (bf g)); cbn;
    [|repeat split].
  destruct (truthy (flipspin (cfg g))); cbn; [|repeat split].
  destruct (Rltb _ _); cbn; repeat split.
Qed.

Lemma BF_firstint_keeps g :
  let g' := BF_firstint g in
  let b := bf g in
  let b' := bf g' in
  cfg g' = cfg g /\ dense g' = dense g /\ part g' = part g /\ spin g' = spin g
  /\ v_mt_state g' = v_mt_state g /\ files g' = files g /\ bfout g' = bfout g
  /\ rando g' = rando g
  /\ BFBmin b' = BFBmin b /\ BFPolmin b' = BFPolmin b
  /\ offset b' = offset b /\ BFtime b' = BFtime b /\ BFField b' = BFField b
  /\ I_n b' = I_n b /\ BFpol b' = BFpol b
  /\ BFsurvprob b' = BFsurvprob b /\ BFflipprob b' = BFflipprob b.
Proof.
  unfold BF_firstint.
  destruct (Rgtb (BFBmin (bf g)) (BFTargetB (cfg g))); cbn; repeat split.
Qed.

Lemma BF_buffer_keeps g :
  let g' := BF_buffer g in
  let b := bf g in
  let b' := bf g' in
  cfg g' = cfg g /\ dense g' = dense g /\ part g' = part g /\ spin g' = spin g
  /\ v_mt_state g' = v_mt_state g /\ files g' = files g /\ bfout g' = bfout g
  /\ rando g' = rando g
  /\ BFBmin b' = BFBmin b /\ BFPolmin b' = BFPolmin b /\ firstint b' = firstint b
  /\ I_n b' = I_n b /\ BFpol b' = BFpol b
  /\ BFsurvprob b' = BFsurvprob b /\ BFflipprob b' = BFflipprob b.
Proof.
  unfold BF_buffer.
  destruct (Rltb (BFBmin (bf g)) (BFTargetB (cfg g))); cbn; repeat split.
Qed.

(** Lines 1194-1212 on the probabilities, the spin state and the random
    numbers. *)
Lemma BF_polarisation_effect g :
  let g' := BF_polarisation g in
  let b := bf g in
  let enters := Rgtb (BFBmin b) (BFTargetB (cfg g)) && BFPolmin b in
  let draws := enters && truthy (flipspin (cfg g)) in
  let r2 := mt_out (v_mt_state g) (S (mt_pos (v_mt_state g))) in
  let flips := draws && Rltb r2 (1 - (BFpol b + 0.5)) in
  BFsurvprob (bf g') = (if enters then (BFpol b + 0.5) * BFsurvprob b else BFsurvprob b)
  /\ BFflipprob (bf g')
     = (if enters then 1 - (BFpol b + 0.5) * BFsurvprob b else BFflipprob b)
  /\ spin g' = (if flips
                then spin_of_hfs (hfs (spin g) * -1) (M (cfg g)) (NSF (spin g) + 1)
                else spin g)
  /\ v_mt_state g'
     = (if draws
        then mkMT (mt_out (v_mt_state g)) (S (S (mt_pos (v_mt_state g))))
        else v_mt_state g)
  /\ rando g' = (if draws then mt_out (v_mt_state g) (mt_pos (v_mt_state g))
                 else rando g).
Proof.
  unfold BF_polarisation.
  destruct (Rgtb (BFBmin (bf g)) (BFTargetB (cfg g)) && BFPolmin (bf g)); cbn;
    [|repeat split].
  destruct (truthy (flipspin (cfg g))); cbn; [|repeat split].
  destruct (Rltb _ _); cbn; repeat split.
Qed.

(** The state in which line 1263 is reached. *)
Lemma BF_filled_spec g :
  let g' := BF_filled g in
  let b := bf g in
  let m := step_BFBmin (dense g) in
  let klaufstart := if (offset b >? 0)%Z then 2%Z else 1%Z in
  cfg g' = cfg g /\ dense g' = dense g /\ part g' = part g
  /\ files g' = files g /\ bfout g' = bfout g
  /\ BFBmin (bf g') = m
  /\ offset (bf g')
     = (if Rltb m (BFTargetB (cfg g))
        then (offset b + kount (dense g) - (klaufstart - 1))%Z else offset b)
  /\ BFpol (bf g') = BFpol b
  /\ BFsurvprob (bf g') = BFsurvprob (bf (BF_polarisation (BF_threshold g)))
  /\ BFflipprob (bf g') = BFflipprob (bf (BF_polarisation (BF_threshold g)))
  /\ spin g' = spin (BF_polarisation (BF_threshold g))
  /\ v_mt_state g' = v_mt_state (BF_polarisation (BF_threshold g)).
Proof.
  intros g' b m klaufstart. subst g'. unfold BF_filled.
  set (g1 := BF_threshold g).
  set (g2 := BF_polarisation g1).
  set (g3 := BF_firstint g2).
  pose proof (BF_threshold_bf g) as Hb1. cbn zeta in Hb1. fold g1 b m in Hb1.
  destruct (BF_threshold_keeps g) as (Hc1 & Hd1 & Hp1 & _ & _ & Hf1 & Ho1 & _).
  fold g1 in Hc1, Hd1, Hp1, Hf1, Ho1.
  destruct (BF_polarisation_keeps g1)
    as (Hc2 & Hd2 & Hp2 & Hf2 & Ho2 & Hm2 & _ & _ & Hoff2 & _ & _ & _ & Hpol2).
  fold g2 in Hc2, Hd2, Hp2, Hf2, Ho2, Hm2, Hoff2, Hpol2.
  destruct (BF_firstint_keeps g2)
    as (Hc3 & Hd3 & Hp3 & Hs3 & Hmt3 & Hf3 & Ho3 & _ & Hm3 & _ & Hoff3 & _ & _ & _
        & Hpol3 & Hsu3 & Hfl3).
  fold g3 in Hc3, Hd3, Hp3, Hs3, Hmt3, Hf3, Ho3, Hm3, Hoff3, Hpol3, Hsu3, Hfl3.
  destruct (BF_buffer_keeps g3)
    as (Hc4 & Hd4 & Hp4 & Hs4 & Hmt4 & Hf4 & Ho4 & _ & Hm4 & _ & _ & _ & Hpol4
        & Hsu4 & Hfl4).
  assert (Hm : BFBmin (bf g3) = m) by (rewrite Hm3, Hm2, Hb1; reflexivity).
  assert (Hoff : offset (bf g3) = offset b) by (rewrite Hoff3, Hoff2, Hb1; reflexivity).
  repeat split; try congruence.
  - unfold BF_buffer. rewrite Hm, Hoff.
    replace (cfg g3) with (cfg g) by congruence.
    replace (dense g3) with (dense g) by congruence.
    destruct (Rltb m (BFTargetB (cfg g))); cbn; [reflexivity | exact Hoff].
  - rewrite Hpol4, Hpol3, Hpol2, Hb1. reflexivity.
Qed.

(** The value written into [BFpol] by a round of the output loop is the
    projection of line 1289: [powl(x, 2)] is [x * x]. *)
Lemma BF_write_BFpol o k g : BFpol (bf (BF_write o k g)) = projection o k.
Proof.
  unfold BF_write, projection. cbn.
  f_equal. f_equal. ring.
Qed.

(** What the output loop of lines 1306-1317 keeps. *)
Definition BF_write_kept (g g' : Globals) : Prop :=
  cfg g' = cfg g /\ dense g' = dense g /\ part g' = part g /\ spin g' = spin g
  /\ v_mt_state g' = v_mt_state g /\ bfout g' = bfout g /\ trk g' = trk g
  /\ BFBmin (bf g') = BFBmin (bf g) /\ BFPolmin (bf g') = BFPolmin (bf g)
  /\ firstint (bf g') = firstint (bf g) /\ offset (bf g') = offset (bf g)
  /\ I_n (bf g') = I_n (bf g)
  /\ BFsurvprob (bf g') = BFsurvprob (bf g) /\ BFflipprob (bf g') = BFflipprob (bf g)
  /\ OUTFILE1 (files g') = OUTFILE1 (files g) /\ ENDLOG (files g') = ENDLOG (files g)
  /\ closed (files g') = closed (files g) /\ BFFilecount (files g') = BFFilecount (files g)
  /\ (BFLOG (files g')).1 = (BFLOG (files g)).1.

Lemma BF_write_loop_kept o n g : BF_write_kept g (for_loop 2 n (BF_write o) g).
Proof.
  apply for_loop_keeps.
  - unfold BF_write_kept. repeat split.
  - intros j t Ht. unfold BF_write_kept in *. cbn.
    repeat match goal with H : _ /\ _ |- _ => destruct H end.
    repeat split; assumption.
Qed.

(** After the output loop [BFpol] is the projection at the last saved value
    and the loop has counted [BFkount - 1] rows. *)
Lemma BF_write_loop_BFpol o n g :
  (2 <= n)%Z ->
  let g' := for_loop 2 n (BF_write o) g in
  BFpol (bf g') = projection o n
  /\ BFZeilencount (files g') = (BFZeilencount (files g) + (n - 1))%Z.
Proof.
  intros Hn.
  pose (P := fun (j : Z) (t : Globals) =>
      (j = 2%Z \/ BFpol (bf t) = projection o (j - 1))
      /\ BFZeilencount (files t) = (BFZeilencount (files g) + (j - 2))%Z).
  assert (HP : P (n + 1)%Z (for_loop 2 n (BF_write o) g)).
  { apply for_loop_ind; [lia | |].
    - unfold P. split; [now left | lia].
    - intros j t Hj [_ Hz]. unfold P. split.
      + right. rewrite BF_write_BFpol. f_equal. lia.
      + cbn. rewrite Hz. lia. }
  destruct HP as [[Hbad | Hp] Hz]; [lia|]. cbn. split.
  - rewrite Hp. f_equal. lia.
  - rewrite Hz. lia.
Qed.

Lemma BF_integrate_skip g : BF_integrates g = false -> BF_integrate g = g.
Proof. intros Hi. unfold BF_integrate. now rewrite Hi. Qed.

(** Lines 1262-1323 when the integration takes place. *)
Lemma BF_integrate_effect g :
  BF_integrates g = true ->
  let g' := BF_integrate g in
  let r := BF_call (BF_first_spin (bf g)) in
  bfout g' = r.2
  /\ I_n (bf g') = r.1
  /\ BFpol (bf g') = projection r.2 (BFkount r.2)
  /\ offset (bf g') = 0%Z /\ firstint (bf g') = 0%Z
  /\ cfg g' = cfg g /\ dense g' = dense g /\ part g' = part g /\ spin g' = spin g
  /\ v_mt_state g' = v_mt_state g
  /\ BFBmin (bf g') = BFBmin (bf g)
  /\ BFsurvprob (bf g') = BFsurvprob (bf g) /\ BFflipprob (bf g') = BFflipprob (bf g).
Proof.
  intros Hi g' r. subst g'. unfold BF_integrate. rewrite Hi.
  assert (Hfs : forall b, BFBmin (BF_first_spin b) = BFBmin b
                          /\ BFsurvprob (BF_first_spin b) = BFsurvprob b
                          /\ BFflipprob (BF_first_spin b) = BFflipprob b).
  { intros b. unfold BF_first_spin. destruct (truthy (firstint b)); cbn; repeat split. }
  destruct (Hfs (bf g)) as (Hf1 & Hf2 & Hf3).
  subst r. destruct (BF_call (BF_first_spin (bf g))) as [I o]. cbn.
  destruct ((ausgabewunsch (part g) =? OUTPUT_EVERYTHINGandSPIN)%Z
            || (ausgabewunsch (part g) =? OUTPUT_ENDPOINTSandSPIN)%Z).
  - match goal with |- context [for_loop 2 ?n ?body ?g0] =>
      pose proof (BF_write_loop_kept o n g0) as Hk; set (gl := for_loop 2 n body g0) in *
    end.
    unfold BF_write_kept in Hk. cbn in Hk.
    destruct Hk as (K1 & K2 & K3 & K4 & K5 & K6 & K7 & K8 & K9 & K10 & K11 & K12 & K13
                    & K14 & _).
    cbn. repeat split; try congruence.
    destruct (Z_lt_le_dec (BFkount o) 2) as [Hlt | Hge].
    + subst gl. rewrite for_loop_empty by lia. reflexivity.
    + subst gl.
      match goal with |- context [for_loop 2 ?n ?body ?g0] =>
        destruct (BF_write_loop_BFpol o n g0 Hge) as [Hp _]
      end.
      exact Hp.
  - cbn. repeat split; congruence.
Qed.

(** The loop of lines 1236-1256 writes the values [klaufstart..kount] of the
    step behind the [off] values of the buffer and leaves these as they
    are. *)
Lemma BF_store_loop (d : Dense) (off ks : Z) (t : Z -> R) (f : Z -> Z -> R) :
  (1 <= ks)%Z ->
  let tf := for_loop ks (kount d) (BF_store d off ks) (t, f) in
  (forall k, (ks <= k <= kount d)%Z ->
     let i := (off + k - (ks - 1))%Z in
     let c := CylKartCoord (Bp d 1%Z k) (Bp d 5%Z k) (Bp d 9%Z k) (yp d 5%Z k) in
     tf.1 i = xp d k
     /\ tf.2 1%Z i = c.1.1 /\ tf.2 2%Z i = c.1.2 /\ tf.2 3%Z i = c.2
     /\ tf.2 4%Z i = yp d 1%Z k /\ tf.2 5%Z i = yp d 3%Z k)
  /\ (forall i, (i <= off)%Z -> tf.1 i = t i /\ forall c, tf.2 c i = f c i).
Proof.
  intros Hks tf.
  destruct (Z_lt_le_dec (kount d) ks) as [Hlt | Hge].
  { subst tf. rewrite for_loop_empty by lia. cbn. split; [intros k Hk; lia | auto]. }
  pose (P := fun (j : Z) (tf : (Z -> R) * (Z -> Z -> R)) =>
      (forall k, (ks <= k < j)%Z ->
         let i := (off + k - (ks - 1))%Z in
         let c := CylKartCoord (Bp d 1%Z k) (Bp d 5%Z k) (Bp d 9%Z k) (yp d 5%Z k) in
         tf.1 i = xp d k
         /\ tf.2 1%Z i = c.1.1 /\ tf.2 2%Z i = c.1.2 /\ tf.2 3%Z i = c.2
         /\ tf.2 4%Z i = yp d 1%Z k /\ tf.2 5%Z i = yp d 3%Z k)
      /\ (forall i, (i <= off)%Z -> tf.1 i = t i /\ forall c, tf.2 c i = f c i)).
  assert (HP : P (kount d + 1)%Z tf).
  { subst tf. apply for_loop_ind; [lia | |].
    - unfold P. cbn. split; [intros k Hk; lia | auto].
    - intros j [t' f'] Hj [Hwr Hold]. unfold P, BF_store. cbn in Hwr, Hold |- *.
      destruct (CylKartCoord (Bp d 1%Z j) (Bp d 5%Z j) (Bp d 9%Z j) (yp d 5%Z j))
        as [[cx cy] cz] eqn:Hc.
      cbn. split.
      + intros k Hk. destruct (Z.eq_dec k j) as [-> | Hne].
        * rewrite Hc. unfold upd, upd2. cbn. rewrite !Z.eqb_refl. cbn. repeat split.
        * destruct (Hwr k ltac:(lia)) as (W0 & W1 & W2 & W3 & W4 & W5).
          unfold upd, upd2.
          replace (off + k - (ks - 1) =? off + j - (ks - 1))%Z with false by lia.
          rewrite !andb_false_r. repeat split; assumption.
      + intros i Hi. destruct (Hold i Hi) as [O1 O2]. unfold upd, upd2.
        replace (i =? off + j - (ks - 1))%Z with false by lia.
        split; [exact O1|]. intros c. rewrite !andb_false_r. apply O2. }
  destruct HP as [Hwr Hold]. split; [|exact Hold].
  intros k Hk. apply Hwr. lia.
Qed.

(** C3 (as the program has it).  [step_BFBmin] is the smallest [|B|] of the
    values saved of the step (at most 10).  The values of the step are put
    behind the buffer exactly when it is below [BFTargetB] (the first value
    is left out when the buffer is not empty); otherwise the buffer is left
    as it is.  The Bloch equation is then integrated over the buffer exactly
    when the minimum is at least [BFTargetB] and the buffer holds at least
    10 values, or the buffer holds at least 2000 values; the integration
    empties the buffer.  With a minimum below [BFTargetB] and fewer than 2000
    values nothing is integrated. *)
Theorem BruteForce_buffer_and_integration (g : Globals) :
  let d := dense g in
  let m := step_BFBmin d in
  let T := BFTargetB (cfg g) in
  let b := bf g in
  let klaufstart := if (offset b >? 0)%Z then 2%Z else 1%Z in
  let g4 := BF_filled g in
  let g5 := BruteForceIntegration g in
  (m <= 10 /\ (forall k, (1 <= k <= kount d)%Z -> m <= Bp d 13%Z k)
   /\ (m = 10 \/ exists k, (1 <= k <= kount d)%Z /\ m = Bp d 13%Z k))
  /\ (m < T ->
      offset (bf g4) = (offset b + kount d - (klaufstart - 1))%Z
      /\ (forall k, (klaufstart <= k <= kount d)%Z ->
          let i := (offset b + k - (klaufstart - 1))%Z in
          let c := CylKartCoord (Bp d 1%Z k) (Bp d 5%Z k) (Bp d 9%Z k) (yp d 5%Z k) in
          BFtime (bf g4) i = xp d k
          /\ BFField (bf g4) 1%Z i = c.1.1 /\ BFField (bf g4) 2%Z i = c.1.2
          /\ BFField (bf g4) 3%Z i = c.2
          /\ BFField (bf g4) 4%Z i = yp d 1%Z k /\ BFField (bf g4) 5%Z i = yp d 3%Z k)
      /\ (forall i, (i <= offset b)%Z ->
          BFtime (bf g4) i = BFtime b i /\ forall c, BFField (bf g4) c i = BFField b c i))
  /\ (T <= m ->
      offset (bf g4) = offset b /\ BFtime (bf g4) = BFtime b /\ BFField (bf g4) = BFField b)
  /\ (BF_integrates g4 = true
      <-> (T <= m /\ (10 <= offset (bf g4))%Z) \/ (2000 <= offset (bf g4))%Z)
  /\ (BF_integrates g4 = true ->
      bfout g5 = (BF_call (BF_first_spin (bf g4))).2 /\ offset (bf g5) = 0%Z)
  /\ (BF_integrates g4 = false -> g5 = g4)
  /\ (m < T -> (offset (bf g4) < 2000)%Z -> g5 = g4).
Proof.
  intros d m T b klaufstart g4 g5.
  destruct (BF_filled_spec g)
    as (Hc & Hd & _ & _ & _ & Hm & Hoff & _).
  fold g4 b d m T klaufstart in Hc, Hd, Hm, Hoff.
  assert (Hint : BF_integrates g4 = true
                 <-> (T <= m /\ (10 <= offset (bf g4))%Z) \/ (2000 <= offset (bf g4))%Z).
  { unfold BF_integrates. rewrite Hm, Hc. fold T.
    rewrite orb_true_iff, andb_true_iff, Rgeb_spec, !Z.geb_le. reflexivity. }
  (* the three parts before the buffer keep it *)
  set (g3 := BF_firstint (BF_polarisation (BF_threshold g))).
  assert (H3 : cfg g3 = cfg g /\ dense g3 = d /\ BFBmin (bf g3) = m
               /\ offset (bf g3) = offset b /\ BFtime (bf g3) = BFtime b
               /\ BFField (bf g3) = BFField b).
  { subst g3.
    pose proof (BF_threshold_bf g) as Hb1. cbn zeta in Hb1.
    destruct (BF_threshold_keeps g) as (Hc1 & Hd1 & _).
    destruct (BF_polarisation_keeps (BF_threshold g))
      as (Hc2 & Hd2 & _ & _ & _ & Hm2 & _ & _ & Ho2 & Ht2 & Hf2 & _).
    destruct (BF_firstint_keeps (BF_polarisation (BF_threshold g)))
      as (Hc3 & Hd3 & _ & _ & _ & _ & _ & _ & Hm3 & _ & Ho3 & Ht3 & Hf3 & _).
    rewrite Hc3, Hd3, Hm3, Ho3, Ht3, Hf3, Hc2, Hd2, Hm2, Ho2, Ht2, Hf2, Hb1.
    repeat split; assumption. }
  destruct H3 as (Hc3 & Hd3 & Hm3 & Ho3 & Ht3 & Hf3).
  split; [apply step_BFBmin_spec|].
  split.
  { intros Hlt. rewrite Hoff, (Rltb_true _ _ Hlt). split; [reflexivity|].
    assert (Hks : (1 <= klaufstart)%Z) by (subst klaufstart; destruct (offset b >? 0)%Z; lia).
    destruct (BF_store_loop d (offset b) klaufstart (BFtime b) (BFField b) Hks) as [Hwr Hold].
    assert (Hbuf : bf g4
                   = let tf := for_loop klaufstart (kount d) (BF_store d (offset b) klaufstart)
                                 (BFtime b, BFField b) in
                     mkBF (BFBmin (bf g3)) (BFPolmin (bf g3)) (firstint (bf g3))
                       (offset b + kount d - (klaufstart - 1))%Z tf.1 tf.2
                       (I_n (bf g3)) (BFpol (bf g3)) (BFlogpol (bf g3))
                       (BFsurvprob (bf g3)) (BFflipprob (bf g3)) (BFBws (bf g3))).
    { subst g4. unfold BF_filled. fold g3. unfold BF_buffer.
      rewrite Hm3, Hc3, Hd3, Ho3, Ht3, Hf3. fold T klaufstart.
      rewrite (Rltb_true _ _ Hlt). reflexivity. }
    rewrite Hbuf. cbn. split; [exact Hwr | exact Hold]. }
  split.
  { intros Hge. rewrite Hoff, (Rltb_false _ _ Hge).
    subst g4. unfold BF_filled. fold g3. unfold BF_buffer.
    rewrite Hm3, Hc3. fold T. rewrite (Rltb_false _ _ Hge).
    repeat split; assumption. }
  split; [exact Hint|].
  split.
  { intros Hi. destruct (BF_integrate_effect g4 Hi) as (E1 & _ & _ & E4 & _).
    split; [exact E1 | exact E4]. }
  split.
  { intros Hi. subst g5. unfold BruteForceIntegration. fold (BF_filled g). fold g4.
    now apply BF_integrate_skip. }
  intros Hlt Hcap. subst g5. unfold BruteForceIntegration. fold (BF_filled g). fold g4.
  apply BF_integrate_skip.
  destruct (BF_integrates g4) eqn:Hi; [|reflexivity].
  destruct (proj1 Hint eq_refl) as [[Hge _] | Hbig]; [lra | lia].
Qed.

(** What a call of [BruteForceIntegration] does to the probabilities, to the
    spin state and to the random numbers: only lines 1194-1212 write them. *)
Lemma BruteForceIntegration_polarisation g :
  let g5 := BruteForceIntegration g in
  let b := bf g in
  let draws := BF_left_low_field g && truthy (flipspin (cfg g)) in
  let r2 := mt_out (v_mt_state g) (S (mt_pos (v_mt_state g))) in
  let flips := draws && Rltb r2 (1 - (BFpol b + 0.5)) in
  BFsurvprob (bf g5)
  = (if BF_left_low_field g then (BFpol b + 0.5) * BFsurvprob b else BFsurvprob b)
  /\ BFflipprob (bf g5)
     = (if BF_left_low_field g then 1 - (BFpol b + 0.5) * BFsurvprob b else BFflipprob b)
  /\ spin g5 = (if flips
                then spin_of_hfs (hfs (spin g) * -1) (M (cfg g)) (NSF (spin g) + 1)
                else spin g)
  /\ v_mt_state g5
     = (if draws
        then mkMT (mt_out (v_mt_state g)) (S (S (mt_pos (v_mt_state g))))
        else v_mt_state g).
Proof.
  intros g5 b draws r2 flips.
  destruct (BF_filled_spec g) as (_ & _ & _ & _ & _ & _ & _ & _ & Hsu & Hfl & Hsp & Hmt).
  assert (Hlast : BFsurvprob (bf g5) = BFsurvprob (bf (BF_filled g))
                  /\ BFflipprob (bf g5) = BFflipprob (bf (BF_filled g))
                  /\ spin g5 = spin (BF_filled g)
                  /\ v_mt_state g5 = v_mt_state (BF_filled g)).
  { subst g5. unfold BruteForceIntegration. fold (BF_filled g).
    destruct (BF_integrates (BF_filled g)) eqn:Hi.
    - destruct (BF_integrate_effect _ Hi)
        as (_ & _ & _ & _ & _ & _ & _ & _ & E1 & E2 & _ & E3 & E4).
      repeat split; assumption.
    - rewrite BF_integrate_skip by exact Hi. repeat split. }
  destruct Hlast as (L1 & L2 & L3 & L4).
  rewrite L1, L2, L3, L4, Hsu, Hfl, Hsp, Hmt.
  destruct (BF_polarisation_effect (BF_threshold g)) as (P1 & P2 & P3 & P4 & _).
  rewrite P1, P2, P3, P4, (BF_threshold_bf g). cbn.
  fold (BF_left_low_field g). fold b draws r2 flips.
  repeat split.
Qed.

(** The inequality of Cauchy and Schwarz for the projection: a spin vector of
    length 1/2 has a projection on a field other than zero between -1/2 and
    1/2. *)
Lemma projection_bound (o : BFOut) (k : Z) :
  BFyp o 1%Z k ^ 2 + BFyp o 2%Z k ^ 2 + BFyp o 3%Z k ^ 2 = 1 / 4 ->
  0 < BFypFields o 1%Z k ^ 2 + BFypFields o 2%Z k ^ 2 + BFypFields o 3%Z k ^ 2 ->
  - (1 / 2) <= projection o k <= 1 / 2.
Proof.
  unfold projection.
  generalize (BFyp o 1%Z k) (BFyp o 2%Z k) (BFyp o 3%Z k)
             (BFypFields o 1%Z k) (BFypFields o 2%Z k) (BFypFields o 3%Z k).
  intros a1 a2 a3 b1 b2 b3 Ha Hb.
  set (bb := b1 ^ 2 + b2 ^ 2 + b3 ^ 2) in *.
  set (ab := a1 * b1 + a2 * b2 + a3 * b3).
  assert (Hn : 0 < sqrt bb) by (apply sqrt_lt_R0; exact Hb).
  assert (Hnn : sqrt bb * sqrt bb = bb) by (apply sqrt_sqrt; lra).
  assert (Hcs : ab * ab <= (1 / 4) * bb).
  { rewrite <- Ha. subst ab bb.
    assert (Hid : (a1 ^ 2 + a2 ^ 2 + a3 ^ 2) * (b1 ^ 2 + b2 ^ 2 + b3 ^ 2)
                  - (a1 * b1 + a2 * b2 + a3 * b3) * (a1 * b1 + a2 * b2 + a3 * b3)
                  = (a1 * b2 - a2 * b1) ^ 2 + (a1 * b3 - a3 * b1) ^ 2
                    + (a2 * b3 - a3 * b2) ^ 2) by ring.
    pose proof (pow2_ge_0 (a1 * b2 - a2 * b1)).
    pose proof (pow2_ge_0 (a1 * b3 - a3 * b1)).
    pose proof (pow2_ge_0 (a2 * b3 - a3 * b2)).
    lra. }
  set (n := sqrt bb) in *.
  assert (Hp : ab / n * n = ab) by (field; lra).
  set (p := ab / n) in *.
  assert (Hp2 : p * p * bb <= 1 / 4 * bb).
  { replace (p * p * bb) with (ab * ab); [exact Hcs|].
    rewrite <- Hp, <- Hnn. ring. }
  assert (Hpp : p * p <= 1 / 4) by (apply (Rmult_le_reg_r bb); assumption).
  split.
  - destruct (Rle_dec (- (1 / 2)) p) as [Hle | Hgt]; [exact Hle | exfalso].
    assert (Hlt : p < - (1 / 2)) by lra.
    assert (0 < (p + 1 / 2) * (p - 1 / 2)) by (apply Rmult_neg_neg; lra).
    lra.
  - destruct (Rle_dec p (1 / 2)) as [Hle | Hgt]; [exact Hle | exfalso].
    assert (Hlt : 1 / 2 < p) by lra.
    assert (0 < (p + 1 / 2) * (p - 1 / 2)) by (apply Rmult_lt_0_compat; lra).
    lra.
Qed.

(** C2 (what the program does).  Every Bloch integration leaves in [BFpol]
    the projection [I * B / |B|] of the spin on the field at the last value
    it saved, which lies in [-1/2, 1/2] for a spin of length 1/2.  The
    probabilities are written by lines 1194-1212, which stand before the
    integration of lines 1263-1323 and are entered only by a call that finds
    the smallest [|B|] of its step above [BFTargetB] after a step that had it
    below: [BFsurvprob] is multiplied by [BFpol + 0.5] for the [BFpol] the
    call was entered with (0.5 at the start of a particle), not for the one
    the integration of the same call is about to find, and [BFflipprob]
    becomes [1 - BFsurvprob].  The comment of line 1195 has the block
    "after BF int completed".  [BFflipprob = 1 - BFsurvprob] holds at the
    start of a particle and is kept. *)
Theorem BruteForce_polarisation_update (g : Globals) :
  let g4 := BF_filled g in
  let g5 := BruteForceIntegration g in
  let b := bf g in
  let o := (BF_call (BF_first_spin (bf g4))).2 in
  let k := BFkount o in
  let g0 := IntegrateParticle_reset g in
  (BF_integrates g4 = true ->
   BFpol (bf g5) = projection o k
   /\ (BFyp o 1%Z k ^ 2 + BFyp o 2%Z k ^ 2 + BFyp o 3%Z k ^ 2 = 1 / 4 ->
       0 < BFypFields o 1%Z k ^ 2 + BFypFields o 2%Z k ^ 2 + BFypFields o 3%Z k ^ 2 ->
       - (1 / 2) <= BFpol (bf g5) <= 1 / 2))
  /\ (BF_integrates g4 = false -> BFpol (bf g5) = BFpol b)
  /\ BFsurvprob (bf g5)
     = (if BF_left_low_field g then (BFpol b + 0.5) * BFsurvprob b else BFsurvprob b)
  /\ (BF_left_low_field g = true -> BFflipprob (bf g5) = 1 - BFsurvprob (bf g5))
  /\ (BFflipprob b = 1 - BFsurvprob b -> BFflipprob (bf g5) = 1 - BFsurvprob (bf g5))
  /\ BFpol (bf g0) = 0.5 /\ BFsurvprob (bf g0) = 1
  /\ BFflipprob (bf g0) = 1 - BFsurvprob (bf g0).
Proof.
  intros g4 g5 b o k g0.
  destruct (BruteForceIntegration_polarisation g) as (Hsu & Hfl & _).
  fold g5 b in Hsu, Hfl.
  split.
  { intros Hi. destruct (BF_integrate_effect g4 Hi) as (_ & _ & Hp & _).
    assert (Hpol : BFpol (bf g5) = projection o k) by exact Hp.
    split; [exact Hpol|]. intros HI HB. rewrite Hpol. now apply projection_bound. }
  split.
  { intros Hi. subst g5. unfold BruteForceIntegration. fold (BF_filled g). fold g4.
    rewrite BF_integrate_skip by exact Hi.
    destruct (BF_filled_spec g) as (_ & _ & _ & _ & _ & _ & _ & Hp & _). exact Hp. }
  split; [exact Hsu|].
  split.
  { intros HL. rewrite Hsu, Hfl, HL. reflexivity. }
  split.
  { intros Hinv. rewrite Hsu, Hfl. destruct (BF_left_low_field g); [reflexivity | exact Hinv]. }
  subst g0. cbn. repeat split; lra.
Qed.

(** C4 (what the program does).  [BruteForceIntegration] draws random numbers
    only with [flipspin] set and only in the call that finds the smallest
    [|B|] of its step above [BFTargetB] after a step that had it below; it
    draws two and flips the spin exactly when the second is below
    [1 - (BFpol + 0.5)] for the [BFpol] the call was entered with: the test
    of line 1202 stands before the integration of the same call (lines
    1263-1323), whose projection it does not see.  A flip negates [hfs],
    computes [mu_n] and [mumB] from it and counts in [NSF]; without a flip
    the spin state is left as it is, and so it is in every call with
    [flipspin] unset. *)
Theorem BruteForce_spin_flip (g : Globals) :
  let g5 := BruteForceIntegration g in
  let s := spin g in
  let s' := spin g5 in
  let mt := v_mt_state g in
  let draws := BF_left_low_field g && truthy (flipspin (cfg g)) in
  let r2 := mt_out mt (S (mt_pos mt)) in
  (NSF s' = (NSF s + 1)%Z
   <-> truthy (flipspin (cfg g)) = true /\ BF_left_low_field g = true
       /\ r2 < 1 - (BFpol (bf g) + 0.5))
  /\ (NSF s' = (NSF s + 1)%Z ->
      hfs s' = (- hfs s)%Z /\ mu_n s' = IZR (hfs s') * mu_nSI / ele_e
      /\ mumB s' = mu_n s' / M (cfg g))
  /\ (NSF s' <> (NSF s + 1)%Z -> s' = s)
  /\ v_mt_state g5 = (if draws then mkMT (mt_out mt) (S (S (mt_pos mt))) else mt)
  /\ (truthy (flipspin (cfg g)) = false -> s' = s /\ v_mt_state g5 = mt).
Proof using Type.
  clear BFeld EFeld Entkommen MCStartwerte GeomCheck KENNZAHL_UNKNOWN
    IntegrateParticle_track OUTPUT_EVERYTHING fopen_fails atoi mt_set.
  intros g5 s s' mt draws r2.
  destruct (BruteForceIntegration_polarisation g) as (_ & _ & Hsp & Hmt).
  fold g5 s s' mt draws r2 in Hsp, Hmt.
  assert (Hcases : (draws && Rltb r2 (1 - (BFpol (bf g) + 0.5)) = true
                    /\ s' = spin_of_hfs (hfs s * -1) (M (cfg g)) (NSF s + 1))
                   \/ (draws && Rltb r2 (1 - (BFpol (bf g) + 0.5)) = false /\ s' = s)).
  { rewrite Hsp. destruct (draws && Rltb r2 (1 - (BFpol (bf g) + 0.5))); auto. }
  assert (Hiff : draws && Rltb r2 (1 - (BFpol (bf g) + 0.5)) = true
                 <-> truthy (flipspin (cfg g)) = true /\ BF_left_low_field g = true
                     /\ r2 < 1 - (BFpol (bf g) + 0.5)).
  { subst draws. rewrite !andb_true_iff, Rltb_spec. tauto. }
  split.
  { destruct Hcases as [[Ht Hs] | [Hf Hs]].
    - split; [intros _; now apply Hiff | intros _; rewrite Hs; reflexivity].
    - split.
      + rewrite Hs. intros Hbad. lia.
      + intros Hc. apply Hiff in Hc. rewrite Hc in Hf. discriminate Hf. }
  split.
  { destruct Hcases as [[Ht Hs] | [Hf Hs]]; rewrite Hs.
    - intros _. cbn. repeat split. lia.
    - intros Hbad. lia. }
  split.
  { destruct Hcases as [[Ht Hs] | [Hf Hs]]; rewrite Hs.
    - cbn. intros Hbad. now contradiction Hbad.
    - reflexivity. }
  split; [exact Hmt|].
  intros Hoff. rewrite Hmt, Hsp. subst draws. rewrite Hoff, andb_false_r. cbn. split; reflexivity.
Qed.

(** *** The force on a neutron *)

(** The spin state as the program writes it (lines 739-749 and 1204-1206):
    [hfs] is -1, +1 or 0, [mu_n = hfs * mu_nSI / ele_e] and
    [mumB = mu_n / M].  The three globals have no initialiser, so they are
    0 at the start of the program, which is this state with [hfs = 0]. *)
Definition spin_set (c : Config) (s : Spin) : Prop :=
  (hfs s = (-1)%Z \/ hfs s = 1%Z \/ hfs s = 0%Z)
  /\ mu_n s = IZR (hfs s) * (mu_nSI / ele_e)
  /\ mumB s = mu_n s / M c.

Lemma spin_of_hfs_set (c : Config) (h nsf : Z) :
  h = (-1)%Z \/ h = 1%Z \/ h = 0%Z -> spin_set c (spin_of_hfs h (M c) nsf).
Proof.
  intros Hh. unfold spin_set, spin_of_hfs. cbn.
  split; [exact Hh|]. split; [unfold Rdiv; ring | reflexivity].
Qed.

(** The start of a particle leaves the spin state set, and in brute-force
    mode it sets it for a neutron whatever it was before. *)
Lemma IntegrateParticle_spin_set g :
  let g1 := IntegrateParticle_spin g in
  cfg g1 = cfg g
  /\ (spin_set (cfg g) (spin g) -> spin_set (cfg g1) (spin g1))
  /\ (protneut (cfg g) = NEUTRON -> truthy (BruteForce (cfg g)) = true ->
      (forall c, polarisation (cfg g) <> POLARISATION_OTHER c) ->
      spin_set (cfg g1) (spin g1)
      /\ match polarisation (cfg g) with
         | POLARISATION_GOOD => hfs (spin g1) = (-1)%Z
         | POLARISATION_BAD => hfs (spin g1) = 1%Z
         | _ => hfs (spin g1) = 0%Z
         end).
Proof.
  intros g1.
  assert (Hc : cfg g1 = cfg g).
  { subst g1. unfold IntegrateParticle_spin. cbn.
    destruct (truthy (BruteForce (cfg g))); cbn; [|reflexivity].
    destruct (is_NEUTRON (protneut (cfg g))); cbn; [|reflexivity].
    destruct (polarisation (cfg g)); reflexivity. }
  split; [exact Hc|]. rewrite Hc. split.
  - intros Hs. subst g1. unfold IntegrateParticle_spin. cbn.
    destruct (truthy (BruteForce (cfg g))); cbn; [|exact Hs].
    destruct (is_NEUTRON (protneut (cfg g))); cbn; [|exact Hs].
    destruct (polarisation (cfg g)); cbn.
    + apply spin_of_hfs_set. auto.
    + apply spin_of_hfs_set. auto.
    + unfold spin_set. cbn. split; [auto|]. split; [ring | reflexivity].
    + exact Hs.
  - intros Hn Hbf Hpol.
    destruct (IntegrateParticle_spin_neutron g Hn Hbf) as [Hh Hmu].
    fold g1 in Hh, Hmu. destruct (Hmu Hpol) as [Hm1 Hm2].
    destruct (polarisation (cfg g)) eqn:Hp; try (exfalso; now apply (Hpol code));
      (split; [|exact Hh]); unfold spin_set; rewrite Hh;
      (split; [auto|]); (split; [rewrite Hm1, Hh; reflexivity | exact Hm2]).
Qed.

(** [BruteForceIntegration] leaves the spin state set: a flip negates [hfs]
    and computes [mu_n] and [mumB] from it. *)
Lemma BruteForceIntegration_spin_set g :
  let g5 := BruteForceIntegration g in
  cfg g5 = cfg g /\ (spin_set (cfg g) (spin g) -> spin_set (cfg g5) (spin g5)).
Proof.
  intros g5.
  assert (Hc : cfg g5 = cfg g).
  { subst g5. unfold BruteForceIntegration. fold (BF_filled g).
    destruct (BF_filled_spec g) as (Fc & _).
    destruct (BF_integrates (BF_filled g)) eqn:Hi.
    - destruct (BF_integrate_effect _ Hi) as (_ & _ & _ & _ & _ & Ec & _). congruence.
    - rewrite BF_integrate_skip by exact Hi. exact Fc. }
  split; [exact Hc|]. rewrite Hc. intros Hs.
  destruct (BruteForceIntegration_polarisation g) as (_ & _ & Hsp & _).
  fold g5 in Hsp. rewrite Hsp.
  destruct (_ && _); [|exact Hs].
  apply spin_of_hfs_set. destruct Hs as ([H|[H|H]] & _); rewrite H; auto.
Qed.

(** C1.  For every neutron state with [r = y[1] > 0], [derivs] returns the
    velocities and the accelerations
    [r phi'^2 + mumB d|B|/dr], [mumB d|B|/dz - g] and
    [-2 r' phi'/r + mumB (1/r^2) d|B|/dphi], the gradient of [|B|] being the
    one [BFeld] returns at the point; the function tests neither
    [BruteForce] nor the polarisation.  The coefficient is the global
    [mumB], which is [mu_n / M] with [mu_n = hfs mu_nSI/ele_e] and [hfs] one
    of -1, +1, 0 in the spin state the program sets: then the accelerations
    are those of [(mu_n/M) grad |B| - g], with the sign of [hfs].  That
    state holds for the globals of the start of the program ([hfs = 0]);
    the start of a particle keeps it and, in brute-force mode, sets [hfs]
    to -1, +1 or 0 after the polarisation; a spin flip and [derivs] keep
    it. *)
Theorem derivs_neutron_force (g : Globals) (x : R) (y dydx : Z -> R) :
  protneut (cfg g) = NEUTRON ->
  0 < y.[1] ->
  let s := spin g in
  let F := BFeld y.[1] y.[5] y.[3] x in
  let res := derivs x y dydx g in
  let d := res.2 in
  (d.[1] = y.[2] /\ d.[3] = y.[4] /\ d.[5] = y.[6]
   /\ d.[2] = y.[1] * y.[6] ^ 2 + mumB s * dBdr F
   /\ d.[4] = mumB s * dBdz F - gravconst
   /\ d.[6] = - 2 * y.[2] * y.[6] / y.[1] + mumB s * (1 / y.[1] ^ 2) * dBdphi F)
  /\ (spin_set (cfg g) s ->
      d.[2] = y.[1] * y.[6] ^ 2 + mu_n s / M (cfg g) * dBdr F
      /\ d.[4] = mu_n s / M (cfg g) * dBdz F - gravconst
      /\ d.[6] = - 2 * y.[2] * y.[6] / y.[1]
                 + mu_n s / M (cfg g) * (1 / y.[1] ^ 2) * dBdphi F
      /\ mu_n s = IZR (hfs s) * (mu_nSI / ele_e)
      /\ 0 < mu_nSI / ele_e
      /\ (hfs s = (-1)%Z \/ hfs s = 1%Z \/ hfs s = 0%Z)
      /\ spin_set (cfg res.1) (spin res.1))
  /\ (forall c nsf, spin_set c (mkSpin 0 0 0 nsf))
  /\ (forall h, spin_set (cfg h) (spin h) ->
        spin_set (cfg (IntegrateParticle_spin h)) (spin (IntegrateParticle_spin h))
        /\ spin_set (cfg (BruteForceIntegration h)) (spin (BruteForceIntegration h)))
  /\ (forall h, protneut (cfg h) = NEUTRON -> truthy (BruteForce (cfg h)) = true ->
        (forall c, polarisation (cfg h) <> POLARISATION_OTHER c) ->
        let h1 := IntegrateParticle_spin h in
        spin_set (cfg h1) (spin h1)
        /\ match polarisation (cfg h) with
           | POLARISATION_GOOD => hfs (spin h1) = (-1)%Z
           | POLARISATION_BAD => hfs (spin h1) = 1%Z
           | _ => hfs (spin h1) = 0%Z
           end).
Proof.
  intros Hn Hr s F res d.
  assert (Hd : d.[1] = y.[2] /\ d.[3] = y.[4] /\ d.[5] = y.[6]
               /\ d.[2] = y.[1] * y.[6] ^ 2 + mumB s * dBdr F
               /\ d.[4] = mumB s * dBdz F - gravconst
               /\ d.[6] = - 2 * y.[2] * y.[6] / y.[1]
                          + mumB s * (1 / y.[1] ^ 2) * dBdphi F).
  { subst d res. unfold derivs. cbn. rewrite ?Hn. cbn. rewrite ?Hn. cbn.
    fold s F. generalize (mumB s). intros k.
    repeat split; try reflexivity; try (unfold Rdiv; ring).
    field. lra. }
  assert (Hres : cfg res.1 = cfg g /\ spin res.1 = spin g).
  { subst res. unfold derivs. cbn. rewrite ?Hn. cbn. rewrite ?Hn. cbn. split; reflexivity. }
  split; [exact Hd|]. split; [|split; [|split]].
  - intros (Hh & Hmu & Hm). fold s in Hh, Hmu, Hm.
    destruct Hd as (_ & _ & _ & H2 & H4 & H6). rewrite <- Hm.
    split; [exact H2|]. split; [exact H4|]. split; [exact H6|].
    split; [exact Hmu|]. split; [unfold mu_nSI, ele_e; lra|]. split; [exact Hh|].
    destruct Hres as [-> ->]. fold s. repeat split; assumption.
  - intros c nsf. unfold spin_set. cbn. split; [auto|]. split; [ring|]. unfold Rdiv. ring.
  - intros h Hs. split.
    + apply (proj1 (proj2 (IntegrateParticle_spin_set h))), Hs.
    + apply (proj2 (BruteForceIntegration_spin_set h)), Hs.
  - intros h Hk Hbf Hpol h1. apply (proj2 (proj2 (IntegrateParticle_spin_set h))); assumption.
Qed.

(** *** Properties of the output files *)

(** The number of lines of the open track file. *)
Definition track_lines (g : Globals) : Z := Z.of_nat (length (OUTFILE1 (files g)).2).

(** What the output of the track keeps, and how it counts: every row
    written is counted in [Zeilencount]. *)
Definition track_counted (rows : Z) (g g' : Globals) : Prop :=
  cfg g' = cfg g /\ dense g' = dense g /\ part g' = part g
  /\ BFLOG (files g') = BFLOG (files g) /\ ENDLOG (files g') = ENDLOG (files g)
  /\ closed (files g') = closed (files g)
  /\ BFZeilencount (files g') = BFZeilencount (files g)
  /\ BFFilecount (files g') = BFFilecount (files g)
  /\ Filecount (trk g') = Filecount (trk g)
  /\ (OUTFILE1 (files g')).1 = (OUTFILE1 (files g)).1
  /\ (Zeilencount (trk g) <= Zeilencount (trk g') <= Zeilencount (trk g) + rows)%Z
  /\ (track_lines g' - Zeilencount (trk g') = track_lines g - Zeilencount (trk g))%Z.

Lemma track_counted_refl g : track_counted 0 g g.
Proof. unfold track_counted. repeat split; lia. Qed.

Lemma track_counted_more n n' g g' :
  (n <= n')%Z -> track_counted n g g' -> track_counted n' g g'.
Proof.
  unfold track_counted. intros Hn H.
  repeat match goal with H : _ /\ _ |- _ => destruct H end.
  repeat split; try assumption; lia.
Qed.

Lemma track_dense_counted n k g g' :
  track_counted n g g' -> track_counted (n + 1) g (track_dense k g').
Proof.
  unfold track_counted, track_dense, track_lines. intros H.
  repeat match goal with H : _ /\ _ |- _ => destruct H end.
  destruct (Rgeb _ _); [|repeat split; try assumption; lia].
  destruct (update_logs g' (trk g')) as [lv lf]. cbn.
  unfold track_lines in *.
  rewrite length_app. cbn.
  repeat split; try assumption; lia.
Qed.

Lemma track_point_counted g : track_counted 1 g (track_point g).
Proof.
  unfold track_counted, track_point, track_lines.
  destruct (Rgeb _ _); [|repeat split; lia].
  destruct (update_logs _ _) as [lv lf]. cbn.
  rewrite length_app. cbn.
  repeat split; lia.
Qed.

(** Lines 982-1039 write at most [kount - 1] rows, or one. *)
Lemma track_output_counted g :
  track_counted (Z.max 1 (kount (dense g) - 1)) g (track_output g).
Proof.
  unfold track_output.
  destruct (_ && Rgeb _ _).
  - destruct (Z_lt_le_dec (kount (dense g)) 2) as [Hlt | Hge].
    + rewrite for_loop_empty by lia.
      apply (track_counted_more 0); [lia | apply track_counted_refl].
    + apply (track_counted_more (kount (dense g) + 1 - 2)); [lia|].
      apply (for_loop_ind (fun j t => track_counted (j - 2) g t)); [lia | |].
      * replace (2 - 2)%Z with 0%Z by lia. apply track_counted_refl.
      * intros j t Hj Ht. replace (j + 1 - 2)%Z with (j - 2 + 1)%Z by lia.
        now apply track_dense_counted.
  - destruct (_ && Rltb _ _).
    + apply (track_counted_more 1); [lia | apply track_point_counted].
    + apply (track_counted_more 0); [lia | apply track_counted_refl].
Qed.

(** [BruteForceIntegration] leaves the track and its file alone, and it
    writes no row unless it integrates. *)
Lemma BruteForceIntegration_files g :
  let g' := BruteForceIntegration g in
  cfg g' = cfg g /\ dense g' = dense g /\ part g' = part g /\ trk g' = trk g
  /\ OUTFILE1 (files g') = OUTFILE1 (files g) /\ ENDLOG (files g') = ENDLOG (files g)
  /\ closed (files g') = closed (files g)
  /\ BFFilecount (files g') = BFFilecount (files g)
  /\ (BFLOG (files g')).1 = (BFLOG (files g)).1
  /\ (BF_integrates (BF_filled g) = false -> files g' = files g).
Proof.
  intros g'. subst g'. unfold BruteForceIntegration. fold (BF_filled g).
  destruct (BF_filled_spec g) as (Hc & Hd & Hp & Hf & _).
  assert (Ht : trk (BF_filled g) = trk g).
  { unfold BF_filled, BF_buffer, BF_firstint, BF_polarisation, BF_threshold. cbn.
    repeat (match goal with |- context [if ?c then _ else _] => destruct c end; cbn);
      reflexivity. }
  destruct (BF_integrates (BF_filled g)) eqn:Hi.
  - unfold BF_integrate. rewrite Hi.
    destruct (BF_call _) as [I o]. cbn.
    destruct (_ || _)%bool.
    + match goal with |- context [for_loop 2 ?n ?body ?g0] =>
        pose proof (BF_write_loop_kept o n g0) as Hk; set (gl := for_loop 2 n body g0) in *
      end.
      unfold BF_write_kept in Hk. cbn in Hk.
      destruct Hk as (K1 & K2 & K3 & _ & _ & _ & K7 & _ & _ & _ & _ & _ & _ & _
                      & K15 & K16 & K17 & K18 & K19).
      cbn. rewrite K1, K2, K3, K7, K15, K16, K17, K18, K19, Hc, Hd, Hp, Ht, Hf.
      repeat split; discriminate.
    + cbn. rewrite Hc, Hd, Hp, Ht, Hf. repeat split; discriminate.
  - rewrite BF_integrate_skip by exact Hi.
    rewrite Hc, Hd, Hp, Ht, Hf. repeat split.
Qed.

(** The state in which the two tests of the counters are reached (line
    1041). *)
Definition loop_written (g : Globals) : Globals :=
  let g := save_time g in
  track_output (if truthy (BruteForce (cfg g)) then BruteForceIntegration g else g).

Lemma loop_output_unfold g : loop_output g = BF_rollover (track_rollover (loop_written g)).
Proof. reflexivity. Qed.

Lemma loop_written_spec g :
  let go := loop_written g in
  cfg go = cfg g
  /\ closed (files go) = closed (files g) /\ ENDLOG (files go) = ENDLOG (files g)
  /\ BFFilecount (files go) = BFFilecount (files g)
  /\ Filecount (trk go) = Filecount (trk g)
  /\ (OUTFILE1 (files go)).1 = (OUTFILE1 (files g)).1
  /\ (Zeilencount (trk g) <= Zeilencount (trk go)
      <= Zeilencount (trk g) + Z.max 1 (kount (dense g) - 1))%Z
  /\ (track_lines go - Zeilencount (trk go) = track_lines g - Zeilencount (trk g))%Z
  /\ (truthy (BruteForce (cfg g)) = false \/ BF_integrates (BF_filled (save_time g)) = false ->
      BFLOG (files go) = BFLOG (files g)
      /\ BFZeilencount (files go) = BFZeilencount (files g)).
Proof.
  intros go. subst go. unfold loop_written.
  set (gs := save_time g).
  assert (Hs : cfg gs = cfg g /\ dense gs = dense g /\ files gs = files g
               /\ Zeilencount (trk gs) = Zeilencount (trk g)
               /\ Filecount (trk gs) = Filecount (trk g)) by (cbn; repeat split).
  destruct Hs as (Sc & Sd & Sf & Sz & Sn).
  set (gb := if truthy (BruteForce (cfg gs)) then BruteForceIntegration gs else gs).
  assert (Hb : cfg gb = cfg g /\ dense gb = dense g /\ trk gb = trk gs
               /\ OUTFILE1 (files gb) = OUTFILE1 (files g)
               /\ ENDLOG (files gb) = ENDLOG (files g)
               /\ closed (files gb) = closed (files g)
               /\ BFFilecount (files gb) = BFFilecount (files g)
               /\ (truthy (BruteForce (cfg g)) = false
                   \/ BF_integrates (BF_filled gs) = false -> files gb = files g)).
  { subst gb. rewrite Sc. destruct (truthy (BruteForce (cfg g))) eqn:Hbf.
    - destruct (BruteForceIntegration_files gs)
        as (B1 & B2 & _ & B4 & B5 & B6 & B7 & B8 & _ & B10).
      rewrite B1, B2, B4, B5, B6, B7, B8, Sc, Sd, Sf. repeat split.
      intros [Hbad | Hi]; [discriminate|]. rewrite B10 by exact Hi. exact Sf.
    - rewrite Sc, Sd, Sf. repeat split. }
  destruct Hb as (Bc & Bd & Bt & Bo & Be & Bcl & Bfc & Bfiles).
  pose proof (track_output_counted gb) as Ho. unfold track_counted in Ho.
  destruct Ho as (O1 & _ & _ & O4 & O5 & O6 & O7 & O8 & O9 & O10 & O11 & O12).
  assert (Hlines : track_lines gb = track_lines g) by (unfold track_lines; now rewrite Bo).
  rewrite Bd, Bt, Sz in O11. rewrite Bt, Sz, Hlines in O12. rewrite Bt, Sn in O9.
  rewrite O1, O5, O6, O8, O9, O10, Bc, Be, Bcl, Bfc, Bo.
  repeat split; try lia.
  - rewrite O4. now rewrite (Bfiles H).
  - rewrite O7. now rewrite (Bfiles H).
Qed.


(** *** Properties of the start of [IntegrateParticle] *)

(** What lines 698-788 keep: the configuration, the files, the counter of
    the calls of the integrator, the track and the state vector. *)
Definition start_kept (g g' : Globals) : Prop :=
  cfg g' = cfg g /\ files g' = files g /\ nintcalls g' = nintcalls g
  /\ trk g' = trk g /\ ystart g' = ystart g /\ dense g' = dense g.

Lemma MC_start_loop_kept fuel g g' :
  MC_start_loop fuel g = Some g' -> start_kept g g'.
Proof.
  revert g. induction fuel as [|fuel IH]; intros g; simpl; [discriminate|].
  assert (Hcall : start_kept g (call_MCStartwerte g)).
  { unfold call_MCStartwerte.
    destruct (MCStartwerte _ _) as [[sc [xs xe]] mt]. cbn. unfold start_kept. repeat split. }
  destruct (_ =? 1)%Z.
  - intros H. apply IH in H. unfold start_kept in *.
    repeat match goal with H : _ /\ _ |- _ => destruct H end.
    repeat split; congruence.
  - intros [= <-]. exact Hcall.
Qed.

Lemma start_kept_trans a b c : start_kept a b -> start_kept b c -> start_kept a c.
Proof.
  unfold start_kept. intros Hab Hbc.
  repeat match goal with H : _ /\ _ |- _ => destruct H end.
  repeat split; congruence.
Qed.

Lemma IntegrateParticle_reset_kept g : start_kept g (IntegrateParticle_reset g).
Proof. unfold start_kept. repeat split. Qed.

Lemma IntegrateParticle_spin_kept g : start_kept g (IntegrateParticle_spin g).
Proof.
  unfold IntegrateParticle_spin, start_kept. cbn.
  destruct (truthy (BruteForce (cfg g))); cbn; [|repeat split].
  destruct (is_NEUTRON (protneut (cfg g))); cbn; [|repeat split].
  destruct (polarisation (cfg g)); cbn; repeat split.
Qed.

Lemma IntegrateParticle_counters_kept g : start_kept g (IntegrateParticle_counters g).
Proof. unfold start_kept. repeat split. Qed.

Lemma IntegrateParticle_MCstart_kept fuel g g' :
  IntegrateParticle_MCstart fuel g = Some g' -> start_kept g g'.
Proof.
  unfold IntegrateParticle_MCstart.
  destruct (MonteCarlo (cfg g) =? 1)%Z.
  - destruct (MC_start_loop fuel g) as [g1|] eqn:Hl; [|discriminate].
    apply MC_start_loop_kept in Hl. intros [= <-].
    apply (start_kept_trans _ _ _ Hl). unfold start_kept. repeat split.
  - intros [= <-]. unfold start_kept. repeat split.
Qed.

Lemma IntegrateParticle_start_kept fuel g g' :
  IntegrateParticle_start fuel g = Some g' -> start_kept g g'.
Proof.
  unfold IntegrateParticle_start.
  pose proof (IntegrateParticle_reset_kept g) as Hr.
  revert Hr. generalize (IntegrateParticle_reset g). intros g0 Hr.
  destruct (IntegrateParticle_MCstart fuel g0) as [g1|] eqn:H1; [|discriminate].
  apply IntegrateParticle_MCstart_kept in H1.
  pose proof (IntegrateParticle_spin_kept g1) as Hs.
  revert Hs. generalize (IntegrateParticle_spin g1). intros g2 Hs.
  unfold IntegrateParticle_startfile.
  destruct (MonteCarlo (cfg g2) =? 2)%Z; [discriminate|].
  intros [= <-].
  apply (start_kept_trans _ _ _ Hr). apply (start_kept_trans _ _ _ H1).
  apply (start_kept_trans _ _ _ Hs). apply IntegrateParticle_counters_kept.
Qed.

(** Lines 790-827 for a neutron of negative kinetic energy, and for the
    others. *)
Lemma IntegrateParticle_neutron_stops g :
  protneut (cfg g) = NEUTRON ->
  start_Ekin g < 0 ->
  IntegrateParticle_neutron g = (neutron_stopped (start_Ekin g) (neutron_field g), true).
Proof.
  intros Hn Hneg. unfold IntegrateParticle_neutron. rewrite Hn. cbv zeta.
  change (is_NEUTRON NEUTRON) with true. cbv iota.
  unfold Rgeb. rewrite Rleb_false by lra. reflexivity.
Qed.

Lemma IntegrateParticle_neutron_starts g :
  protneut (cfg g) = NEUTRON ->
  0 <= start_Ekin g ->
  IntegrateParticle_neutron g = (neutron_started (start_Ekin g) (neutron_field g), false).
Proof.
  intros Hn Hpos. unfold IntegrateParticle_neutron. rewrite Hn. cbv zeta.
  change (is_NEUTRON NEUTRON) with true. cbv iota.
  unfold Rgeb. rewrite Rleb_true by lra. reflexivity.
Qed.

Lemma neutron_stopped_spec ekin g :
  let g' := neutron_stopped ekin (neutron_field g) in
  let sc := scan g in
  Ekin (part g') = ekin /\ v_n (part g') = 0 /\ stopall (part g') = 1%Z
  /\ ausgabewunsch (part g') = 5%Z
  /\ cfg g' = cfg g /\ files g' = files g /\ nintcalls g' = nintcalls g
  /\ (truthy (MonteCarlo (cfg g)) = true ->
      scan g' = mkScan (EnergieE sc + 1) (r_ne sc + 1) (z_ne sc + 1) (alphae sc + 1)
                  (gammae sc + 1) (phi_n sc) (EnergieE sc) (r_ne sc) (z_ne sc) (alphae sc)
                  (gammae sc) (phie sc) (dphi sc))
  /\ (truthy (MonteCarlo (cfg g)) = false -> scan g' = sc).
Proof.
  assert (H00 : 0.0 = 0) by lra.
  unfold neutron_stopped, neutron_field. cbn.
  destruct (truthy (MonteCarlo (cfg g))) eqn:Hmc; cbn;
    repeat split; try discriminate; try exact H00.
Qed.

(** C10 (what the program does).  For a neutron whose kinetic energy at the
    start, [Energie - M g z_n + mu_n |B|], is negative, [IntegrateParticle]
    returns from line 825: the speed is 0, [stopall] is 1, no row has been
    written to the end log, the track or the spin log (the message of line
    809 goes to the console and to [LOGSCR]) and the integrator has not been
    called.  In a Monte Carlo run it has put [Energie], [r_n], [z_n],
    [alpha] and [gammaa] behind their end values, but not [phi_n], which
    keeps its value: the innermost loop of the scan goes on when
    [phi_n + dphi <= phie].  (At the end of a tracked particle, line 1168,
    [phi_n] is put behind [phie] too.) *)
Theorem IntegrateParticle_negative_Ekin (fuel : nat) (g gs : Globals) :
  IntegrateParticle_start fuel g = Some gs ->
  protneut (cfg g) = NEUTRON ->
  start_Ekin gs < 0 ->
  let sc := scan gs in
  exists g',
    IntegrateParticle fuel g = Some g'
    /\ Ekin (part g') = start_Ekin gs /\ v_n (part g') = 0 /\ stopall (part g') = 1%Z
    /\ ausgabewunsch (part g') = 5%Z
    /\ files g' = files g /\ nintcalls g' = nintcalls g
    /\ (truthy (MonteCarlo (cfg g)) = true ->
        EnergieE (scan g') < Energie (scan g') /\ r_ne (scan g') < r_n (scan g')
        /\ z_ne (scan g') < z_n (scan g') /\ alphae (scan g') < alpha (scan g')
        /\ gammae (scan g') < gammaa (scan g')
        /\ phi_n (scan g') = phi_n sc /\ phie (scan g') = phie sc
        /\ dphi (scan g') = dphi sc)
    /\ (truthy (MonteCarlo (cfg g)) = false -> scan g' = sc)
    /\ (forall h, truthy (MonteCarlo (cfg h)) = true ->
        phie (scan (IntegrateParticle_MCend h)) < phi_n (scan (IntegrateParticle_MCend h))).
Proof.
  intros Hstart Hn Hneg sc.
  destruct (IntegrateParticle_start_kept _ _ _ Hstart) as (Kc & Kf & Kn & _).
  assert (Hn' : protneut (cfg gs) = NEUTRON) by (rewrite Kc; exact Hn).
  unfold IntegrateParticle. rewrite Hstart.
  rewrite (IntegrateParticle_neutron_stops gs Hn' Hneg).
  destruct (neutron_stopped_spec (start_Ekin gs) gs)
    as (R2 & R3 & R4 & R5 & R6 & R7 & R8 & R9 & R10).
  eexists. split; [reflexivity|].
  rewrite R7, R8, Kf, Kn. rewrite Kc in R9, R10.
  do 6 (split; [assumption || reflexivity|]).
  split; [|split].
  - intros Hmc. rewrite (R9 Hmc). cbn. repeat split; lra.
  - intros Hmc. rewrite (R10 Hmc). reflexivity.
  - intros h Hh. unfold IntegrateParticle_MCend. rewrite Hh. cbn. lra.
Qed.

(** A round of the innermost loop of the scan. *)
Lemma phi_loop_round fuel calls g :
  phi_loop (S fuel) calls g
  = if Rleb (phi_n (scan g)) (phie (scan g))
    then match IntegrateParticle fuel g with
         | None => None
         | Some g' => phi_loop fuel (S calls) (next_angle g')
         end
    else Some (g, calls).
Proof. reflexivity. Qed.

Lemma neutron_started_keeps ekin g :
  cfg (neutron_started ekin (neutron_field g)) = cfg g
  /\ scan (neutron_started ekin (neutron_field g)) = scan g.
Proof. destruct g. split; reflexivity. Qed.

(** The scan variables after a particle tracked to its end in a Monte Carlo
    run. *)
Lemma tracked_to_end_scan ekin g :
  truthy (MonteCarlo (cfg g)) = true ->
  cfg (IntegrateParticle_track (neutron_started ekin (neutron_field g))) = cfg g ->
  scan (IntegrateParticle_track (neutron_started ekin (neutron_field g))) = scan g ->
  let g' := IntegrateParticle_MCend
              (IntegrateParticle_track (neutron_started ekin (neutron_field g))) in
  phi_n (scan g') = phie (scan g) + 1 /\ phie (scan g') = phie (scan g)
  /\ dphi (scan g') = dphi (scan g).
Proof.
  intros Hmc Hc Hs. unfold IntegrateParticle_MCend. rewrite Hc, Hmc, Hs. cbn. repeat split.
Qed.

(** *** The seed *)

(** Adding the job number modulo [2^64] loses nothing of the time. *)
Lemma seed_injective (j a b : Z) :
  (0 <= a < ULONG)%Z -> (0 <= b < ULONG)%Z ->
  ((a + j) mod ULONG = (b + j) mod ULONG)%Z -> a = b.
Proof.
  unfold ULONG. intros Ha Hb Heq.
  assert (Hd : ((a - b) mod 2 ^ 64 = 0)%Z).
  { replace (a - b)%Z with ((a + j) - (b + j))%Z by lia.
    rewrite Zminus_mod, Heq, Z.sub_diag. reflexivity. }
  apply Z.mod_divide in Hd; [|lia]. destruct Hd as [q Hq]. nia.
Qed.

(** The seed of [main] is the sum of the time and of the job number, and
    the job number and the paths come from the command line alone. *)
Lemma main_spec (argv : list string) (t : Z) :
  let s := main argv t in
  start_seed s = ((t mod ULONG + start_jobnumber s) mod ULONG)%Z
  /\ start_mt s = mt_set (start_seed s)
  /\ start_jobnumber s = start_jobnumber (main argv 0)
  /\ start_inpath s = start_inpath (main argv 0)
  /\ start_outpath s = start_outpath (main argv 0).
Proof.
  unfold main.
  destruct (_ >? 3)%Z; [|destruct (_ >? 2)%Z; [|destruct (_ =? 2)%Z]]; cbn -[Z.modulo ULONG];
    repeat split.
Qed.

(** [main] seeds the Mersenne twister with the time of the start plus the
    job number, as an [unsigned long]: two runs of the same command line
    have the same seed exactly when they start in the same second. *)
Lemma main_seed (argv : list string) (t1 t2 : Z) :
  (0 <= t1 < ULONG)%Z -> (0 <= t2 < ULONG)%Z ->
  let s1 := main argv t1 in
  let s2 := main argv t2 in
  start_seed s1 = ((t1 + start_jobnumber s1) mod ULONG)%Z
  /\ start_mt s1 = mt_set (start_seed s1)
  /\ start_jobnumber s2 = start_jobnumber s1
  /\ start_inpath s2 = start_inpath s1 /\ start_outpath s2 = start_outpath s1
  /\ (start_seed s1 = start_seed s2 <-> t1 = t2).
Proof.
  intros H1 H2 s1 s2.
  destruct (main_spec argv t1) as (A1 & A2 & A3 & A4 & A5).
  destruct (main_spec argv t2) as (B1 & B2 & B3 & B4 & B5).
  fold s1 in A1, A2, A3, A4, A5. fold s2 in B1, B2, B3, B4, B5.
  rewrite (Z.mod_small t1) in A1 by exact H1.
  rewrite (Z.mod_small t2) in B1 by exact H2.
  split; [exact A1|]. split; [exact A2|].
  split; [congruence|]. split; [congruence|]. split; [congruence|].
  split.
  - intros Heq. rewrite A1, B1, B3, <- A3 in Heq.
    now apply (seed_injective (start_jobnumber s1)).
  - intros ->. reflexivity.
Qed.

(** [main] reads the three first arguments and no other: it has no seed
    among them. *)
Lemma main_firstn (argv : list string) (t : Z) : main (firstn 4 argv) t = main argv t.
Proof.
  destruct argv as [|a0 [|a1 [|a2 [|a3 rest]]]]; try reflexivity.
  unfold main. cbn [firstn nth].
  assert (H4 : (3 < Z.of_nat (length [a0; a1; a2; a3]))%Z) by (cbn; lia).
  assert (Hl : (3 < Z.of_nat (length (a0 :: a1 :: a2 :: a3 :: rest)))%Z)
    by (cbn [length]; lia).
  revert H4 Hl.
  generalize (Z.of_nat (length [a0; a1; a2; a3])).
  generalize (Z.of_nat (length (a0 :: a1 :: a2 :: a3 :: rest))).
  intros n m Hm Hn.
  replace (m >? 3)%Z with true by lia. replace (n >? 3)%Z with true by lia.
  reflexivity.
Qed.

(** [BruteForceIntegration] takes its random numbers from the state of the
    twister it finds, two of them or none, and leaves the sequence of the
    numbers as it is: it does not seed the twister. *)
Lemma BruteForceIntegration_stream g :
  let g5 := BruteForceIntegration g in
  let mt := v_mt_state g in
  mt_out (v_mt_state g5) = mt_out mt
  /\ (mt_pos (v_mt_state g5) = mt_pos mt \/ mt_pos (v_mt_state g5) = S (S (mt_pos mt))).
Proof.
  intros g5 mt.
  destruct (BruteForceIntegration_polarisation g) as (_ & _ & _ & Hmt).
  fold g5 mt in Hmt. rewrite Hmt.
  destruct (_ && _); cbn; split; auto.
Qed.

End Program.

(** *** The globals at the start of the program and runs on them *)

Definition zero : Z -> R := fun _ => 0.
Definition zero2 : Z -> Z -> R := fun _ _ => 0.

(** The values of the initialisers of lines 10-217; a global without an
    initialiser is zero.  The files are those [main] opens for the job. *)
Definition initial (c : Config) (mt : mt_state_t) : Globals :=
  mkGlobals c
    (mkSpin 0 0 0 0)
    (mkFelder 0 0 0 0 0 0 0 0 0 0 0 0 0 0 0 0)
    (mkEFelder 0 0 0)
    Qm0_init
    (mkScan 0 0 0 0 0 0 0 0 0 0 0 0 0)
    (mkPart 0 0 0.0 0 0 0 0 0 0 0 5)
    (mkDiag 1.0 0.0 0.0 0.0 1.0 0.0 0 0 0 0 0)
    (mkBF 10.0 false 1 0 zero zero2 zero 0 0 1.0 0.0 zero)
    (mkBFOut 0 zero zero2 zero2)
    (mkDense 0 zero zero2 zero2 zero2)
    (mkTrack 0 1 0 0 5.0e-7 0 0 0.0 0 0 0)
    (mkFiles (fopen_w (TrackFile (outpath c) (jobnumber c) 1))
       (fopen_w (BFFile (outpath c) (jobnumber c) 1))
       (fopen_w (EndFile (outpath c) (jobnumber c))) [] 0 1)
    mt 0 0 zero 0.

(** A configuration: neutrons of the good polarisation, brute-force spin
    tracking with spin flips, a Monte Carlo run. *)
Definition neutrons : Config :=
  mkConfig NEUTRON m_n 1 1 1 POLARISATION_GOOD 0.1 0 1 5 5e-5 0 1 "./out" 0.

Definition protons : Config :=
  mkConfig PROTON m_p 0 1 0 POLARISATION_NONE 0.1 0 1 5 1e-8 0 1 "./out" 0.

(** A field-free region, a particle that never leaves, Cartesian components
    taken as they are, and a twister that returns 0.3 for ever. *)
Definition no_BFeld : R -> R -> R -> R -> Felder :=
  fun _ _ _ _ => mkFelder 0 0 0 0 0 0 0 0 0 0 0 0 0 0 0 0.
Definition no_EFeld : R -> R -> R -> EFelder := fun _ _ _ => mkEFelder 0 0 0.
Definition stays : (Z -> R) -> R -> R -> Z * Z -> Z * Z := fun _ _ _ sk => sk.
Definition as_they_are : R -> R -> R -> R -> R * R * R := fun a b c _ => (a, b, c).
Definition mt_03 : mt_state_t := mkMT (fun _ => 0.3) 0.

(** A state vector at [r = 1] with the velocities [(2, 3, 4)]. *)
Definition y_example : Z -> R :=
  fun i => if (i =? 1)%Z then 1 else if (i =? 2)%Z then 2
           else if (i =? 4)%Z then 3 else if (i =? 6)%Z then 4 else 0.

Lemma derivs_Lorentz_force_witness :
  let res := derivs no_BFeld no_EFeld stays 0 y_example zero (initial protons mt_03) in
  protneut protons = PROTON /\ Qm0 res.1 = 1 / m_p /\ res.2 2%Z = 16 /\ res.2 4%Z = 0.
Proof.
  intros res.
  destruct (derivs_Lorentz_force no_BFeld no_EFeld stays (initial protons mt_03) 0
              y_example zero (or_introl eq_refl))
    as (Hq & _ & Hinit & _ & H2 & _ & H4 & _).
  fold res in Hq, H2, H4.
  split; [reflexivity|]. split; [rewrite (Hq eq_refl); exact Hinit|].
  rewrite H2, H4. cbn. split; lra.
Defined.

(** **** A step out of a region of low field *)

(** The values saved of a step: one value, with [|B|] = 0.2 T. *)
Definition one_sample : Dense :=
  mkDense 1 zero zero2 (fun c k => if ((c =? 13) && (k =? 1))%Z then 0.2 else 0) zero2.

(** An integrator that returns the spin [(0, 0, p)] in the field
    [(0, 0, 1)], with one saved value. *)
Definition spin_along (p : R) :
  (Z -> R) -> Z -> R -> R -> R -> R -> R -> Z * (Z -> R) * (Z -> Z -> R) -> (Z -> R) * BFOut :=
  fun _ _ _ _ _ _ _ _ =>
    (fun i => if (i =? 3)%Z then p else 0,
     mkBFOut 1 zero
       (fun c k => if ((c =? 3) && (k =? 1))%Z then p else 0)
       (fun c k => if ((c =? 3) && (k =? 1))%Z then 1 else 0)).

(** A field with the gradient [(1, 2, 3)] of its modulus. *)
Definition gradient_BFeld : R -> R -> R -> R -> Felder :=
  fun _ _ _ _ => mkFelder 0 0 1 1 1 2 3 0 0 0 0 0 0 0 0 0.

(** A neutron of the good polarisation ([hfs = -1]) in that field, and a
    neutron outside brute-force mode, with the spin state of the start of
    the program ([hfs = 0]), which feels gravity alone. *)
Lemma derivs_neutron_force_witness :
  let g1 := IntegrateParticle_spin (initial neutrons mt_03) in
  let d := (derivs gradient_BFeld no_EFeld stays 0 y_example zero g1).2 in
  let k := mu_nSI / ele_e / m_n in
  let g0 := initial (mkConfig NEUTRON m_n 0 1 0 POLARISATION_GOOD 0.1 0 1 1 5e-5 0 1 "./out" 0)
              mt_03 in
  let d0 := (derivs gradient_BFeld no_EFeld stays 0 y_example zero g0).2 in
  (protneut (cfg g1) = NEUTRON /\ 0 < y_example 1%Z /\ hfs (spin g1) = (-1)%Z
   /\ d 2%Z = 16 - k * 1 /\ d 4%Z = - k * 2 - gravconst /\ d 6%Z = - 16 - k * 3)
  /\ (truthy (BruteForce (cfg g0)) = false /\ hfs (spin g0) = 0%Z
      /\ d0 2%Z = 16 /\ d0 4%Z = - gravconst /\ d0 6%Z = - 16).
Proof.
  intros g1 d k g0 d0.
  assert (Hr : 0 < y_example 1%Z) by (cbn; lra).
  assert (Hn1 : protneut (cfg g1) = NEUTRON) by reflexivity.
  assert (Hn0 : protneut (cfg g0) = NEUTRON) by reflexivity.
  pose proof (derivs_neutron_force gradient_BFeld no_EFeld stays as_they_are
                (spin_along 0.5) 3 4 g1 0 y_example zero Hn1 Hr) as T1.
  pose proof (derivs_neutron_force gradient_BFeld no_EFeld stays as_they_are
                (spin_along 0.5) 3 4 g0 0 y_example zero Hn0 Hr) as T0.
  cbv zeta in T1, T0.
  destruct T1 as (_ & S1 & _ & _ & E1).
  destruct T0 as (_ & S0 & I0 & _).
  assert (Hs1 : spin_set (cfg g1) (spin g1)).
  { apply (E1 (initial neutrons mt_03)); [reflexivity | reflexivity |].
    intros c. cbn. discriminate. }
  destruct (S1 Hs1) as (A2 & A4 & A6 & Amu & _ & _).
  destruct (S0 (I0 (cfg g0) 0%Z)) as (B2 & B4 & B6 & _).
  fold d in A2, A4, A6. fold d0 in B2, B4, B6.
  assert (Hh : hfs (spin g1) = (-1)%Z) by reflexivity.
  assert (Hm : mu_n (spin g1) / M (cfg g1) = - k).
  { rewrite Amu, Hh. subst k. change (M (cfg g1)) with m_n. unfold Rdiv. ring. }
  split.
  - split; [exact Hn1|]. split; [exact Hr|]. split; [exact Hh|].
    rewrite A2, A4, A6, Hm. cbn. repeat split; lra.
  - split; [reflexivity|]. split; [reflexivity|].
    rewrite B2, B4, B6. cbn. repeat split; lra.
Defined.

(** The state of a particle started in brute-force mode, with the smallest
    [|B|] of the last step [bmin] and [n] values in the buffer. *)
Definition tracked (bmin : R) (n : Z) (d : Dense) : Globals :=
  let g := IntegrateParticle_spin (IntegrateParticle_reset (initial neutrons mt_03)) in
  let b := bf g in
  mkGlobals (cfg g) (spin g) (fld g) (efld g) (Qm0 g) (scan g) (part g) (diag g)
    (mkBF bmin (BFPolmin b) (firstint b) n (BFtime b) (BFField b) (I_n b) (BFpol b)
       (BFlogpol b) (BFsurvprob b) (BFflipprob b) (BFBws b))
    (bfout g) d (trk g) (files g) (v_mt_state g) (rando g) (dxsav g) (ystart g)
    (nintcalls g).

Lemma step_BFBmin_one_sample : step_BFBmin one_sample = 0.2.
Proof.
  unfold step_BFBmin, for_loop.
  change (Z.to_nat (kount one_sample + 1 - 1)) with 1%nat.
  cbn -[Rltb]. rewrite Rltb_true by lra. reflexivity.
Qed.

Lemma projection_spin_along p a b c d e f h i :
  let o := (spin_along p a b c d e f h i).2 in
  projection o (BFkount o) = p.
Proof.
  unfold projection. cbn.
  replace (0 * (0 * 1) + 0 * (0 * 1) + 1 * (1 * 1)) with 1 by ring.
  rewrite sqrt_1. field.
Qed.

(** The call on a step that has left the region of low field, with ten
    values in the buffer: it integrates. *)
Lemma leaving_integrates p n :
  (10 <= n)%Z ->
  let g := tracked 0.05 n one_sample in
  let g5 := BruteForceIntegration as_they_are (spin_along p) 3 4 g in
  BF_left_low_field g = true
  /\ BF_integrates (BF_filled as_they_are g) = true
  /\ BFpol (bf g5) = p
  /\ cfg g5 = cfg g /\ dense g5 = dense g /\ BFBmin (bf g5) = 0.2
  /\ BFpol (bf g) = 0.5 /\ BFsurvprob (bf g) = 1.0.
Proof.
  intros Hn g g5.
  assert (HL : BF_left_low_field g = true).
  { unfold BF_left_low_field. cbn -[step_BFBmin Rltb Rleb]. rewrite step_BFBmin_one_sample.
    unfold Rgtb. rewrite !Rltb_true by lra. reflexivity. }
  destruct (BF_filled_spec as_they_are g) as (Fc & Fd & _ & _ & _ & Fm & Fo & _).
  assert (Hi : BF_integrates (BF_filled as_they_are g) = true).
  { unfold BF_integrates. rewrite Fm, Fo, Fc. cbn -[step_BFBmin Rltb Rleb].
    rewrite step_BFBmin_one_sample. rewrite Rltb_false by lra.
    unfold Rgeb. rewrite Rleb_true by lra. cbn. replace (n >=? 10)%Z with true by lia.
    reflexivity. }
  destruct (BF_integrate_effect (spin_along p) 3 4 _ Hi)
    as (_ & _ & Ep & _ & _ & Ec & Ed & _ & _ & _ & Em & _).
  split; [exact HL|]. split; [exact Hi|].
  split.
  { subst g5. unfold BruteForceIntegration. fold (BF_filled as_they_are g).
    rewrite Ep. apply projection_spin_along. }
  split; [subst g5; unfold BruteForceIntegration; fold (BF_filled as_they_are g); congruence|].
  split; [subst g5; unfold BruteForceIntegration; fold (BF_filled as_they_are g); congruence|].
  split.
  { subst g5. unfold BruteForceIntegration. fold (BF_filled as_they_are g).
    rewrite Em, Fm. exact step_BFBmin_one_sample. }
  split; reflexivity.
Qed.

(** C2 as it is stated: a call that integrates multiplies the probability of
    no flip by the projection it has found, brought to [0, 1]. *)
Definition survival_as_stated
    (CylKartCoord : R -> R -> R -> R -> R * R * R)
    (BFodeintrk : (Z -> R) -> Z -> R -> R -> R -> R -> R ->
                  Z * (Z -> R) * (Z -> Z -> R) -> (Z -> R) * BFOut)
    (g : Globals) : Prop :=
  let g5 := BruteForceIntegration CylKartCoord BFodeintrk 3 4 g in
  BF_integrates (BF_filled CylKartCoord g) = true ->
  BFsurvprob (bf g5) = (BFpol (bf g5) + 0.5) * BFsurvprob (bf g).

(** The particle leaves a region of low field with ten values in the buffer
    and the integration finds the projection 0.25.  The call is the one
    that enters lines 1194-1212: it multiplies [BFsurvprob] by
    [BFpol + 0.5 = 1] for the [BFpol = 0.5] of the start of the particle
    and integrates afterwards.  The survival probability stays 1, in this
    call and in the next, instead of becoming 0.75. *)
Lemma survival_not_updated_after_integration :
  let g := tracked 0.05 10 one_sample in
  let g5 := BruteForceIntegration as_they_are (spin_along 0.25) 3 4 g in
  let g6 := BruteForceIntegration as_they_are (spin_along 0.25) 3 4 g5 in
  BF_left_low_field g = true
  /\ BF_integrates (BF_filled as_they_are g) = true
  /\ BFpol (bf g) = 0.5 /\ BFpol (bf g5) = 0.25 /\ BFsurvprob (bf g) = 1
  /\ BFsurvprob (bf g5) = 1 /\ BFsurvprob (bf g6) = 1
  /\ ~ survival_as_stated as_they_are (spin_along 0.25) g.
Proof.
  intros g g5 g6.
  destruct (leaving_integrates 0.25 10 ltac:(lia)) as (HL & Hi & Hp & Hc & Hd & Hm & Hp0 & Hs0).
  fold g in HL, Hi, Hp, Hc, Hd, Hm, Hp0, Hs0. fold g5 in Hp, Hc, Hd, Hm.
  destruct (BruteForce_polarisation_update as_they_are (spin_along 0.25) 3 4 g)
    as (_ & _ & Hsu & _).
  fold g5 in Hsu. rewrite HL, Hp0, Hs0 in Hsu.
  assert (Hs5 : BFsurvprob (bf g5) = 1) by (rewrite Hsu; lra).
  destruct (BruteForce_polarisation_update as_they_are (spin_along 0.25) 3 4 g5)
    as (_ & _ & Hsu6 & _).
  fold g6 in Hsu6.
  assert (HL5 : BF_left_low_field g5 = false).
  { unfold BF_left_low_field. rewrite Hd, Hc, Hm. cbn -[step_BFBmin Rltb Rgtb].
    rewrite (Rltb_false 0.2 0.1) by lra. apply andb_false_r. }
  rewrite HL5 in Hsu6.
  split; [exact HL|]. split; [exact Hi|]. split; [exact Hp0|]. split; [exact Hp|].
  split; [rewrite Hs0; lra|].
  split; [exact Hs5|]. split; [congruence|].
  unfold survival_as_stated. fold g5. intros Hst. specialize (Hst Hi).
  rewrite Hs5, Hp, Hs0 in Hst. lra.
Defined.

(** C3 as it is stated, for a cap of [cap] values: the Bloch equation is
    integrated exactly when the smallest [|B|] of the step is at least
    [BFTargetB] or the buffer is above its cap. *)
Definition integrates_as_stated (cap : Z)
    (CylKartCoord : R -> R -> R -> R -> R * R * R) (g : Globals) : Prop :=
  BF_integrates (BF_filled CylKartCoord g) = true
  <-> BFTargetB (cfg g) <= step_BFBmin (dense g)
      \/ (cap < offset (bf (BF_filled CylKartCoord g)))%Z.

(** The particle leaves a region of low field, 0.05 T at the last step and
    0.2 T at this one, with five values in the buffer: the smallest [|B|]
    has returned above [BFTargetB] = 0.1 T, nothing is integrated and the
    five values stay in the buffer. *)
Lemma adiabatic_step_not_integrated :
  let g := tracked 0.05 5 one_sample in
  BFBmin (bf g) < BFTargetB (cfg g) <= step_BFBmin (dense g)
  /\ BF_integrates (BF_filled as_they_are g) = false
  /\ BruteForceIntegration as_they_are (spin_along 0.25) 3 4 g = BF_filled as_they_are g
  /\ offset (bf (BruteForceIntegration as_they_are (spin_along 0.25) 3 4 g)) = 5%Z
  /\ ~ integrates_as_stated 2000 as_they_are g.
Proof.
  intros g.
  assert (Hb : BFBmin (bf g) < BFTargetB (cfg g)) by (cbn; lra).
  assert (Hm : BFTargetB (cfg g) <= step_BFBmin (dense g)).
  { cbn -[step_BFBmin]. rewrite step_BFBmin_one_sample. lra. }
  destruct (BF_filled_spec as_they_are g) as (Fc & _ & _ & _ & _ & Fm & Fo & _).
  assert (Hi : BF_integrates (BF_filled as_they_are g) = false).
  { unfold BF_integrates. rewrite Fm, Fo, Fc. cbn -[step_BFBmin Rltb Rgeb].
    rewrite step_BFBmin_one_sample. rewrite Rltb_false by lra. cbn -[Rgeb].
    rewrite andb_false_r. reflexivity. }
  assert (He : BruteForceIntegration as_they_are (spin_along 0.25) 3 4 g
               = BF_filled as_they_are g).
  { unfold BruteForceIntegration. fold (BF_filled as_they_are g).
    now apply BF_integrate_skip. }
  split; [split; [exact Hb|exact Hm]|]. split; [exact Hi|].
  split; [exact He|].
  split; [rewrite He, Fo, Rltb_false by exact Hm; reflexivity|].
  unfold integrates_as_stated. intros [_ Hst].
  rewrite Hst in Hi by (left; exact Hm). discriminate.
Qed.

(** C4 as it is stated: with [flipspin] set, a call that integrates flips the
    spin exactly when the number drawn is below [1 - (BFpol + 0.5)] for the
    projection it has found (here every number the twister returns is
    [r]). *)
Definition flip_as_stated (r : R)
    (CylKartCoord : R -> R -> R -> R -> R * R * R)
    (BFodeintrk : (Z -> R) -> Z -> R -> R -> R -> R -> R ->
                  Z * (Z -> R) * (Z -> Z -> R) -> (Z -> R) * BFOut)
    (g : Globals) : Prop :=
  let g5 := BruteForceIntegration CylKartCoord BFodeintrk 3 4 g in
  truthy (flipspin (cfg g)) = true ->
  BF_integrates (BF_filled CylKartCoord g) = true ->
  (NSF (spin g5) = (NSF (spin g) + 1)%Z <-> r < 1 - (BFpol (bf g5) + 0.5)).

(** The particle leaves a region of low field and the integration finds the
    spin reversed, [BFpol] = -0.5: any number of [[0, 1)], here 0.3, is below
    [1 - (BFpol + 0.5)] = 1.  The call is the one that enters lines
    1194-1212: it tests the number against [1 - (0.5 + 0.5) = 0] for the
    [BFpol = 0.5] of the start of the particle and integrates afterwards.
    The spin is not flipped, in this call or in the next. *)
Lemma reversed_spin_not_flipped :
  let g := tracked 0.05 10 one_sample in
  let g5 := BruteForceIntegration as_they_are (spin_along (-0.5)) 3 4 g in
  let g6 := BruteForceIntegration as_they_are (spin_along (-0.5)) 3 4 g5 in
  truthy (flipspin (cfg g)) = true
  /\ BF_left_low_field g = true
  /\ BF_integrates (BF_filled as_they_are g) = true
  /\ BFpol (bf g) = 0.5 /\ BFpol (bf g5) = -0.5
  /\ (forall n, mt_out (v_mt_state g) n = 0.3)
  /\ spin g5 = spin g /\ spin g6 = spin g /\ hfs (spin g6) = (-1)%Z
  /\ NSF (spin g6) = NSF (spin g)
  /\ ~ flip_as_stated 0.3 as_they_are (spin_along (-0.5)) g.
Proof.
  intros g g5 g6.
  destruct (leaving_integrates (-0.5) 10 ltac:(lia))
    as (HL & Hi & Hp & Hc & Hd & Hm & Hp0 & Hs0).
  fold g in HL, Hi, Hp, Hc, Hd, Hm, Hp0, Hs0. fold g5 in Hp, Hc, Hd, Hm.
  destruct (BruteForce_spin_flip as_they_are (spin_along (-0.5)) 3 4 g)
    as (Hiff & _ & Hsame & _).
  fold g5 in Hiff, Hsame.
  assert (Hno : NSF (spin g5) <> (NSF (spin g) + 1)%Z).
  { intros Hf. apply Hiff in Hf. destruct Hf as (_ & _ & Hlt).
    rewrite Hp0 in Hlt. cbn in Hlt. lra. }
  assert (Hsp : spin g5 = spin g) by (apply Hsame, Hno).
  assert (HL5 : BF_left_low_field g5 = false).
  { unfold BF_left_low_field. rewrite Hd, Hc, Hm. cbn -[step_BFBmin Rltb Rgtb].
    rewrite (Rltb_false 0.2 0.1) by lra. apply andb_false_r. }
  destruct (BruteForce_spin_flip as_they_are (spin_along (-0.5)) 3 4 g5)
    as (Hiff6 & _ & Hsame6 & _).
  fold g6 in Hiff6, Hsame6.
  assert (Hno6 : NSF (spin g6) <> (NSF (spin g5) + 1)%Z).
  { intros Hf. apply Hiff6 in Hf. destruct Hf as (_ & Hf & _).
    rewrite HL5 in Hf. discriminate Hf. }
  assert (Hsp6 : spin g6 = spin g) by (rewrite (Hsame6 Hno6); exact Hsp).
  split; [reflexivity|]. split; [exact HL|]. split; [exact Hi|].
  split; [exact Hp0|]. split; [exact Hp|].
  split; [intros n; reflexivity|].
  split; [exact Hsp|]. split; [exact Hsp6|].
  split; [rewrite Hsp6; reflexivity|]. split; [rewrite Hsp6; reflexivity|].
  unfold flip_as_stated. fold g5. intros Hst.
  specialize (Hst eq_refl Hi). rewrite Hsp, Hp in Hst.
  destruct Hst as [_ Hst]. specialize (Hst ltac:(lra)). lia.
Defined.

(** **** Two runs of the same command line *)

(** Stand-ins for [atoi] and for [mt_set]. *)
Definition atoi_digit (a : string) : Z :=
  match a with
  | String c _ => (Z.of_N (Ascii.N_of_ascii c) - 48)%Z
  | EmptyString => 0%Z
  end.
Definition mt_from (seed : Z) : mt_state_t :=
  mkMT (fun n => IZR ((seed + Z.of_nat n) mod 10) / 10) 0.

(** C6 as it is stated: the seed does not depend on the time at which the
    run starts. *)
Definition seed_as_stated (argv : list string) : Prop :=
  forall t1 t2 : Z,
    start_seed (main atoi_digit mt_from argv t1) = start_seed (main atoi_digit mt_from argv t2).

(** Job 7 started at the second 1000 and at the second 1001: same job
    number and paths, seeds 1007 and 1008, and other random numbers. *)
Lemma seed_depends_on_clock :
  let argv := ["pnTracker"; "7"]%string in
  let run1 := main atoi_digit mt_from argv 1000 in
  let run2 := main atoi_digit mt_from argv 1001 in
  start_jobnumber run1 = 7%Z /\ start_jobnumber run2 = 7%Z
  /\ start_inpath run1 = start_inpath run2 /\ start_outpath run1 = start_outpath run2
  /\ start_seed run1 = 1007%Z /\ start_seed run2 = 1008%Z
  /\ (mt_get_double (start_mt run1)).1 <> (mt_get_double (start_mt run2)).1
  /\ ~ seed_as_stated argv.
Proof.
  intros argv run1 run2.
  assert (E1 : run1 = mkStart 7 "./in" "./out" 1007 (mt_from 1007)) by reflexivity.
  assert (E2 : run2 = mkStart 7 "./in" "./out" 1008 (mt_from 1008)) by reflexivity.
  rewrite E1, E2. do 6 (split; [reflexivity|]). split.
  - unfold mt_get_double, mt_from. cbn [fst mt_out mt_pos start_mt].
    replace ((1007 + Z.of_nat 0) mod 10)%Z with 7%Z by reflexivity.
    replace ((1008 + Z.of_nat 0) mod 10)%Z with 8%Z by reflexivity.
    lra.
  - unfold seed_as_stated. intros Hst. specialize (Hst 1000%Z 1001%Z).
    fold run1 run2 in Hst. rewrite E1, E2 in Hst. discriminate Hst.
Qed.

(** **** A round of the loop that fills the track file *)

(** Neutrons without brute-force tracking, every point of the track asked
    for ([ausgabewunsch] = [OUTPUT_EVERYTHING], here 1). *)
Definition neutrons_track : Config :=
  mkConfig NEUTRON m_n 0 1 0 POLARISATION_GOOD 0.1 0 1 1 5e-5 0 1 "./out" 0.

(** The track has counted 40000 rows, the last one a second ago, and the
    step went from 0 to 0.5 ms. *)
Definition full_track : Globals :=
  let g := initial neutrons_track mt_03 in
  mkGlobals (cfg g) (spin g) (fld g) (efld g) (Qm0 g) (scan g)
    (mkPart 0 0 0 0 0 0 0 5e-4 0 0 1) (diag g) (bf g) (bfout g) (dense g)
    (mkTrack 40000 1 0 (-1) 5.0e-7 0 0 0 0 0 0)
    (mkFiles (fprintf (OUTFILE1 (files g)) (Header track_header)) (BFLOG (files g))
       (ENDLOG (files g)) [] 0 1)
    (v_mt_state g) (rando g) (dxsav g) (ystart g) (nintcalls g).

Lemma full_track_written :
  Zeilencount (trk (loop_written no_BFeld as_they_are (spin_along 0.25) 1 3 4 full_track))
  = 40001%Z.
Proof.
  unfold loop_written.
  set (gs := save_time full_track).
  assert (Hs : BahnPointSaveTime (trk gs) = 1e-3) by reflexivity.
  assert (Hp : part gs = mkPart 0 0 0 0 0 0 0 5e-4 0 0 1) by reflexivity.
  assert (Hz : Zeilencount (trk gs) = 40000%Z) by reflexivity.
  assert (Ht : timetemp (trk gs) = -1) by reflexivity.
  change (truthy (BruteForce (cfg gs))) with false. cbv iota.
  unfold track_output. rewrite Hs, Hp. cbn [ausgabewunsch x1 x2].
  change ((1 =? 1)%Z || (1 =? 3)%Z) with true. cbn [andb].
  unfold Rgeb. rewrite Rleb_false by lra. rewrite Rltb_true by lra.
  unfold track_point. rewrite Hs, Hp, Ht. cbn [x2].
  unfold Rgeb. rewrite Rleb_true by lra.
  destruct (update_logs _ _) as [lv lf]. cbn. reflexivity.
Qed.


(** **** A Monte Carlo neutron that cannot reach its start point *)

(** A scan over the angles 0, 90, ..., 360 degrees. *)
Definition scan_angles : Scan := mkScan 0 0 0 0 0 0 1e-7 0.5 1.2 360 180 360 90.

(** Start values: the first particle drawn has the energy 0 at the height of
    1 m, the later ones the energy 1e-7 eV at the height 0; the angle is left
    as the scan has it. *)
Definition start_values (h : R) (s : Scan * (R * R) * mt_state_t) :
  Scan * (R * R) * mt_state_t :=
  let '(sc, times, mt) := s in
  let '(e, z) := match mt_pos mt with O => (0, 1) | S _ => (1e-7, 0) end in
  (mkScan e 0.3 z 0 0 (phi_n sc) (EnergieE sc) (r_ne sc) (z_ne sc) (alphae sc)
     (gammae sc) (phie sc) (dphi sc),
   times, mkMT (mt_out mt) (S (mt_pos mt))).

(** Every point is inside the boundaries. *)
Definition inside : (Z -> R) -> R -> R -> R -> R -> R -> R -> R -> Z :=
  fun _ _ _ _ _ _ _ _ => 0%Z.

(** The globals when the scan calls [IntegrateParticle] for the first
    time. *)
Definition first_call : Globals :=
  set_scan scan_angles (initial neutrons mt_03).

(** The state in which the first call reaches line 790. *)
Definition first_start : Globals :=
  match IntegrateParticle_start start_values inside 0 1 first_call with
  | Some g => g
  | None => first_call
  end.

Lemma first_start_reached :
  IntegrateParticle_start start_values inside 0 1 first_call = Some first_start.
Proof. vm_compute. reflexivity. Qed.

Lemma first_start_values :
  scan first_start = mkScan 0 0.3 1 0 0 0 1e-7 0.5 1.2 360 180 360 90
  /\ M (cfg first_start) = m_n /\ cfg first_start = neutrons.
Proof. vm_compute. repeat split. Qed.

Lemma first_start_Ekin : start_Ekin no_BFeld first_start = - (m_n * gravconst).
Proof.
  unfold start_Ekin. destruct first_start_values as (-> & -> & _).
  cbn [Energie z_n r_n phi_n no_BFeld Bws]. ring.
Qed.

Lemma IntegrateParticle_negative_Ekin_witness :
  exists g',
    IntegrateParticle no_BFeld start_values inside 0 (fun g => g) 1 first_call = Some g'
    /\ protneut (cfg first_call) = NEUTRON
    /\ start_Ekin no_BFeld first_start < 0
    /\ stopall (part g') = 1%Z /\ v_n (part g') = 0
    /\ files g' = files first_call
    /\ EnergieE (scan g') < Energie (scan g')
    /\ phi_n (scan g') = 0 /\ dphi (scan g') = 90 /\ phie (scan g') = 360.
Proof.
  assert (Hneg : start_Ekin no_BFeld first_start < 0).
  { rewrite first_start_Ekin. unfold m_n, gravconst. lra. }
  destruct (IntegrateParticle_negative_Ekin no_BFeld start_values inside 0 (fun g => g) 1
              first_call first_start first_start_reached eq_refl Hneg)
    as (g' & Hrun & _ & Hv & Hstop & _ & Hfiles & _ & Hmc & _).
  destruct (Hmc eq_refl) as (HE & _ & _ & _ & _ & Hphi & Hphie & Hdphi).
  exists g'.
  split; [exact Hrun|]. split; [reflexivity|]. split; [exact Hneg|].
  split; [exact Hstop|]. split; [exact Hv|]. split; [exact Hfiles|].
  split; [exact HE|].
  split; [rewrite Hphi; reflexivity|]. split; [rewrite Hdphi | rewrite Hphie]; reflexivity.
Defined.

(** The scan goes on after that return: the state returned, the second call
    and the state in which it reaches line 790. *)
Definition first_return : Globals :=
  neutron_stopped (start_Ekin no_BFeld first_start) (neutron_field no_BFeld first_start).
Definition second_call : Globals := next_angle first_return.
Definition second_start : Globals :=
  match IntegrateParticle_start start_values inside 0 1 second_call with
  | Some g => g
  | None => second_call
  end.

Lemma first_start_reached_2 :
  IntegrateParticle_start start_values inside 0 2 first_call = Some first_start.
Proof. vm_compute. reflexivity. Qed.

Lemma second_call_scan :
  scan second_call = mkScan (1e-7 + 1) (0.5 + 1) (1.2 + 1) (360 + 1) (180 + 1) (0 + 90)
                       1e-7 0.5 1.2 360 180 360 90.
Proof.
  unfold second_call, first_return. generalize (start_Ekin no_BFeld first_start).
  intros e. vm_compute. reflexivity.
Qed.

Lemma second_start_reached :
  IntegrateParticle_start start_values inside 0 1 second_call = Some second_start.
Proof.
  unfold second_start, second_call, first_return.
  generalize (start_Ekin no_BFeld first_start). intros e. vm_compute. reflexivity.
Qed.

Lemma second_start_values :
  scan second_start = mkScan 1e-7 0.3 0 0 0 (0 + 90) 1e-7 0.5 1.2 360 180 360 90
  /\ cfg second_start = neutrons.
Proof.
  unfold second_start, second_call, first_return.
  generalize (start_Ekin no_BFeld first_start). intros e. vm_compute. split; reflexivity.
Qed.

Lemma first_call_returns :
  IntegrateParticle no_BFeld start_values inside 0 (fun g => g) 2 first_call
  = Some first_return.
Proof.
  destruct first_start_values as (_ & _ & Hc1).
  unfold IntegrateParticle. rewrite first_start_reached_2.
  rewrite IntegrateParticle_neutron_stops.
  - reflexivity.
  - rewrite Hc1. reflexivity.
  - rewrite first_start_Ekin. unfold m_n, gravconst. lra.
Qed.

Lemma second_call_tracks :
  exists g2,
    IntegrateParticle no_BFeld start_values inside 0 (fun g => g) 1 second_call = Some g2
    /\ phi_n (scan g2) = 360 + 1 /\ phie (scan g2) = 360 /\ dphi (scan g2) = 90.
Proof.
  destruct second_start_values as [Hsc2 Hc2].
  assert (HE2 : start_Ekin no_BFeld second_start = 1e-7).
  { unfold start_Ekin. rewrite Hsc2, Hc2.
    cbn [Energie z_n r_n phi_n no_BFeld Bws M neutrons]. ring. }
  unfold IntegrateParticle. rewrite second_start_reached.
  rewrite IntegrateParticle_neutron_starts; [| now rewrite Hc2 | rewrite HE2; lra].
  eexists. split; [reflexivity|].
  assert (Hmc : truthy (MonteCarlo (cfg second_start)) = true) by now rewrite Hc2.
  generalize (start_Ekin no_BFeld second_start). intros ekin.
  destruct (neutron_started_keeps no_BFeld ekin second_start) as [K1 K2].
  destruct (tracked_to_end_scan no_BFeld (fun g => g) ekin second_start Hmc K1 K2)
    as (T1 & T2 & T3).
  rewrite T1, T2, T3, Hsc2. repeat split.
Qed.

(** One pass of the innermost loop of the scan, which a Monte Carlo run is
    to leave after one particle (line 1161), starts a second particle when
    the first one returns from line 825. *)
Lemma scan_runs_two_particles :
  exists g,
    phi_loop no_BFeld start_values inside 0 (fun g => g) 3 0 first_call = Some (g, 2%nat).
Proof.
  destruct second_call_tracks as (g2 & H2 & Hphi & Hphie & Hdphi).
  exists (next_angle g2).
  assert (Hs1 : scan first_call = scan_angles) by reflexivity.
  assert (Hs3 : scan (next_angle g2)
                = mkScan (Energie (scan g2)) (r_n (scan g2)) (z_n (scan g2)) (alpha (scan g2))
                    (gammaa (scan g2)) (phi_n (scan g2) + dphi (scan g2))
                    (EnergieE (scan g2)) (r_ne (scan g2)) (z_ne (scan g2))
                    (alphae (scan g2)) (gammae (scan g2)) (phie (scan g2)) (dphi (scan g2)))
    by reflexivity.
  rewrite phi_loop_round, Hs1. unfold scan_angles at 1 2. cbn [phi_n phie].
  rewrite Rleb_true by lra. rewrite first_call_returns. fold second_call.
  rewrite phi_loop_round, second_call_scan. cbn [phi_n phie].
  rewrite Rleb_true by lra. rewrite H2.
  rewrite phi_loop_round, Hs3. cbn [phi_n phie]. rewrite Hphi, Hphie, Hdphi.
  rewrite Rleb_false by lra. reflexivity.
Qed.

End Bahnen2005.

(** * [src/src/main.cpp]: the command line and the summary of the run *)

Module PENTrack.

Local Open Scope Z_scope.

(** ** [printf] and streams *)

Definition nl : string := String (Ascii.ascii_of_nat 10) EmptyString.

(** A field of [width] characters, filled with blanks on the left; a longer
    text is not cut. *)
Definition pad (width : nat) (s : string) : string :=
  String.concat "" (replicate (width - String.length s) " "%string) +:+ s.

(** [%4i], [%6i] and [%10s]. *)
Definition printf_i (width : nat) (x : Z) : string := pad width (pretty x).
Definition printf_s (width : nat) (s : string) : string := pad width s.

(** The text of [printf("%4i: %6i %10s(s) <fate>\n", code, count, name)]. *)
Definition printf_code (code count : Z) (name fate : string) : string :=
  printf_i 4 code +:+ ": " +:+ printf_i 6 count +:+ " " +:+ printf_s 10 name
  +:+ "(s) " +:+ fate +:+ nl.

(** ** The counters of the stop codes *)

(** [map<string, map<int, int> >] and the [map<string, map<string, string> >]
    of an input file ([TConfig]). *)
Abbreviation Counter := (gmap string (gmap Z Z)).
Abbreviation TConfig := (gmap string (gmap string string)).

(** [counts[id]] of a [map<int, int>]: an absent key is made with the
    value 0. *)
Definition at_id (counts : gmap Z Z) (id : Z) : Z := default 0 (counts !! id).

(** [ID_counter[name]]: an absent key is made with an empty map. *)
Definition at_name (ID_counter : Counter) (name : string) : gmap Z Z :=
  default ∅ (ID_counter !! name).

(** [config[name]] and [config[name][key]] of a [TConfig]: absent keys are
    made with an empty map and an empty string. *)
Definition section_of (config : TConfig) (name : string) : gmap string string :=
  default ∅ (config !! name).

Definition value_of (config : TConfig) (name key : string) : string :=
  default ""%string (section_of config name !! key).

(** [ID_counter[name][id]++] (lines 205 and 212); the counters are [int]s,
    which a run does not take to [2^31]. *)
Definition increment (name : string) (id : Z) (ID_counter : Counter) : Counter :=
  let counts := at_name ID_counter name in
  <[name := <[id := at_id counts id + 1]> counts]> ID_counter.

(** The order of the keys of a [map<string, ...>]: [std::string]'s [<]. *)
Definition key_le {V : Type} (a b : string * V) : Prop :=
  String.leb a.1 b.1 = true.

#[local] Instance key_le_dec {V : Type} (a b : string * V) : Decision (key_le a b).
Proof. unfold key_le. apply _. Defined.

(** The entries of a map from [begin()] to [end()]. *)
Definition entries {V : Type} (m : gmap string V) : list (string * V) :=
  merge_sort key_le (map_to_list m).

(** Lines 398-410: the ten lines of a kind of particle and an empty line. *)
Definition OutputCodes_of (name : string) (counts : gmap Z Z) : list string :=
  [ printf_code 2 (at_id counts 2) name "were absorbed on a surface";
    printf_code 1 (at_id counts 1) name "were absorbed in a material";
    printf_code 0 (at_id counts 0) name "were not categorized";
    printf_code (-1) (at_id counts (-1)) name "did not finish";
    printf_code (-2) (at_id counts (-2)) name "hit outer boundaries";
    printf_code (-3) (at_id counts (-3)) name "produced integration error";
    printf_code (-4) (at_id counts (-4)) name "decayed";
    printf_code (-5) (at_id counts (-5)) name "found no initial position";
    printf_code (-6) (at_id counts (-6)) name "encountered CGAL error";
    printf_code (-7) (at_id counts (-7)) name "encountered geometry error";
    nl ].

(** Lines 395-412: what [OutputCodes] prints. *)
Definition OutputCodes (ID_counter : Counter) : list string :=
  (nl +:+ "The simulated particles suffered following fates:" +:+ nl)
  :: concat (map (fun e => OutputCodes_of e.1 e.2) (entries ID_counter)).

(** Modelled from the spec: the table of section 7 of the specification,
    the reasons a particle stops for and the code of each.  The code of
    this repository that gives a particle its code ([particle.h]) is not
    among the sources. *)
Inductive StopReason : Type :=
  | AbsorbedOnSurface | AbsorbedInBulk | NotCategorized | OutOfSimulationTime
  | LeftBoundingBox | IntegrationError | NeutronDecayed | NoInitialPosition
  | GeometryPredicateFailure | OtherGeometryError.

(** Modelled from the spec: the column of the codes of that table. *)
Definition spec_stop_code (r : StopReason) : Z :=
  match r with
  | AbsorbedOnSurface => 2
  | AbsorbedInBulk => 1
  | NotCategorized => 0
  | OutOfSimulationTime => -1
  | LeftBoundingBox => -2
  | IntegrationError => -3
  | NeutronDecayed => -4
  | NoInitialPosition => -5
  | GeometryPredicateFailure => -6
  | OtherGeometryError => -7
  end.

(** The words of [OutputCodes] for each of the reasons. *)
Definition fate (r : StopReason) : string :=
  match r with
  | AbsorbedOnSurface => "were absorbed on a surface"
  | AbsorbedInBulk => "were absorbed in a material"
  | NotCategorized => "were not categorized"
  | OutOfSimulationTime => "did not finish"
  | LeftBoundingBox => "hit outer boundaries"
  | IntegrationError => "produced integration error"
  | NeutronDecayed => "decayed"
  | NoInitialPosition => "found no initial position"
  | GeometryPredicateFailure => "encountered CGAL error"
  | OtherGeometryError => "encountered geometry error"
  end.

(** ** The program: what it prints and how it ends *)

(** A piece of the program goes on with a value or ends the process with
    [exit(code)]; it adds to the texts written to the standard output. *)
Inductive Step (A : Type) : Type :=
  | Go (a : A)
  | Exit (code : Z).

Arguments Go {A} a.
Arguments Exit {A} code.

Definition Proc (A : Type) : Type := list string -> Step A * list string.

Definition ret {A : Type} (a : A) : Proc A := fun out => (Go a, out).

Definition bind {A B : Type} (c : Proc A) (f : A -> Proc B) : Proc B :=
  fun out =>
    match c out with
    | (Go a, out) => f a out
    | (Exit code, out) => (Exit code, out)
    end.

Definition print (s : string) : Proc unit := fun out => (Go tt, out ++ [s]).

Definition prints (l : list string) : Proc unit := fun out => (Go tt, out ++ l).

Definition exit {A : Type} (code : Z) : Proc A := fun out => (Exit code, out).

Declare Scope proc_scope.
Delimit Scope proc_scope with proc.
Notation "x <- c1 ;; c2" := (bind c1 (fun x => c2))
  (at level 100, c1 at next level, right associativity) : proc_scope.
Notation "c1 ;; c2" := (bind c1 (fun _ => c2))
  (at level 100, right associativity) : proc_scope.

(** The status the process ends with: the value [main] returns or the
    argument of [exit], of which the system keeps the low 8 bits. *)
Definition exit_status {A : Type} (r : Step Z * A) : Z :=
  match r.1 with
  | Go code | Exit code => code mod 256
  end.

(** Lines 64-67. *)
Definition catch_alarm (sig : Z) : Proc Z :=
  (print ("Program was terminated, because Signal " +:+ pretty sig +:+ " occured" +:+ nl) ;;
   exit 1)%proc.

(** The globals of lines 45-53, with their values at the start (a global
    without an initialiser is zero). *)
Record Globals : Type := mkGlobals {
  SimTime : R;
  simcount : Z;
  simtype : Z;
  secondaries : Z;
  BCutPlanePoint : list R;
  MRSolidAngleDRPParams : list R;
  MRThetaIEnergyParams : list R;
  BCutPlaneSampleCount1 : Z;
  BCutPlaneSampleCount2 : Z }.

(** What [main] has after lines 90-101: the globals [jobnumber] and
    [outpath] and the locals [inpath] and [seed]. *)
Record CommandLine : Type := mkCommandLine {
  jobnumber : Z;
  inpath : string;
  outpath : string;
  seed : Z }.

(** ** The particles of a run (lines 200-219) *)


Section Program.

(** The particles and what the run makes them from (the source, the fields,
    the geometry and the generator of random numbers) are classes of other
    files. *)
Variable TParticle World : Type.
Variable CreateParticle : World -> TParticle * World.
Variable Integrate : R -> gmap string string -> TParticle -> World -> TParticle * World.
Variable GetName : TParticle -> string.
Variable GetStopID : TParticle -> Z.
Variable GetNumberOfSteps : TParticle -> Z.
Variable GetSecondaryParticles : TParticle -> list TParticle.

(** The values of the enumeration [simType] (globals.h). *)
Variable PARTICLE BF_ONLY BF_CUT GEOMETRY MR_THETA_OUT_ANGLE MR_THETA_I_ENERGY : Z.

(** The locals of [main] in the loop; [integrated] is not a variable of the
    program: it lists the particles [Integrate] has returned, the last one
    first. *)
Record Run : Type := mkRun {
  world : World;
  ID_counter : Counter;
  ntotalsteps : Z;
  integrated : list TParticle }.

(** Lines 204-206 (and 211-213): a particle is integrated and counted. *)
Definition integrate_and_count (g : Globals) (particlein : TConfig)
    (p : TParticle) (st : Run) : TParticle * Run :=
  let '(p, w) := Integrate (SimTime g) (section_of particlein (GetName p)) p (world st) in
  (p, mkRun w (increment (GetName p) (GetStopID p) (ID_counter st))
        (ntotalsteps st + GetNumberOfSteps p) (p :: integrated st)).

(** Lines 203-217: a round of the loop. *)
Definition particle_round (g : Globals) (particlein : TConfig) (st : Run) : Run :=
  let '(p, w) := CreateParticle (world st) in
  let '(p, st) :=
    integrate_and_count g particlein p
      (mkRun w (ID_counter st) (ntotalsteps st) (integrated st)) in
  if secondaries g =? 1
  then fold_left (fun st i => (integrate_and_count g particlein i st).2)
         (GetSecondaryParticles p) st
  else st.

(** Lines 173 and 201-218: [simcount] rounds from empty counters ([iMC]
    goes from 1 to [simcount], which is below [2^31 - 1]). *)
Definition particle_loop (g : Globals) (particlein : TConfig) (w : World) : Run :=
  Nat.iter (Z.to_nat (simcount g)) (particle_round g particlein) (mkRun w ∅ 0 []).

(** The number of the particles of [l] with the name [name] that stopped
    with the code [id]. *)
Definition stopped_with (name : string) (id : Z) (l : list TParticle) : Z :=
  Z.of_nat (length (filter (fun p => GetName p = name /\ GetStopID p = id) l)).

(** The counters count the particles of the list. *)
Definition counted (st : Run) : Prop :=
  forall name id,
    at_id (at_name (ID_counter st) name) id = stopped_with name id (integrated st).

(** *** Reading the input (lines 103-117 and 250-275) *)

(** [istringstream(s) >> x]: the value of [x] after the extraction, from the
    text and the value before; one stream gives the eleven values of
    [BCutPlane] and one each the values of the two tables. *)
Variable extract_int : string -> Z -> Z.
Variable extract_uint64 : string -> Z -> Z.
Variable extract_double : string -> R -> R.
Variable extract_doubles : string -> list R -> list R.
Variable extract_plane : string -> list R * Z * Z -> list R * Z * Z.

(** [ReadInFile] (globals.h) adds the settings of a file to a [TConfig]. *)
Variable ReadInFile : string -> TConfig -> TConfig.

(** What the local [stype] of [ConfigInit], which has no initialiser, holds
    before the extraction. *)
Variable stype_start : Z.

Definition globals_start : Globals :=
  mkGlobals 1500 1 PARTICLE 1 (replicate 9 0%R) (replicate 5 0%R) (replicate 7 0%R) 0 0.

(** Lines 250-275. *)
Definition ConfigInit (config : TConfig) (g : Globals) : Globals :=
  let stype := extract_int (value_of config "global" "simtype") stype_start in
  let count := extract_int (value_of config "global" "simcount") 1 in
  let time := extract_double (value_of config "global" "simtime") (SimTime g) in
  let sec := extract_int (value_of config "global" "secondaries") (secondaries g) in
  let '(plane, n1, n2) :=
    extract_plane (value_of config "global" "BCutPlane")
      (BCutPlanePoint g, BCutPlaneSampleCount1 g, BCutPlaneSampleCount2 g) in
  let angle :=
    extract_doubles (value_of config "global" "MRSolidAngleDRP") (MRSolidAngleDRPParams g) in
  let energy :=
    extract_doubles (value_of config "global" "MRThetaIEnergy") (MRThetaIEnergyParams g) in
  mkGlobals time count stype sec plane angle energy n1 n2.

(** Lines 109-113: every kind of particle but [all] gets the settings of
    [all]; [particlein["all"]] makes the key when a round of the loop finds
    it absent. *)
Definition settings_of_all (particlein : TConfig) : TConfig :=
  let all := section_of particlein "all" in
  if decide (dom particlein ⊆ {["all"%string]}) then particlein
  else <["all"%string := all]>
         (map_imap (fun name v => Some (if decide (name = "all"%string) then v else all))
            particlein).

(** Lines 90-101. *)
Definition command_line (argv : list string) : CommandLine :=
  let argc := Z.of_nat (length argv) in
  let arg (i : nat) : string := nth i argv ""%string in
  mkCommandLine
    (if 1 <? argc then extract_int (arg 1%nat) 0 else 0)
    (if 2 <? argc then arg 2%nat else "./in"%string)
    (if 3 <? argc then arg 3%nat else "./out"%string)
    (if 4 <? argc then extract_uint64 (arg 4%nat) 0 else 0).

(** *** The tables of the other modes (lines 285-573) *)

(** Whether an [ofstream] of that name is open after its construction, and
    the text [<<] gives for a [double]. *)
Variable opens : string -> bool.
Variable show_double : R -> string.

(** The fields, the geometry, the generator of random numbers and the source
    are made by constructors of other files. *)
Variable Field Geometry MC : Type.
Variable TFieldManager : TConfig -> Field.
Variable TGeometry : TConfig -> Geometry.
Variable TMCGenerator : string -> Z -> MC.
Variable TSource : TConfig -> MC -> Geometry -> Field -> World.

(** What the tables write to the standard output while they are computed,
    and the times of the last lines of the run. *)
Variable PrintPercent_text : Globals -> list string.
Variable PrintBFieldCut_text : Globals -> Field -> list string.
Variable PrintBField_text : Field -> list string.
Variable InitTime SimulationTime : string.

(** What [time(NULL)] returns. *)
Variable time_NULL : Z.

(** [srand], [rand] and [RAND_MAX] of the C library; the state of [rand] is
    passed along. *)
Variable RandState : Type.
Variable srand : Z -> RandState.
Variable rand : RandState -> Z * RandState.
Variable RAND_MAX : Z.

(** The constant [pi] of [globals.h]; the box of the mesh,
    [geom.mesh.tree.bbox().min(j)] and [max(j)]; whether
    [geom.mesh.Collision(p1, p2, c)] finds that the segment meets a
    surface; the time the loop of [PrintGeometry] takes, in nanoseconds,
    and the text of a [%f]. *)
Variable pi : R.
Variable bbox_min bbox_max : Geometry -> Z -> R.
Variable Collision : Geometry -> R * R * R -> R * R * R -> bool.
Variable colltimer : R.
Variable printf_f : R -> string.

Local Open Scope proc_scope.

(** Lines 302-305, 356-359, 430-433 and 479-482. *)
Definition opened (fileName : string) : Proc unit :=
  if opens fileName then ret tt
  else print ("Could not open " +:+ fileName +:+ "!" +:+ nl) ;; exit (-1).

Definition MROutAngle_file (g : Globals) (outfile : string) : string :=
  let p (i : nat) := show_double (nth i (MRSolidAngleDRPParams g) 0%R) in
  outfile +:+ "-F" +:+ p 0%nat +:+ "-En" +:+ p 1%nat +:+ "-b" +:+ p 2%nat
  +:+ "-w" +:+ p 3%nat +:+ "-th" +:+ p 4%nat +:+ ".out".

(** Lines 285-331. *)
Definition PrintMROutAngle (g : Globals) (outfile : string) : Proc unit :=
  print (nl +:+ "Generating table of MR diffuse reflection probability for all solid angles ..."
         +:+ nl) ;;
  opened (MROutAngle_file g outfile).

Definition MRThetaIEnergy_file (g : Globals) (outfile : string) : string :=
  let p (i : nat) := show_double (nth i (MRThetaIEnergyParams g) 0%R) in
  outfile +:+ "-F" +:+ p 0%nat +:+ "-b" +:+ p 1%nat +:+ "-w" +:+ p 2%nat +:+ ".out".

(** Lines 339-387. *)
Definition PrintMRThetaIEnergy (g : Globals) (outfile : string) : Proc unit :=
  print (nl +:+ "Generating table of integrated MR diffuse reflection probability for different incident angle and energy ..."
         +:+ nl) ;;
  opened (MRThetaIEnergy_file g outfile) ;;
  print nl ;; prints (PrintPercent_text g) ;; print nl.

(** Lines 423-464. *)
Definition PrintBFieldCut (g : Globals) (outfile : string) (field : Field) : Proc unit :=
  opened outfile ;; prints (PrintBFieldCut_text g field).

(** Lines 476-525. *)
Definition PrintBField (outfile : string) (field : Field) : Proc unit :=
  opened outfile ;; prints (PrintBField_text field).

(** [(double)rand()/RAND_MAX]. *)
Definition rand_unit (rs : RandState) : R * RandState :=
  let (n, rs) := rand rs in ((IZR n / IZR RAND_MAX)%R, rs).

(** Lines 549-567: a segment of the length 1 from a random point of the box
    in a random direction; [collcount] counts the segments that meet a
    surface (the points where they do are written to the file). *)
Definition PrintGeometry_segment (geom : Geometry) (st : RandState * Z) : RandState * Z :=
  let (rs, collcount) := st in
  let p1 (j : Z) (rs : RandState) : R * RandState :=
    let (u, rs) := rand_unit rs in
    ((u * (bbox_max geom j - bbox_min geom j) + bbox_min geom j)%R, rs) in
  let (x, rs) := p1 0 rs in
  let (y, rs) := p1 1 rs in
  let (z, rs) := p1 2 rs in
  let (u, rs) := rand_unit rs in
  let theta := (u * pi)%R in
  let (u, rs) := rand_unit rs in
  let phi := (u * 2 * pi)%R in
  let p2 := ((x + 1 * sin theta * cos phi)%R, (y + 1 * sin theta * sin phi)%R,
             (z + 1 * cos theta)%R) in
  (rs, if Collision geom (x, y, z) p2 then collcount + 1 else collcount).

(** The number of the segments (line 541) and the line of line 571. *)
Definition PrintGeometry_count : Z := 1000000.

Definition PrintGeometry_stats (collcount : Z) : string :=
  pretty PrintGeometry_count +:+ " tests, " +:+ pretty collcount +:+ " collisions in "
  +:+ printf_f (colltimer / 1e6) +:+ "ms ("
  +:+ printf_f (colltimer / IZR PrintGeometry_count / 1e6) +:+ "ms per Test, "
  +:+ printf_f (colltimer / IZR collcount / 1e6) +:+ "ms per Collision)" +:+ nl.

(** The segments that meet a surface, with [rand] seeded by [seed]. *)
Definition PrintGeometry_collisions (geom : Geometry) (seed : Z) : Z :=
  (N.iter (Z.to_N PrintGeometry_count) (PrintGeometry_segment geom) (srand seed, 0)).2.

(** Lines 537-573: the stream is made and written to without a test of
    whether it is open; [rand] is seeded with the time (line 546), whatever
    seed the command line has. *)
Definition PrintGeometry (outfile : string) (geom : Geometry) : Proc unit :=
  print (PrintGeometry_stats (PrintGeometry_collisions geom time_NULL)).

(** *** [main] (lines 78-242) *)

Definition usage : string :=
  "Usage:" +:+ nl
  +:+ "PENTrack [jobnumber [path/to/in/files [path/to/out/files [seed]]]]" +:+ nl.

Definition welcome : string :=
  " ########################################################################" +:+ nl
  +:+ " ###                      Welcome to PENTrack,                        ###" +:+ nl
  +:+ " ### a simulation tool for ultra-cold neutrons, protons and electrons ###" +:+ nl
  +:+ " ########################################################################" +:+ nl.

(** Lines 200-242. *)
Definition simulation (g : Globals) (particlein : TConfig) (source : World) : Proc Z :=
  if simtype g =? PARTICLE then
    let st := particle_loop g particlein source in
    prints (OutputCodes (ID_counter st)) ;;
    print ("The integrator made " +:+ pretty (ntotalsteps st) +:+ " steps. " +:+ nl) ;;
    print ("Init: " +:+ InitTime +:+ "s, Simulation: " +:+ SimulationTime +:+ "s" +:+ nl) ;;
    print ("That's it... Have a nice day!" +:+ nl) ;;
    ret 0
  else
    print (nl +:+ "Don't know simtype " +:+ pretty (simtype g) +:+ "! Exiting..." +:+ nl) ;;
    exit (-1).

(** The input files and the globals after lines 103-117. *)
Definition particle_in (a : CommandLine) : TConfig :=
  let file := inpath a +:+ "/particle.in" in
  ReadInFile file (settings_of_all (ReadInFile file ∅)).

Definition configured (a : CommandLine) : Globals :=
  ConfigInit (ReadInFile (inpath a +:+ "/config.in") ∅) globals_start.

(** Lines 103-242. *)
Definition run (a : CommandLine) : Proc Z :=
  let geometryin := ReadInFile (inpath a +:+ "/geometry.in") ∅ in
  let particlein := particle_in a in
  let g := configured a in
  if simtype g =? MR_THETA_OUT_ANGLE then
    PrintMROutAngle g (outpath a +:+ "/MR-SldAngDRP") ;; ret 0
  else if simtype g =? MR_THETA_I_ENERGY then
    PrintMRThetaIEnergy g (outpath a +:+ "/MR-Tot-DRP") ;; ret 0
  else
    print ("Loading fields..." +:+ nl) ;;
    let field := TFieldManager geometryin in
    if simtype g =? BF_ONLY then PrintBField (outpath a +:+ "/BF.out") field ;; ret 0
    else if simtype g =? BF_CUT then
      PrintBFieldCut g (outpath a +:+ "/BFCut.out") field ;; ret 0
    else
      print ("Loading geometry..." +:+ nl) ;;
      let geom := TGeometry geometryin in
      if simtype g =? GEOMETRY then
        PrintGeometry (outpath a +:+ "/geometry.out") geom ;; ret 0
      else
        print ("Loading random number generator..." +:+ nl) ;;
        let mc := TMCGenerator (inpath a +:+ "/particle.in") (seed a) in
        print ("Loading source..." +:+ nl) ;;
        let source := TSource geometryin mc geom field in
        print welcome ;;
        simulation g particlein source.

(** Lines 78-242; [argv] has the name of the program first. *)
Definition main (argv : list string) : Proc Z :=
  if (1 <? Z.of_nat (length argv)) && String.eqb (nth 1 argv ""%string) "-h"
  then print usage ;; exit 0
  else run (command_line argv).

(** The modes of a run, in the order in which [main] tests [simtype] (lines
    119, 123, 133, 137, 147 and 200); the last one is a [simtype] that is
    none of the six. *)
Inductive Mode : Set :=
  | MROutAngleMode | MRThetaIEnergyMode | BFieldMode | BFieldCutMode
  | GeometryMode | ParticleMode | UnknownMode.

Definition mode_of (g : Globals) : Mode :=
  if simtype g =? MR_THETA_OUT_ANGLE then MROutAngleMode
  else if simtype g =? MR_THETA_I_ENERGY then MRThetaIEnergyMode
  else if simtype g =? BF_ONLY then BFieldMode
  else if simtype g =? BF_CUT then BFieldCutMode
  else if simtype g =? GEOMETRY then GeometryMode
  else if simtype g =? PARTICLE then ParticleMode
  else UnknownMode.

(** The file a mode makes for its table (lines 120-149, 298 and 352); the
    files of the simulation of particles are made by classes of other
    files. *)
Definition table_file (a : CommandLine) : option string :=
  let g := configured a in
  match mode_of g with
  | MROutAngleMode => Some (MROutAngle_file g (outpath a +:+ "/MR-SldAngDRP"))
  | MRThetaIEnergyMode => Some (MRThetaIEnergy_file g (outpath a +:+ "/MR-Tot-DRP"))
  | BFieldMode => Some (outpath a +:+ "/BF.out")
  | BFieldCutMode => Some (outpath a +:+ "/BFCut.out")
  | GeometryMode => Some (outpath a +:+ "/geometry.out")
  | ParticleMode | UnknownMode => None
  end.

(** C8 as it is stated: the fatal errors of a run.  Section 7 of the
    specification has the process abort on a file that cannot be opened and
    on a malformed configuration: here the table of the mode that is not
    opened, and a [simtype] that names no mode. *)
Definition fatal_error (a : CommandLine) : bool :=
  match table_file a with
  | Some file => negb (opens file)
  | None => match mode_of (configured a) with UnknownMode => true | _ => false end
  end.

(** ** The counters *)

Lemma increment_spec (name name' : string) (id id' : Z) (m : Counter) :
  at_id (at_name (increment name id m) name') id'
  = at_id (at_name m name') id'
    + (if bool_decide (name = name' /\ id = id') then 1 else 0).
Proof using Type.
  unfold increment, at_name.
  destruct (decide (name' = name)) as [->|Hn].
  - rewrite lookup_insert_eq. unfold at_id, default, from_option, Datatypes.id.
    destruct (decide (id' = id)) as [->|Hi].
    + rewrite lookup_insert_eq, bool_decide_eq_true_2 by done. reflexivity.
    + rewrite lookup_insert_ne by done.
      rewrite bool_decide_eq_false_2 by (intros [_ ?]; done). lia.
  - rewrite lookup_insert_ne by done.
    rewrite bool_decide_eq_false_2 by (intros [? _]; done). lia.
Qed.

Lemma stopped_with_cons (name : string) (id : Z) (p : TParticle) (l : list TParticle) :
  stopped_with name id (p :: l)
  = stopped_with name id l
    + (if bool_decide (GetName p = name /\ GetStopID p = id) then 1 else 0).
Proof using Type.
  unfold stopped_with. rewrite filter_cons.
  destruct (decide (GetName p = name /\ GetStopID p = id)) as [H|H].
  - rewrite bool_decide_eq_true_2 by done. cbn [length]. lia.
  - rewrite bool_decide_eq_false_2 by done. lia.
Qed.

Lemma stopped_with_bounds (name : string) (id : Z) (l : list TParticle) :
  0 <= stopped_with name id l
  /\ (forall p, In p l -> GetName p = name -> GetStopID p = id -> 1 <= stopped_with name id l).
Proof using Type.
  split; [unfold stopped_with; lia|].
  induction l as [|q l IH]; intros p Hin Hn Hi; [destruct Hin|].
  rewrite stopped_with_cons. destruct Hin as [->|Hin].
  - rewrite bool_decide_eq_true_2 by done. unfold stopped_with. lia.
  - specialize (IH p Hin Hn Hi). destruct (bool_decide _); lia.
Qed.

Lemma integrate_and_count_counted g particlein p st :
  counted st -> counted (integrate_and_count g particlein p st).2.
Proof using Type.
  intros H name id. unfold integrate_and_count.
  destruct (Integrate _ _ _ _) as [q w]. cbn [snd ID_counter integrated].
  rewrite increment_spec, stopped_with_cons, H.
  reflexivity.
Qed.

Lemma secondaries_counted g particlein l st :
  counted st ->
  counted (fold_left (fun st i => (integrate_and_count g particlein i st).2) l st).
Proof using Type.
  revert st. induction l as [|i l IH]; intros st H; [exact H|].
  cbn [fold_left]. apply IH, integrate_and_count_counted, H.
Qed.

Lemma particle_round_counted g particlein st :
  counted st -> counted (particle_round g particlein st).
Proof using Type.
  intros H. unfold particle_round. destruct (CreateParticle _) as [p w].
  pose proof (integrate_and_count_counted g particlein p
                (mkRun w (ID_counter st) (ntotalsteps st) (integrated st)) H) as H'.
  destruct (integrate_and_count _ _ _ _) as [q st']. cbn [snd] in H'.
  destruct (_ =? _); [apply secondaries_counted|]; exact H'.
Qed.

Lemma particle_loop_counted g particlein w : counted (particle_loop g particlein w).
Proof using Type.
  unfold particle_loop. induction (Z.to_nat (simcount g)) as [|n IH].
  - intros name id. cbn. unfold at_name, at_id, stopped_with.
    rewrite lookup_empty. cbn. rewrite lookup_empty. reflexivity.
  - cbn [Nat.iter]. apply particle_round_counted, IH.
Qed.

(** Every round integrates a particle or more. *)
Lemma integrate_and_count_integrated g particlein p st :
  length (integrated (integrate_and_count g particlein p st).2)
  = S (length (integrated st)).
Proof using Type.
  unfold integrate_and_count. destruct (Integrate _ _ _ _) as [q w]. reflexivity.
Qed.

Lemma secondaries_integrated g particlein l st :
  (length (integrated st)
   <= length (integrated
                (fold_left (fun st i => (integrate_and_count g particlein i st).2) l st)))%nat.
Proof using Type.
  revert st. induction l as [|i l IH]; intros st; [reflexivity|].
  cbn [fold_left]. etransitivity; [|apply IH].
  rewrite integrate_and_count_integrated. lia.
Qed.

Lemma particle_round_integrated g particlein st :
  (S (length (integrated st)) <= length (integrated (particle_round g particlein st)))%nat.
Proof using Type.
  unfold particle_round. destruct (CreateParticle _) as [p w].
  pose proof (integrate_and_count_integrated g particlein p
                (mkRun w (ID_counter st) (ntotalsteps st) (integrated st))) as H.
  destruct (integrate_and_count _ _ _ _) as [q st']. cbn [snd integrated] in H.
  destruct (_ =? _).
  - etransitivity; [|apply secondaries_integrated]. lia.
  - lia.
Qed.

Lemma particle_loop_integrated g particlein w :
  (Z.to_nat (simcount g) <= length (integrated (particle_loop g particlein w)))%nat.
Proof using Type.
  unfold particle_loop. induction (Z.to_nat (simcount g)) as [|n IH]; [apply Nat.le_0_l|].
  cbn [Nat.iter]. etransitivity; [|apply particle_round_integrated].
  apply le_n_S, IH.
Qed.

(** ** The summary *)

Lemma entries_spec {V : Type} (m : gmap string V) (name : string) (v : V) :
  In (name, v) (entries m) <-> m !! name = Some v.
Proof using Type.
  unfold entries.
  rewrite <- list_elem_of_In, merge_sort_Permutation, elem_of_map_to_list. reflexivity.
Qed.

(** The kinds of particles are listed in the order of their names. *)
Lemma entries_sorted {V : Type} (m : gmap string V) : Sorted key_le (entries m).
Proof using Type.
  assert (Ht : Total (@key_le V)).
  { intros a b. unfold key_le.
    destruct (String.leb_total a.1 b.1); [left|right]; assumption. }
  apply (Sorted_merge_sort key_le).
Qed.

Lemma OutputCodes_of_spec (name : string) (counts : gmap Z Z) (line : string) :
  In line (OutputCodes_of name counts)
  <-> line = nl
      \/ exists r, line = printf_code (spec_stop_code r) (at_id counts (spec_stop_code r))
                           name (fate r).
Proof using Type.
  unfold OutputCodes_of. cbn [In]. split.
  - intros H.
    repeat (destruct H as [<-|H];
            [first [ left; reflexivity
                   | right;
                     first [ exists AbsorbedOnSurface; reflexivity
                           | exists AbsorbedInBulk; reflexivity
                           | exists NotCategorized; reflexivity
                           | exists OutOfSimulationTime; reflexivity
                           | exists LeftBoundingBox; reflexivity
                           | exists IntegrationError; reflexivity
                           | exists NeutronDecayed; reflexivity
                           | exists NoInitialPosition; reflexivity
                           | exists GeometryPredicateFailure; reflexivity
                           | exists OtherGeometryError; reflexivity ] ]|]).
    destruct H.
  - intros [->|[r ->]]; [do 10 right; left; reflexivity|].
    destruct r; cbn [spec_stop_code fate]; repeat (first [left; reflexivity | right]).
Qed.

Lemma OutputCodes_spec (m : Counter) (line : string) :
  In line (OutputCodes m)
  <-> line = (nl +:+ "The simulated particles suffered following fates:" +:+ nl)%string
      \/ exists name counts, m !! name = Some counts /\ In line (OutputCodes_of name counts).
Proof using Type.
  unfold OutputCodes. cbn [In]. rewrite in_concat. split.
  - intros [<-|(l & Hl & Hin)]; [left; reflexivity|right].
    apply in_map_iff in Hl as ([name counts] & <- & He).
    exists name, counts. split; [apply entries_spec, He|exact Hin].
  - intros [->|(name & counts & Hm & Hin)]; [left; reflexivity|right].
    exists (OutputCodes_of name counts). split; [|exact Hin].
    apply in_map_iff. exists (name, counts). split; [reflexivity|apply entries_spec, Hm].
Qed.

(** The codes of the table are the numbers from -7 to 2. *)
Lemma spec_stop_code_range (c : Z) : -7 <= c <= 2 <-> exists r, spec_stop_code r = c.
Proof using Type.
  split.
  - intros H.
    assert (Hc : c = 2 \/ c = 1 \/ c = 0 \/ c = -1 \/ c = -2 \/ c = -3 \/ c = -4
                 \/ c = -5 \/ c = -6 \/ c = -7) by lia.
    destruct Hc as [->|[->|[->|[->|[->|[->|[->|[->|[->| ->]]]]]]]]].
    + exists AbsorbedOnSurface; reflexivity.
    + exists AbsorbedInBulk; reflexivity.
    + exists NotCategorized; reflexivity.
    + exists OutOfSimulationTime; reflexivity.
    + exists LeftBoundingBox; reflexivity.
    + exists IntegrationError; reflexivity.
    + exists NeutronDecayed; reflexivity.
    + exists NoInitialPosition; reflexivity.
    + exists GeometryPredicateFailure; reflexivity.
    + exists OtherGeometryError; reflexivity.
  - intros [r <-]. destruct r; cbn; lia.
Qed.

(** ** The command line and the end of the process *)

(** The arguments after the fourth are not read. *)
Lemma command_line_firstn (argv : list string) :
  command_line (firstn 5 argv) = command_line argv.
Proof using Type.
  destruct argv as [|a0 [|a1 [|a2 [|a3 [|a4 rest]]]]]; try reflexivity.
  unfold command_line. cbn [firstn nth].
  assert (H5 : 4 < Z.of_nat (length [a0; a1; a2; a3; a4])) by (cbn; lia).
  assert (Hl : 4 < Z.of_nat (length (a0 :: a1 :: a2 :: a3 :: a4 :: rest)))
    by (cbn [length]; lia).
  revert H5 Hl.
  generalize (Z.of_nat (length [a0; a1; a2; a3; a4])).
  generalize (Z.of_nat (length (a0 :: a1 :: a2 :: a3 :: a4 :: rest))).
  intros n m Hm Hn.
  assert (Hn' : forall k, k <= 4 -> (k <? n) = true) by (intros; apply Z.ltb_lt; lia).
  assert (Hm' : forall k, k <= 4 -> (k <? m) = true) by (intros; apply Z.ltb_lt; lia).
  rewrite ?Hn', ?Hm' by lia. reflexivity.
Qed.

(** Whether a table is opened decides how its mode ends. *)
Lemma opened_spec (fileName : string) (out : list string) :
  opened fileName out
  = if opens fileName then (Go tt, out)
    else (Exit (-1), out ++ [("Could not open " +:+ fileName +:+ "!" +:+ nl)%string]).
Proof using Type. unfold opened. destruct (opens fileName); reflexivity. Qed.

(** How the run of lines 103-242 ends, mode by mode: the table of the
    geometry is the one that is written without a test of its stream. *)
Lemma run_spec (a : CommandLine) (out : list string) :
  (run a out).1
  = match mode_of (configured a), table_file a with
    | GeometryMode, _ | ParticleMode, _ => Go 0
    | UnknownMode, _ => Exit (-1)
    | _, Some file => if opens file then Go 0 else Exit (-1)
    | _, None => Go 0
    end.
Proof using Type.
  unfold run, table_file, mode_of.
  destruct (_ =? MR_THETA_OUT_ANGLE).
  { unfold PrintMROutAngle, bind, print. rewrite opened_spec.
    destruct (opens _); reflexivity. }
  destruct (_ =? MR_THETA_I_ENERGY).
  { unfold PrintMRThetaIEnergy, bind, print. rewrite opened_spec.
    destruct (opens _); reflexivity. }
  unfold bind at 1. unfold print at 1.
  destruct (_ =? BF_ONLY).
  { unfold PrintBField, bind. rewrite opened_spec. destruct (opens _); reflexivity. }
  destruct (_ =? BF_CUT).
  { unfold PrintBFieldCut, bind. rewrite opened_spec. destruct (opens _); reflexivity. }
  unfold bind at 1. unfold print at 1.
  destruct (_ =? GEOMETRY); [reflexivity|].
  unfold simulation. destruct (_ =? PARTICLE); reflexivity.
Qed.

(** The run reads the seed of the command line only to make the generator
    of the simulation of particles. *)
Lemma run_seed (a : CommandLine) (s' : Z) (out : list string) :
  let a' := mkCommandLine (jobnumber a) (inpath a) (outpath a) s' in
  mode_of (configured a) <> ParticleMode
  \/ TMCGenerator (inpath a +:+ "/particle.in") s'
     = TMCGenerator (inpath a +:+ "/particle.in") (seed a) ->
  run a' out = run a out.
Proof using Type.
  intros a'. unfold run, mode_of.
  change (configured a') with (configured a).
  change (particle_in a') with (particle_in a).
  change (inpath a') with (inpath a). change (outpath a') with (outpath a).
  change (seed a') with s'.
  destruct (_ =? MR_THETA_OUT_ANGLE); [reflexivity|].
  destruct (_ =? MR_THETA_I_ENERGY); [reflexivity|].
  destruct (_ =? BF_ONLY); [reflexivity|].
  destruct (_ =? BF_CUT); [reflexivity|].
  destruct (_ =? GEOMETRY); [reflexivity|].
  unfold simulation.
  destruct (_ =? PARTICLE); [|reflexivity].
  intros [H | H]; [now contradiction H | rewrite H; reflexivity].
Qed.

(** C8 (what the program does).  [main] reads at most four arguments after
    the name of the program: the job number, the path of the input, the
    path of the output and the seed, each one only when it and those before
    it are given, and has 0, [./in], [./out] and 0 for those that are not.
    With [-h] as first argument it prints the usage line and ends with
    [exit(0)].  Otherwise it returns 0, or ends with [exit(-1)] (status 255)
    at a [simtype] it does not know and at a table it cannot open, but for
    the table of the geometry: [PrintGeometry] does not test its stream as
    the four other tables do, and the run ends with the status 0 although
    the file is not opened.  The handler of the signals ends the process
    with status 1.  The [main] of [bahnen2005.c] has the same three first
    arguments with the same values when they are not given and always
    takes its seed from the time. *)
Theorem main_command_line (argv : list string) :
  let argc := Z.of_nat (length argv) in
  let arg (i : nat) := nth i argv ""%string in
  let a := command_line argv in
  let help := (1 <? argc) && String.eqb (arg 1%nat) "-h" in
  let mode := mode_of (configured a) in
  (jobnumber a = (if 1 <? argc then extract_int (arg 1%nat) 0 else 0)
   /\ inpath a = (if 2 <? argc then arg 2%nat else "./in"%string)
   /\ outpath a = (if 3 <? argc then arg 3%nat else "./out"%string)
   /\ seed a = (if 4 <? argc then extract_uint64 (arg 4%nat) 0 else 0))
  /\ command_line (firstn 5 argv) = a
  /\ (forall out, help = true ->
        main argv out
        = (Exit 0,
           out ++ [("Usage:" +:+ nl
                    +:+ "PENTrack [jobnumber [path/to/in/files [path/to/out/files [seed]]]]"
                    +:+ nl)%string])
        /\ exit_status (main argv out) = 0)
  /\ (forall out, help = false -> mode <> GeometryMode ->
        (main argv out).1 = (if fatal_error a then Exit (-1) else Go 0)
        /\ exit_status (main argv out) = (if fatal_error a then 255 else 0))
  /\ (forall out, help = false -> mode = GeometryMode ->
        fatal_error a = negb (opens (outpath a +:+ "/geometry.out"))
        /\ (main argv out).1 = Go 0 /\ exit_status (main argv out) = 0)
  /\ (forall sig out, exit_status (catch_alarm sig out) = 1)
  /\ (forall atoi mt_set mytime,
        let s := Bahnen2005.main atoi mt_set argv mytime in
        (argc <= 1 -> Bahnen2005.start_jobnumber s = 0)
        /\ (argc <= 2 -> Bahnen2005.start_inpath s = "./in"%string)
        /\ (argc <= 3 -> Bahnen2005.start_outpath s = "./out"%string)
        /\ Bahnen2005.start_seed s
           = (mytime mod Bahnen2005.ULONG + Bahnen2005.start_jobnumber s)
             mod Bahnen2005.ULONG).
Proof using Type.
  intros argc arg a help mode.
  assert (Hm : forall out, help = false -> main argv out = run a out).
  { intros out Hh. unfold main. fold argc. fold (arg 1%nat). fold help. rewrite Hh.
    reflexivity. }
  split; [repeat split|]. split; [apply command_line_firstn|].
  split; [|split; [|split; [|split]]].
  - intros out Hh. unfold main. fold argc. fold (arg 1%nat). fold help. rewrite Hh.
    split; reflexivity.
  - intros out Hh Hg. unfold exit_status. rewrite (Hm out Hh), run_spec.
    unfold fatal_error, table_file. cbv zeta. subst mode.
    destruct (mode_of (configured a)); try now contradiction Hg.
    all: try destruct (opens _); split; reflexivity.
  - intros out Hh Hg. unfold exit_status. rewrite (Hm out Hh), run_spec.
    unfold fatal_error, table_file. cbv zeta. subst mode. rewrite Hg.
    repeat split.
  - intros sig out. reflexivity.
  - intros atoi mt_set mytime s.
    destruct (Bahnen2005.main_spec atoi mt_set argv mytime) as (Hseed & _).
    fold s in Hseed. split; [|split; [|split; [|exact Hseed]]]; intros Hargc;
      unfold s, Bahnen2005.main; cbv zeta; fold argc;
      destruct (Z.gtb_spec argc 3); try lia;
      destruct (Z.gtb_spec argc 2); try lia;
      destruct (Z.eqb_spec argc 2); try lia; reflexivity.
Qed.

(** C6 (as the program has it).  In [bahnen2005.c] [main] seeds the
    Mersenne twister once, with the time of the start plus the job number
    as an [unsigned long]; it reads no seed from the command line (it reads
    nothing behind the third argument), so two runs of the same command
    line have the same job number, paths and seed exactly when they start
    in the same second; [BruteForceIntegration] draws from the state of the
    twister it finds, two numbers or none, and does not seed it.  In
    [main.cpp] the seed is the fourth argument, 0 when there is none; the
    run reads it only to make the generator of the simulation of
    particles, and the table of the geometry is drawn with [rand] seeded
    with the time. *)
Theorem random_numbers_from_clock (argv : list string) (t1 t2 : Z) :
  (0 <= t1 < Bahnen2005.ULONG) -> (0 <= t2 < Bahnen2005.ULONG) ->
  let argc := Z.of_nat (length argv) in
  let a := command_line argv in
  (forall atoi mt_set,
     let s1 := Bahnen2005.main atoi mt_set argv t1 in
     let s2 := Bahnen2005.main atoi mt_set argv t2 in
     Bahnen2005.start_seed s1 = (t1 + Bahnen2005.start_jobnumber s1) mod Bahnen2005.ULONG
     /\ Bahnen2005.start_mt s1 = mt_set (Bahnen2005.start_seed s1)
     /\ Bahnen2005.start_jobnumber s2 = Bahnen2005.start_jobnumber s1
     /\ Bahnen2005.start_inpath s2 = Bahnen2005.start_inpath s1
     /\ Bahnen2005.start_outpath s2 = Bahnen2005.start_outpath s1
     /\ (Bahnen2005.start_seed s1 = Bahnen2005.start_seed s2 <-> t1 = t2)
     /\ Bahnen2005.main atoi mt_set (firstn 4 argv) t1 = s1)
  /\ (forall CylKartCoord BFodeintrk OUTPUT_EVERYTHINGandSPIN OUTPUT_ENDPOINTSandSPIN g,
        let g5 := Bahnen2005.BruteForceIntegration CylKartCoord BFodeintrk
                    OUTPUT_EVERYTHINGandSPIN OUTPUT_ENDPOINTSandSPIN g in
        let mt := Bahnen2005.v_mt_state g in
        let mt5 := Bahnen2005.v_mt_state g5 in
        Bahnen2005.mt_out mt5 = Bahnen2005.mt_out mt
        /\ (Bahnen2005.mt_pos mt5 = Bahnen2005.mt_pos mt
            \/ Bahnen2005.mt_pos mt5 = S (S (Bahnen2005.mt_pos mt))))
  /\ seed a = (if 4 <? argc then extract_uint64 (nth 4 argv ""%string) 0 else 0)
  /\ (forall s' out,
        let a' := mkCommandLine (jobnumber a) (inpath a) (outpath a) s' in
        (mode_of (configured a) <> ParticleMode -> run a' out = run a out)
        /\ (TMCGenerator (inpath a +:+ "/particle.in") s'
            = TMCGenerator (inpath a +:+ "/particle.in") (seed a) ->
            run a' out = run a out))
  /\ (forall outfile geom out,
        PrintGeometry outfile geom out
        = (Go tt,
           out ++ [PrintGeometry_stats
                     (N.iter 1000000 (PrintGeometry_segment geom) (srand time_NULL, 0)).2])).
Proof using Type.
  intros H1 H2 argc a.
  split; [|split; [|split; [|split]]].
  - intros atoi mt_set s1 s2.
    destruct (Bahnen2005.main_seed atoi mt_set argv t1 t2 H1 H2) as (A1 & A2 & A3 & A4 & A5 & A6).
    fold s1 s2 in A1, A2, A3, A4, A5, A6.
    repeat (split; [assumption|]). apply Bahnen2005.main_firstn.
  - intros C B O1 O2 g. apply Bahnen2005.BruteForceIntegration_stream.
  - reflexivity.
  - intros s' out a'. split; intros H; apply run_seed; [left|right]; exact H.
  - intros outfile geom out. reflexivity.
Qed.

End Program.

(** ** The stop codes of the particles *)

#[local] Instance StopReason_eq_dec : EqDecision StopReason.
Proof. solve_decision. Defined.

(** The reasons in the order of the lines of [OutputCodes] (lines 400-409). *)
Definition reasons : list StopReason :=
  [AbsorbedOnSurface; AbsorbedInBulk; NotCategorized; OutOfSimulationTime;
   LeftBoundingBox; IntegrationError; NeutronDecayed; NoInitialPosition;
   GeometryPredicateFailure; OtherGeometryError].

(** Modelled from the spec: the lifetime of a neutron that decays.  The
    table has it "sampled from exponential with tau = 885.7 s"; the code
    that draws it ([MCStartwerte] for [bahnen2005.c], [mc.h] for
    [main.cpp]) is not among the sources, which have the constant [tau]
    (line 29 of [bahnen2005.c]) and never read it.  For a uniform number
    [u] of (0, 1] the lifetime is [- tau ln u]. *)
Definition lifetime (u : R) : R := (- Bahnen2005.tau * ln u)%R.

Lemma lifetime_exponential (u t : R) :
  (0 < u)%R -> (t < lifetime u <-> u < exp (- t / 885.7))%R.
Proof.
  intros Hu. unfold lifetime, Bahnen2005.tau.
  rewrite <- (exp_ln u) at 2 by exact Hu.
  split.
  - intros H. apply exp_increasing.
    apply Rmult_lt_reg_l with 885.7%R; [lra|].
    replace (885.7 * (- t / 885.7))%R with (- t)%R by (field; lra). lra.
  - intros H. apply exp_lt_inv in H.
    apply Rmult_lt_compat_l with (r := 885.7%R) in H; [|lra].
    replace (885.7 * (- t / 885.7))%R with (- t)%R in H by (field; lra). lra.
Qed.

Section StopCodes.

Variable TParticle World : Type.
Variable CreateParticle : World -> TParticle * World.
Variable Integrate : R -> gmap string string -> TParticle -> World -> TParticle * World.
Variable GetName : TParticle -> string.
Variable GetNumberOfSteps : TParticle -> Z.
Variable GetSecondaryParticles : TParticle -> list TParticle.

(** The reason a particle has stopped for. *)
Variable reason : TParticle -> StopReason.

(** Modelled from the spec: [TParticle::GetStopID] is code of [particle.h],
    which is not among the sources.  After section 7 of the specification
    a terminated particle carries the code of the table for the reason it
    has stopped for. *)
Definition GetStopID (p : TParticle) : Z := spec_stop_code (reason p).

(** The number of the particles of [l] with the name [name] that stopped
    for the reason [r], and the number of those with that name. *)
Definition stopped_for (name : string) (r : StopReason) (l : list TParticle) : Z :=
  Z.of_nat (length (filter (fun p => GetName p = name /\ reason p = r) l)).

Definition named (name : string) (l : list TParticle) : Z :=
  Z.of_nat (length (filter (fun p => GetName p = name) l)).

(** The lines [OutputCodes] prints for a kind of particle, as the table has
    them. *)
Definition summary_of (name : string) (l : list TParticle) : list string :=
  map (fun r => printf_code (spec_stop_code r) (stopped_for name r l) name (fate r)) reasons
  ++ [nl].

Lemma spec_stop_code_inj (r r' : StopReason) : spec_stop_code r = spec_stop_code r' -> r = r'.
Proof using Type. destruct r, r'; cbn; intros H; first [reflexivity | discriminate H]. Qed.

Lemma stopped_for_with (name : string) (r : StopReason) (l : list TParticle) :
  stopped_with TParticle GetName GetStopID name (spec_stop_code r) l = stopped_for name r l.
Proof using Type.
  unfold stopped_with, stopped_for. do 2 f_equal. apply list_filter_iff.
  intros p. unfold GetStopID. split; intros [H1 H2]; split; try assumption.
  - now apply spec_stop_code_inj.
  - now rewrite H2.
Qed.

Lemma stopped_for_cons (name : string) (r : StopReason) (p : TParticle) (l : list TParticle) :
  stopped_for name r (p :: l)
  = stopped_for name r l
    + (if bool_decide (GetName p = name /\ reason p = r) then 1 else 0).
Proof using Type.
  unfold stopped_for. rewrite filter_cons.
  destruct (decide (GetName p = name /\ reason p = r)) as [H|H].
  - rewrite bool_decide_eq_true_2 by done. cbn [length]. lia.
  - rewrite bool_decide_eq_false_2 by done. lia.
Qed.

(** The ten numbers of a kind add up to the particles of that kind: every
    particle is on one line and on one only. *)
Lemma stopped_for_sum (name : string) (l : list TParticle) :
  foldr Z.add 0 (map (fun r => stopped_for name r l) reasons) = named name l.
Proof using Type.
  induction l as [|p l IH]; [reflexivity|].
  unfold named in *. rewrite filter_cons.
  revert IH. unfold reasons. cbn [map foldr]. rewrite !stopped_for_cons. intros IH.
  destruct (decide (GetName p = name)) as [Hn|Hn].
  - destruct (reason p) eqn:Hr;
      repeat match goal with
             | |- context [bool_decide ?P] =>
                 first [ rewrite (bool_decide_eq_true_2 P) by (split; [exact Hn|reflexivity])
                       | rewrite (bool_decide_eq_false_2 P) by (intros [_ ?]; discriminate) ]
             end;
      cbn [length]; lia.
  - repeat match goal with
           | |- context [bool_decide ?P] =>
               rewrite (bool_decide_eq_false_2 P) by (intros [? _]; contradiction)
           end.
    lia.
Qed.


End StopCodes.

(** ** Runs on small inputs *)

(** Three neutrons: the first and the third are absorbed on a surface, the
    second decays into a proton that hits the outer boundaries and an
    electron that is absorbed in a material.  A particle is its name and its
    stop code and takes 10 steps; the world is the number of the particles
    made. *)
Definition a_neutron (n : nat) : string * Z := ("neutron"%string, nth n [2; -4; 2] 0).

Definition products (p : string * Z) : list (string * Z) :=
  if (p.2 =? -4) && String.eqb p.1 "neutron"
  then [("proton"%string, -2); ("electron"%string, 1)]
  else [].

(** The settings [simtype] and [simcount] of [config.in], and numbers of one
    digit. *)
Definition config_in (stype : string) (file : string) (config : TConfig) : TConfig :=
  if String.eqb file "./in/config.in"
  then <["global"%string := <["simtype"%string := stype]> (<["simcount"%string := "3"%string]> ∅)]>
         config
  else config.

Definition one_digit (s : string) (old : Z) : Z :=
  match s with
  | String c EmptyString =>
      let n := Z.of_nat (Ascii.nat_of_ascii c) - 48 in
      if (0 <=? n) && (n <=? 9) then n else 0
  | EmptyString => old
  | _ => 0
  end.

(** The program with the values 1, 3, 4, 7, 8 and 9 for the kinds of
    simulation, on an input with the given [simtype] and with files that
    open or not. *)
Definition PENTrack_on (stype : string) (opens : string -> bool) (argv : list string) :
    Step Z * list string :=
  main (string * Z) nat (fun n => (a_neutron n, S n)) (fun _ _ p w => (p, w))
    fst snd (fun _ => 10) products
    1 3 4 7 8 9
    one_digit one_digit (fun _ x => x) (fun _ l => l) (fun _ v => v) (config_in stype)
    0 opens (fun _ => "0"%string)
    unit unit unit (fun _ => tt) (fun _ => tt) (fun _ _ => tt) (fun _ _ _ _ => 0%nat)
    (fun _ => []) (fun _ _ => []) (fun _ => [])
    "0.01" "0.02" 0
    Z (fun seed => seed) (fun s => (s mod 7, s + 1)) 6
    3.14159%R (fun _ _ => 0%R) (fun _ _ => 1%R) (fun _ _ _ => false)
    0%R (fun _ => "0"%string) argv [].

Lemma PENTrack_help :
  PENTrack_on "1" (fun _ => true) ["PENTrack"; "-h"; "./input"]%string = (Exit 0, [usage]).
Proof. reflexivity. Qed.

Lemma PENTrack_three_neutrons :
  let r := PENTrack_on "1" (fun _ => true) ["PENTrack"]%string in
  r.1 = Go 0 /\ exit_status r = 0
  /\ firstn 5 r.2
     = ["Loading fields..." +:+ nl; "Loading geometry..." +:+ nl;
        "Loading random number generator..." +:+ nl; "Loading source..." +:+ nl;
        welcome]%string
  /\ In ("   2:      2    neutron(s) were absorbed on a surface" +:+ nl)%string r.2
  /\ In ("  -4:      1    neutron(s) decayed" +:+ nl)%string r.2
  /\ In ("  -2:      1     proton(s) hit outer boundaries" +:+ nl)%string r.2
  /\ In ("   1:      1   electron(s) were absorbed in a material" +:+ nl)%string r.2
  /\ In ("  -7:      0   electron(s) encountered geometry error" +:+ nl)%string r.2
  /\ skipn 39 r.2
     = ["The integrator made 50 steps. " +:+ nl;
        "Init: 0.01s, Simulation: 0.02s" +:+ nl;
        "That's it... Have a nice day!" +:+ nl]%string
  /\ length r.2 = (5 + 1 + 3 * 11 + 3)%nat.
Proof.
  vm_compute. repeat split; auto 50.
Qed.

Lemma PENTrack_unknown_simtype :
  let r := PENTrack_on "5" (fun _ => true) ["PENTrack"; "12"; "./in"]%string in
  r.1 = Exit (-1) /\ exit_status r = 255
  /\ last r.2 = Some (nl +:+ "Don't know simtype 5! Exiting..." +:+ nl)%string.
Proof. vm_compute. repeat split. Qed.

(** The table of the fields cannot be opened: the run ends with
    [exit(-1)]. *)
Lemma PENTrack_tables_not_opened :
  let no_file := fun _ : string => false in
  (PENTrack_on "3" no_file ["PENTrack"]%string).1 = Exit (-1)
  /\ exit_status (PENTrack_on "3" no_file ["PENTrack"]%string) = 255
  /\ last (PENTrack_on "3" no_file ["PENTrack"]%string).2
     = Some ("Could not open ./out/BF.out!" +:+ nl)%string.
Proof. vm_compute. repeat split. Qed.

(** The table of the geometry cannot be opened, [simtype] being 7 for
    [GEOMETRY]: the run goes on, writes to the stream that is not open and
    ends with the status 0. *)
Lemma main_command_line_witness :
  let no_file := fun _ : string => false in
  let r := PENTrack_on "7" no_file ["PENTrack"]%string in
  no_file "./out/geometry.out"%string = false /\ r.1 = Go 0 /\ exit_status r = 0.
Proof.
  intros no_file r.
  pose proof (main_command_line (string * Z) nat (fun n => (a_neutron n, S n))
                (fun _ _ p w => (p, w)) fst snd (fun _ => 10) products
                1 3 4 7 8 9
                one_digit one_digit (fun _ x => x) (fun _ l => l) (fun _ v => v)
                (config_in "7") 0 no_file (fun _ => "0"%string)
                unit unit unit (fun _ => tt) (fun _ => tt) (fun _ _ => tt)
                (fun _ _ _ _ => 0%nat)
                (fun _ => []) (fun _ _ => []) (fun _ => [])
                "0.01" "0.02" 0
                Z (fun seed => seed) (fun s => (s mod 7, s + 1)) 6
                3.14159%R (fun _ _ => 0%R) (fun _ _ => 1%R) (fun _ _ _ => false)
                0%R (fun _ => "0"%string) ["PENTrack"]%string) as T.
  cbv zeta in T. destruct T as (_ & _ & _ & _ & Hg & _).
  specialize (Hg [] eq_refl ltac:(vm_compute; reflexivity)).
  destruct Hg as (_ & H1 & H2).
  split; [reflexivity|]. split; [exact H1 | exact H2].
Defined.

(** Job 7 started at the second 1000 and at the second 1001, with the
    stand-ins of [Bahnen2005] for [atoi] and [mt_set]. *)
Lemma random_numbers_from_clock_witness :
  let argv := ["pnTracker"; "7"]%string in
  let run1 := Bahnen2005.main Bahnen2005.atoi_digit Bahnen2005.mt_from argv 1000 in
  let run2 := Bahnen2005.main Bahnen2005.atoi_digit Bahnen2005.mt_from argv 1001 in
  (0 <= 1000 < Bahnen2005.ULONG) /\ (0 <= 1001 < Bahnen2005.ULONG)
  /\ Bahnen2005.start_jobnumber run2 = Bahnen2005.start_jobnumber run1
  /\ (Bahnen2005.start_seed run1 = Bahnen2005.start_seed run2 <-> 1000 = 1001).
Proof.
  intros argv run1 run2.
  assert (H1 : 0 <= 1000 < Bahnen2005.ULONG) by (unfold Bahnen2005.ULONG; lia).
  assert (H2 : 0 <= 1001 < Bahnen2005.ULONG) by (unfold Bahnen2005.ULONG; lia).
  pose proof (random_numbers_from_clock (string * Z) nat (fun n => (a_neutron n, S n))
                (fun _ _ p w => (p, w)) fst snd (fun _ => 10) products
                1 3 4 7 8 9
                one_digit one_digit (fun _ x => x) (fun _ l => l) (fun _ v => v)
                (config_in "1") 0 (fun _ => true) (fun _ => "0"%string)
                unit unit unit (fun _ => tt) (fun _ => tt) (fun _ _ => tt)
                (fun _ _ _ _ => 0%nat)
                (fun _ => []) (fun _ _ => []) (fun _ => [])
                "0.01" "0.02" 0
                Z (fun seed => seed) (fun s => (s mod 7, s + 1)) 6
                3.14159%R (fun _ _ => 0%R) (fun _ _ => 1%R) (fun _ _ _ => false)
                0%R (fun _ => "0"%string) argv 1000 1001 H1 H2) as T.
  cbv zeta in T. destruct T as (T & _).
  destruct (T Bahnen2005.atoi_digit Bahnen2005.mt_from) as (_ & _ & Hj & _ & _ & Hs & _).
  split; [exact H1|]. split; [exact H2|]. split; [exact Hj | exact Hs].
Defined.

End PENTrack.

(** * More of [src/bahnen2005.c]: the particle between its start and its end *)

Module Tracking.
Import CLang Bahnen2005.
#[local] Open Scope R_scope.

#[local] Notation "a .[ i ]" := (a i%Z) (at level 1, left associativity, only parsing).
#[local] Notation "a .[ i , j ]" := (a i%Z j%Z) (at level 1, left associativity, only parsing).

(** ** More globals *)

(** The velocity at the start and what the loop of the integration counts;
    they stand beside [Globals]. *)
Record Motion : Type := mkMotion {
  vr_n : R; vphi_n : R; vz_n : R; projz : R; vtemp : R; gammarel : R;
  ytemp1 : R; ytemp3 : R; ytemp5 : R;
  L_n : R; dL_n : R;
  delx_n : R; deltat : R; ntotalsteps : R; schritte : Z;
  phitemp : R; phiend : R; R_ : R }.

Definition set_gammarel (v : R) (m : Motion) : Motion :=
  mkMotion (vr_n m) (vphi_n m) (vz_n m) (projz m) (vtemp m) v
    (ytemp1 m) (ytemp3 m) (ytemp5 m) (L_n m) (dL_n m)
    (delx_n m) (deltat m) (ntotalsteps m) (schritte m) (phitemp m) (phiend m) (R_ m).

(** [vr_n], [vphi_n], [vz_n], [projz] and [vtemp]. *)
Definition set_velocity (vr vphi vz pz vt : R) (m : Motion) : Motion :=
  mkMotion vr vphi vz pz vt (gammarel m)
    (ytemp1 m) (ytemp3 m) (ytemp5 m) (L_n m) (dL_n m)
    (delx_n m) (deltat m) (ntotalsteps m) (schritte m) (phitemp m) (phiend m) (R_ m).

Definition set_ytemp (t1 t3 t5 : R) (m : Motion) : Motion :=
  mkMotion (vr_n m) (vphi_n m) (vz_n m) (projz m) (vtemp m) (gammarel m)
    t1 t3 t5 (L_n m) (dL_n m)
    (delx_n m) (deltat m) (ntotalsteps m) (schritte m) (phitemp m) (phiend m) (R_ m).

Definition set_L_n (l dl : R) (m : Motion) : Motion :=
  mkMotion (vr_n m) (vphi_n m) (vz_n m) (projz m) (vtemp m) (gammarel m)
    (ytemp1 m) (ytemp3 m) (ytemp5 m) l dl
    (delx_n m) (deltat m) (ntotalsteps m) (schritte m) (phitemp m) (phiend m) (R_ m).

(** [delx_n], [ntotalsteps] and the local [schritte]. *)
Definition set_step (d n : R) (k : Z) (m : Motion) : Motion :=
  mkMotion (vr_n m) (vphi_n m) (vz_n m) (projz m) (vtemp m) (gammarel m)
    (ytemp1 m) (ytemp3 m) (ytemp5 m) (L_n m) (dL_n m)
    d (deltat m) n k (phitemp m) (phiend m) (R_ m).

Definition set_deltat (d : R) (m : Motion) : Motion :=
  mkMotion (vr_n m) (vphi_n m) (vz_n m) (projz m) (vtemp m) (gammarel m)
    (ytemp1 m) (ytemp3 m) (ytemp5 m) (L_n m) (dL_n m)
    (delx_n m) d (ntotalsteps m) (schritte m) (phitemp m) (phiend m) (R_ m).

(** [phitemp], [phiend] and [R]. *)
Definition set_phiend (pt pe r : R) (m : Motion) : Motion :=
  mkMotion (vr_n m) (vphi_n m) (vz_n m) (projz m) (vtemp m) (gammarel m)
    (ytemp1 m) (ytemp3 m) (ytemp5 m) (L_n m) (dL_n m)
    (delx_n m) (deltat m) (ntotalsteps m) (schritte m) pt pe r.

(** Values of the configuration the tracking reads and does not write. *)
Record Setup : Type := mkSetup {
  TrajectoryLength : Z; rmin : R; wandinnen : R; runge : Z; neutdist : Z }.

(** The first values and the steps of the scan of [main] (lines 576-597). *)
Record Steps : Type := mkSteps {
  EnergieS : R; dEnergie : R; r_ns : R; dr_n : R; z_ns : R; dz_n : R;
  alphas : R; dalpha : R; gammas : R; dgamma : R; phis : R }.

(** [fmodl]: what is left of [x] when the multiples of [y] in it, counted
    towards 0, are taken off. *)
Definition trunc (x : R) : Z := if Rle_dec 0 x then Int_part x else (- Int_part (- x))%Z.
Definition fmodl (x y : R) : R := x - IZR (trunc (x / y)) * y.

Definition set_ystart (y : Z -> R) (g : Globals) : Globals :=
  mkGlobals (cfg g) (spin g) (fld g) (efld g) (Qm0 g) (scan g) (part g) (diag g)
    (bf g) (bfout g) (dense g) (trk g) (files g) (v_mt_state g) (rando g) (dxsav g)
    y (nintcalls g).

Definition set_nintcalls (n : R) (g : Globals) : Globals :=
  mkGlobals (cfg g) (spin g) (fld g) (efld g) (Qm0 g) (scan g) (part g) (diag g)
    (bf g) (bfout g) (dense g) (trk g) (files g) (v_mt_state g) (rando g) (dxsav g)
    (ystart g) n.

Definition set_v_n (v : R) (g : Globals) : Globals :=
  let p := part g in
  set_part (mkPart (stopall p) (kennz p) (Ekin p) v (Hstart p) (Hmax p)
              (x1 p) (x2 p) (xstart p) (xend p) (ausgabewunsch p)) g.

Definition set_Hmax (h : R) (g : Globals) : Globals :=
  let p := part g in
  set_part (mkPart (stopall p) (kennz p) (Ekin p) (v_n p) (Hstart p) h
              (x1 p) (x2 p) (xstart p) (xend p) (ausgabewunsch p)) g.

Definition set_times (t1 t2 : R) (g : Globals) : Globals :=
  let p := part g in
  set_part (mkPart (stopall p) (kennz p) (Ekin p) (v_n p) (Hstart p) (Hmax p)
              t1 t2 (xstart p) (xend p) (ausgabewunsch p)) g.

(** [vend] and [H]. *)
Definition set_vend_H (v h : R) (g : Globals) : Globals :=
  let t := trk g in
  set_trk (mkTrack (Zeilencount t) (Filecount t) (time_temp t) (timetemp t)
             (BahnPointSaveTime t) v h (vlad t) (frac t) (logvlad t) (logfrac t)) g.

Lemma Reqb_true (x y : R) : x = y -> Reqb x y = true.
Proof. intros H. unfold Reqb. destruct (Req_dec_T x y); [reflexivity|contradiction]. Qed.

Lemma Reqb_false (x y : R) : x <> y -> Reqb x y = false.
Proof. intros H. unfold Reqb. destruct (Req_dec_T x y); [contradiction|reflexivity]. Qed.

Section Program.

Variable BFeld : R -> R -> R -> R -> Felder.
Variable Entkommen : (Z -> R) -> R -> R -> Z * Z -> Z * Z.
Variable setup : Setup.
Variable steps : Steps.

(** ** The start vector (lines 829-888) *)

(** Lines 829-841: the speed of a proton and of an electron of the kinetic
    energy [Energie] ([powl(x, 0.5)] is the square root). *)
Definition IntegrateParticle_speed (gm : Globals * Motion) : Globals * Motion :=
  let (g, m) := gm in
  let E := Energie (scan g) in
  let g := if is_PROTON (protneut (cfg g)) then set_v_n (sqrt (2 * E / m_p)) g else g in
  if is_ELECTRONS (protneut (cfg g)) then
    let gam := E / m_e / c_0 / c_0 + 1 in
    (set_v_n (c_0 * sqrt (1 - 1 / (gam * gam))) g, set_gammarel gam m)
  else (g, m).

(** Lines 843-867: the velocity in cylindrical components and the vector
    [ystart] of the integrator. *)
Definition IntegrateParticle_velocity (gm : Globals * Motion) : Globals * Motion :=
  let (g, m) := gm in
  if negb (is_BF_ONLY (protneut (cfg g))) then
    let sc := scan g in
    let v := v_n (part g) in
    let pz := cos (conv * gammaa sc) in
    let vz := v * pz in
    let vt := v * sin (conv * gammaa sc) in
    let vr := vt * cos (conv * (alpha sc - phi_n sc)) in
    let vphi := vt * sin (conv * (alpha sc - phi_n sc)) in
    let y := ystart g in
    let y := upd (upd y 1 (r_n sc)) 2 vr in
    let y := upd (upd y 3 (z_n sc)) 4 vz in
    let y := upd y 5 (conv * phi_n sc) in
    let '(t1, t3, t5) :=
      if truthy (TrajectoryLength setup) then (y.[1], y.[3], y.[5])
      else (ytemp1 m, ytemp3 m, ytemp5 m) in
    let y := if negb (Reqb (r_n sc) 0) then upd y 6 (vphi / r_n sc)
             else if Reqb (r_n sc) 0 then upd y 6 0 else y in
    let g := set_ystart y g in
    let g := set_stop (Entkommen y (x2 (part g)) (H_ (trk g))
                         (stopall (part g), kennz (part g))) g in
    (g, set_ytemp t1 t3 t5 (set_velocity vr vphi vz pz vt m))
  else (g, m).

(** Lines 869-888: the energy [H] of the start, in neV for a neutron and in
    eV for a proton or an electron, and the angular momentum. *)
Definition IntegrateParticle_energy (gm : Globals * Motion) : Globals * Motion :=
  let (g, m) := gm in
  let k := protneut (cfg g) in
  let v := v_n (part g) in
  let y := ystart g in
  let h :=
    if is_NEUTRON k
    then (m_n * gravconst * y.[3] + 0.5 * m_n * v * v - mu_n (spin g) * Bws (fld g)) * 1E9
    else if is_PROTON k then 0.5 * m_p * v * v
    else if is_ELECTRONS k
    then c_0 * c_0 * m_e * (1 / sqrt (1 - v * v / (c_0 * c_0)) - 1)
    else H_ (trk g) in
  let g := set_Hmax h (set_vend_H (vend (trk g)) h g) in
  if is_NEUTRON k then
    let l := y.[6] * y.[1] * y.[1] in
    (g, set_L_n l (l - sqrt (h * 1.0e-9 * 2 / m_n) * (rmin setup + wandinnen setup)) m)
  else (g, m).

(** Lines 829-888. *)
Definition IntegrateParticle_startvector (gm : Globals * Motion) : Globals * Motion :=
  IntegrateParticle_energy (IntegrateParticle_velocity (IntegrateParticle_speed gm)).

(** ** The step of the integration loop (lines 920-937) *)

(** Lines 922-927: the length of the step. *)
Definition step_length (g : Globals) : R :=
  let b := Bws (fld g) in
  let c := cfg g in
  if Rltb b (BFTargetB c + 0.1) && truthy (BruteForce c) then delx c / 10
  else if Rltb b (BFTargetB c) && truthy (BruteForce c) then delx c / 100
  else delx c.

(** Lines 933-937: [phi] is brought back by one turn. *)
Definition wrap_phi (y : Z -> R) : Z -> R :=
  let y := if Rgtb y.[5] (2.0 * pi) then upd y 5 (y.[5] - 2 * pi) else y in
  if Rltb y.[5] (- 2.0 * pi) then upd y 5 (y.[5] + 2 * pi) else y.

(** ** The loop of the integration (lines 890-1083) *)

(** The other functions the loop calls.  [odeint] integrates from [x1] to
    [x2] with the stepper the loop gives it ([true] for [rkqs], [false] for
    [bsstep]): it writes the vector [ystart], the values it saves of the
    step and, through [derivs], the fields, [Qm0], [stopall] and [kennz]. *)
Record OdeResult : Type := mkOdeResult {
  ode_y : Z -> R; ode_dense : Dense; ode_fld : Felder; ode_efld : EFelder;
  ode_Qm0 : R; ode_stop : Z * Z }.

Variable odeint : bool -> Globals -> OdeResult.
Variable CylKartCoord : R -> R -> R -> R -> R * R * R.
Variable BFodeintrk :
  (Z -> R) -> Z -> R -> R -> R -> R -> R -> Z * (Z -> R) * (Z -> Z -> R) -> (Z -> R) * BFOut.
Variables OUTPUT_EVERYTHING OUTPUT_EVERYTHINGandSPIN OUTPUT_ENDPOINTSandSPIN : Z.
Variable fopen_fails : FileName -> bool.

(** The table of [fillndist] and the counters of [IncrementCodes] have
    types of their own; the globals [Bxcoor], [Bycoor] and [Bzcoor] are
    written by other files. *)
Variable NDist Codes : Type.
Variable fillndist : Globals -> NDist -> NDist.
Variable IncrementCodes : Z -> Codes -> Codes.
Variable Bcoor : Globals -> R * R * R.

(** All of the state: the globals of [Bahnen2005], those of [Motion], the
    two tables and the array [VolumeB]. *)
Record World : Type := mkWorld {
  globals : Globals; motion : Motion; ndist : NDist; codes : Codes; VolumeB : Z -> R }.

Definition set_globals (g : Globals) (w : World) : World :=
  mkWorld g (motion w) (ndist w) (codes w) (VolumeB w).

(** [ausgabe(x2, ystart, vend, H)] writes the end values of the particle.
    Its code is not among the sources: what it writes to the end log, a
    row or nothing (line 809 sets [ausgabewunsch] to 5 for no output), is
    left to it.  It gets the state it is called in and gives the end log
    after the call.  The lines 1115-1132, for a [protneut] of 99, are made
    of functions of other files. *)
Variable ausgabe : R -> (Z -> R) -> R -> R -> World -> File.
Variable flux_line : World -> World.

(** Lines 941-942. *)
Definition call_odeint (stepper : bool) (g : Globals) : Globals :=
  let r := odeint stepper g in
  set_stop (ode_stop r)
    (mkGlobals (cfg g) (spin g) (ode_fld r) (ode_efld r) (ode_Qm0 r) (scan g) (part g)
       (diag g) (bf g) (bfout g) (ode_dense r) (trk g) (files g) (v_mt_state g)
       (rando g) (dxsav g) (ode_y r) (nintcalls g)).

(** Lines 920-966: a round up to the output.  The sum [x2 = x1 + delx_n] of
    line 929 is the exact one here (the program rounds it: a step below
    half a unit in the last place of [x2] leaves [x2] as it is), and
    [schritte], an [int] of the program, is counted in [Z]. *)
Definition loop_integrate (w : World) : World :=
  let g := globals w in
  let m := motion w in
  let y := ystart g in
  let g := set_fld (BFeld y.[1] y.[5] y.[3] (x2 (part g))) g in
  let d := step_length g in
  let g := set_times (x2 (part g)) (x2 (part g) + d) g in
  let t1 := if truthy (TrajectoryLength setup) then y.[1] else ytemp1 m in
  let g := set_ystart (wrap_phi y) g in
  let g := if (runge setup =? 2)%Z then call_odeint true g else g in
  let g := if (runge setup =? 1)%Z then call_odeint false g else g in
  let g := set_nintcalls (nintcalls g + 1) g in
  let m := set_step d (ntotalsteps m + IZR (kount (dense g))) (schritte m + 1)%Z
             (set_ytemp t1 y.[3] y.[5] m) in
  let v := sqrt (Rabs (speed2 (ystart g))) in
  let h := energy_H g v (ystart g).[3] (Bws (fld g)) in
  let g := set_vend_H v h g in
  let g := if Rgtb h (Hmax (part g)) then set_Hmax h g else g in
  let nd := if (neutdist setup =? 1)%Z && is_NEUTRON (protneut (cfg g))
            then fillndist g (ndist w) else ndist w in
  mkWorld g m nd (codes w) (VolumeB w).

(** Lines 920-1078: a round of the loop; [inr 1] is the [exit(1)] of line
    1065. *)
Definition loop_round (w : World) : World + Z :=
  let w := loop_integrate w in
  match loop_output BFeld CylKartCoord BFodeintrk OUTPUT_EVERYTHING
          OUTPUT_EVERYTHINGandSPIN OUTPUT_ENDPOINTSandSPIN fopen_fails (globals w) with
  | inr code => inr code
  | inl g =>
      inl (set_globals
             (set_stop (Entkommen (ystart g) (x2 (part g)) (H_ (trk g))
                          (stopall (part g), kennz (part g))) g) w)
  end.

(** The test of line 1083. *)
Definition loop_goes_on (g : Globals) : bool :=
  Rleb (x2 (part g) - xstart (part g)) (xend (part g)) && negb (truthy (stopall (part g))).

(** Lines 916-1083: [do ... while]; the result is [None] when the rounds
    allowed are used up. *)
Fixpoint integration_loop (fuel : nat) (w : World) : option (World + Z) :=
  match fuel with
  | O => None
  | S fuel' =>
      match loop_round w with
      | inr code => Some (inr code)
      | inl w' =>
          if loop_goes_on (globals w') then integration_loop fuel' w' else Some (inl w')
      end
  end.

(** Lines 893-915: before the loop. *)
Definition loop_enter (w : World) : World :=
  let g := globals w in
  let g :=
    if truthy (BruteForce (cfg g)) then
      let '(Bx, By, Bz_) := Bcoor g in
      let b := bf g in
      let I := upd (I_n b) 1 (Bx / Bws (fld g) * 0.5) in
      let I := upd I 2 (By / Bws (fld g) * 0.5) in
      let I := upd I 3 (Bz_ / Bws (fld g) * 0.5) in
      set_bf (mkBF (BFBmin b) (BFPolmin b) (firstint b) (offset b) (BFtime b) (BFField b)
                I (BFpol b) (BFlogpol b) (BFsurvprob b) (BFflipprob b) (BFBws b)) g
    else g in
  let t := trk g in
  let g := set_trk (mkTrack (Zeilencount t) (Filecount t) (time_temp t) 0
                      (BahnPointSaveTime t) (vend t) (H_ t) (vlad t) (frac t)
                      (logvlad t) (logfrac t)) g in
  let m := motion w in
  mkWorld g (set_deltat (delx (cfg g)) (set_step (delx_n m) (ntotalsteps m) 0 m))
    (ndist w) (codes w) (VolumeB w).

(** Lines 1087-1109: after the loop.  The sum of line 1094 is the exact one
    here; the program rounds it, and for a remainder just below 0 the
    rounded sum is 360 itself. *)
Definition particle_end (w : World) : World :=
  let g := globals w in
  let t := trk g in
  let y := ystart g in
  let v := sqrt (Rabs (speed2 y)) in
  let pt := y.[5] / conv in
  let pe := fmodl pt 360 in
  let pe := if Rltb pe 0 then 360.0 + pe else pe in
  let k := protneut (cfg g) in
  let c := cfg g in
  let h :=
    if is_NEUTRON k
    then (M c * gravconst * y.[3] + 0.5 * M c * v * v - mu_n (spin g) * Bws (fld g)) * 1E9
    else if is_PROTON k || is_ELECTRONS k
    then c_0 * c_0 * M c * (1 / sqrt (1 - v_n (part g) * v_n (part g) / (c_0 * c_0)) - 1)
    else H_ t in
  let g := set_trk (mkTrack (Zeilencount t) (Filecount t) 0.0 0.0
                      (BahnPointSaveTime t) v h (vlad t) (frac t)
                      (logvlad t) (logfrac t)) g in
  let w := mkWorld g (set_phiend pt pe (R_ (motion w)) (motion w))
             (ndist w) (codes w) (VolumeB w) in
  let endlog := ausgabe (x2 (part g)) y v h w in
  let f := files g in
  let g := set_files (mkFiles (OUTFILE1 f) (BFLOG f) endlog (closed f)
                        (BFZeilencount f) (BFFilecount f)) g in
  let m := motion w in
  mkWorld g (set_phiend (phitemp m) (phiend m) 0 m)
    (ndist w) (IncrementCodes (kennz (part g)) (codes w)) (VolumeB w).

(** The volume of the ring around the point of the scan that line 1154 adds
    to [VolumeB]. *)
Definition ring_volume (sc : Scan) : R :=
  pi * dz_n steps
  * ((r_n sc + 0.5 * dr_n steps) * (r_n sc + 0.5 * dr_n steps)
     - (r_n sc - 0.5 * dr_n steps) * (r_n sc - 0.5 * dr_n steps)).

(** [long double VolumeB[200]] (line 125). *)
Definition VolumeB_size : Z := 200.

(** [EnTest] of line 1150 for the integer [E]. *)
Definition EnTest (g : Globals) (E : Z) : R :=
  IZR E * 1.0e-9 - M (cfg g) * gravconst * z_n (scan g) + mu_n (spin g) * Bws (fld g).

(** The body of the loop of lines 1149-1156; [None] is a write behind the
    end of [VolumeB], where the behaviour of the program is not defined. *)
Definition ramp_heating (g : Globals) (E : Z) (V : option (Z -> R)) : option (Z -> R) :=
  match V with
  | None => None
  | Some V =>
      if Rgeb (EnTest g E) 0 then
        if (E <? VolumeB_size)%Z then Some (upd V E (V E + ring_volume (scan g))) else None
      else Some V
  end.

(** Lines 1135-1158, for a run that only writes the field: [Energie] runs
    over the integers from 0 that are not above [EnergieE].  [BFeldSkal],
    set to 1 in line 1138, is read by [BFeld] only. *)
Definition field_only (w : World) : option World :=
  let g := globals w in
  let sc := scan g in
  let F := BFeld (r_n sc) (phi_n sc) (z_n sc) 500.0 in
  let bws := sqrt (Br F * Br F + Bz F * Bz F + Bphi F * Bphi F) in
  let g := set_fld (mkFelder (Br F) (Bphi F) (Bz F) bws (dBdr F) (dBdz F) (dBdphi F)
                      (dBrdr F) (dBrdphi F) (dBrdz F) (dBphidr F) (dBphidphi F)
                      (dBphidz F) (dBzdr F) (dBzdphi F) (dBzdz F)) g in
  let f := files g in
  let row := EndRow [r_n sc * 100; 0.0; z_n sc * 100; Br F * 1e4; Bphi F * 1e4;
                     Bz F * 1e4; 0.0; 0.0; bws] in
  let g := set_files (mkFiles (OUTFILE1 f) (BFLOG f) (fprintf (ENDLOG f) row) (closed f)
                        (BFZeilencount f) (BFFilecount f)) g in
  let last := Int_part (EnergieE sc) in
  match for_loop 0 last (ramp_heating g) (Some (VolumeB w)) with
  | None => None
  | Some V =>
      let g := set_scan (mkScan (IZR (Z.max 0 (last + 1))) (r_n sc) (z_n sc) (alpha sc)
                           (gammaa sc) (phi_n sc) (EnergieE sc) (r_ne sc) (z_ne sc)
                           (alphae sc) (gammae sc) (phie sc) (dphi sc)) g in
      Some (mkWorld g (motion w) (ndist w) (codes w) V)
  end.

(** How a call ends: it returns, the program is left with [exit(code)], it
    writes behind the end of [VolumeB], or the rounds allowed to the loop are
    used up. *)
Inductive Outcome : Type :=
  | Returns (w : World)
  | Exits (code : Z)
  | Overruns
  | Unfinished.

(** Lines 829-1159: the particle from its start vector to its end. *)
Definition IntegrateParticle_track (fuel : nat) (w : World) : Outcome :=
  let gm := IntegrateParticle_startvector (globals w, motion w) in
  let w := mkWorld gm.1 gm.2 (ndist w) (codes w) (VolumeB w) in
  let k := protneut (cfg (globals w)) in
  let tracked :=
    if is_NEUTRON k || is_PROTON k || is_ELECTRONS k then
      match integration_loop fuel (loop_enter w) with
      | Some (inl w) => Returns (particle_end w)
      | Some (inr code) => Exits code
      | None => Unfinished
      end
    else Returns w in
  match tracked with
  | Returns w =>
      let w := match k with
               | KIND_OTHER 99 => flux_line w
               | _ => w
               end in
      if is_BF_ONLY k then
        match field_only w with
        | Some w => Returns w
        | None => Overruns
        end
      else Returns w
  | r => r
  end.

(** ** Properties of the start vector *)

Lemma positive_constants : 0 < m_n /\ 0 < m_p /\ 0 < m_e /\ 0 < c_0.
Proof. unfold m_n, m_p, m_e, c_0. repeat split; lra. Qed.

(** X1.  The start vector has the speed [v_n]: with the radius not 0 its three
    velocities give [v_n^2]; at the radius 0 the angular velocity is set to 0
    without a division, and the part of the speed along [phi] is lost. *)
Theorem IntegrateParticle_velocity_speed (g : Globals) (m : Motion) :
  protneut (cfg g) <> BF_ONLY ->
  let res := IntegrateParticle_velocity (g, m) in
  let y := ystart res.1 in
  let v := v_n (part g) in
  let sc := scan g in
  y.[1] = r_n sc /\ y.[3] = z_n sc /\ y.[5] = conv * phi_n sc
  /\ y.[2] = vr_n res.2 /\ y.[4] = vz_n res.2
  /\ vr_n res.2 ^ 2 + vphi_n res.2 ^ 2 + vz_n res.2 ^ 2 = v ^ 2
  /\ (r_n sc <> 0 -> y.[6] = vphi_n res.2 / r_n sc /\ speed2 y = v ^ 2)
  /\ (r_n sc = 0 -> y.[6] = 0 /\ speed2 y = v ^ 2 - vphi_n res.2 ^ 2).
Proof.
  intros Hk res y v sc.
  assert (Hb : is_BF_ONLY (protneut (cfg g)) = false)
    by (destruct (protneut (cfg g)); try reflexivity; contradiction).
  pose proof (sin2_cos2 (conv * gammaa sc)) as H1.
  pose proof (sin2_cos2 (conv * (alpha sc - phi_n sc))) as H2.
  unfold Rsqr in H1, H2.
  set (s1 := sin (conv * gammaa sc)) in *. set (c1 := cos (conv * gammaa sc)) in *.
  set (s2 := sin (conv * (alpha sc - phi_n sc))) in *.
  set (c2 := cos (conv * (alpha sc - phi_n sc))) in *.
  assert (Hsq : (v * s1 * c2) ^ 2 + (v * s1 * s2) ^ 2 + (v * c1) ^ 2 = v ^ 2).
  { replace ((v * s1 * c2) ^ 2 + (v * s1 * s2) ^ 2 + (v * c1) ^ 2)
      with (v ^ 2 * (s1 * s1 * (s2 * s2 + c2 * c2) + c1 * c1)) by ring.
    rewrite H2, Rmult_1_r, H1. ring. }
  unfold y, res, IntegrateParticle_velocity. rewrite Hb. cbn [negb].
  fold sc v s1 c1 s2 c2.
  destruct (truthy (TrajectoryLength setup)); unfold set_ytemp, set_velocity;
    cbn [fst snd vr_n vphi_n vz_n];
    (destruct (Req_dec_T (r_n sc) 0) as [H0|H0];
     [ rewrite (Reqb_true _ _ H0) | rewrite (Reqb_false _ _ H0) ]);
    cbn [negb]; unfold set_stop, set_ystart, set_part; cbn [ystart];
    unfold speed2, upd; cbn [Z.eqb Pos.eqb];
    (split; [reflexivity|]); (split; [reflexivity|]); (split; [reflexivity|]);
    (split; [reflexivity|]); (split; [reflexivity|]); (split; [exact Hsq|]);
    (split; intros Hr; [|]); try contradiction;
    (split; [reflexivity|]).
  all: try (rewrite <- Hsq; field; exact H0).
  all: rewrite <- Hsq; ring.
Qed.

(** What the three blocks leave of the state they do not compute. *)
Lemma IntegrateParticle_speed_keeps (g : Globals) (m : Motion) :
  let g' := (IntegrateParticle_speed (g, m)).1 in
  cfg g' = cfg g /\ scan g' = scan g /\ spin g' = spin g /\ fld g' = fld g
  /\ trk g' = trk g /\ ystart g' = ystart g.
Proof.
  unfold IntegrateParticle_speed.
  destruct (is_PROTON (protneut (cfg g))); cbn;
    destruct (is_ELECTRONS (protneut (cfg g))); cbn; repeat split.
Qed.

Lemma IntegrateParticle_velocity_keeps (g : Globals) (m : Motion) :
  let g' := (IntegrateParticle_velocity (g, m)).1 in
  cfg g' = cfg g /\ scan g' = scan g /\ spin g' = spin g /\ fld g' = fld g
  /\ trk g' = trk g /\ v_n (part g') = v_n (part g)
  /\ (protneut (cfg g) <> BF_ONLY -> ystart g' 3%Z = z_n (scan g)).
Proof.
  unfold IntegrateParticle_velocity.
  destruct (is_BF_ONLY (protneut (cfg g))) eqn:Hb; cbn [negb].
  - cbn. repeat split. intros Hk. destruct (protneut (cfg g)); try discriminate Hb.
    contradiction.
  - destruct (truthy (TrajectoryLength setup)); cbn [fst];
      destruct (negb (Reqb (r_n (scan g)) 0)); try destruct (Reqb (r_n (scan g)) 0);
      cbn; repeat split.
Qed.

(** The speed of the start of a proton and of an electron. *)
Lemma startvector_charged (g : Globals) (m : Motion) :
  0 <= Energie (scan g) ->
  protneut (cfg g) = PROTON \/ protneut (cfg g) = ELECTRONS ->
  let res := IntegrateParticle_startvector (g, m) in
  let v := v_n (part res.1) in
  0 <= v
  /\ (protneut (cfg g) = PROTON -> 0.5 * m_p * v * v = Energie (scan g))
  /\ (protneut (cfg g) = ELECTRONS ->
      v < c_0 /\ gammarel res.2 = 1 + Energie (scan g) / (m_e * c_0 * c_0)
      /\ 1 / sqrt (1 - v * v / (c_0 * c_0)) = gammarel res.2).
Proof using Type.
  clear BFeld steps odeint CylKartCoord BFodeintrk OUTPUT_EVERYTHING OUTPUT_EVERYTHINGandSPIN
    OUTPUT_ENDPOINTSandSPIN fopen_fails fillndist IncrementCodes Bcoor ausgabe flux_line.
  clear NDist Codes.
  intros HE Hk res v.
  destruct positive_constants as (_ & Hmp & Hme & Hc).
  set (E := Energie (scan g)) in *.
  pose proof (IntegrateParticle_speed_keeps g m) as (Kc & Ks & _).
  set (gm1 := IntegrateParticle_speed (g, m)) in *.
  pose proof (IntegrateParticle_velocity_keeps gm1.1 gm1.2) as (Vc & Vs & _ & _ & _ & Vv & _).
  assert (Hres : res = IntegrateParticle_energy (IntegrateParticle_velocity gm1)) by reflexivity.
  replace (gm1.1, gm1.2) with gm1 in * by (destruct gm1; reflexivity).
  set (gm2 := IntegrateParticle_velocity gm1) in *.
  assert (Hm2 : gammarel gm2.2 = gammarel gm1.2).
  { unfold gm2, IntegrateParticle_velocity. destruct gm1 as [g1 m1].
    destruct (negb _); [|reflexivity].
    destruct (truthy (TrajectoryLength setup)); reflexivity. }
  destruct Hk as [Hk|Hk].
  - (* proton *)
    assert (Hv1 : v_n (part gm1.1) = sqrt (2 * E / m_p)).
    { unfold gm1, IntegrateParticle_speed. rewrite Hk. cbn. rewrite Hk. reflexivity. }
    assert (Hsq : sqrt (2 * E / m_p) * sqrt (2 * E / m_p) = 2 * E / m_p).
    { apply sqrt_sqrt. apply Rmult_le_pos; [lra|]. left. now apply Rinv_0_lt_compat. }
    assert (Hh : 0.5 * m_p * sqrt (2 * E / m_p) * sqrt (2 * E / m_p) = E).
    { replace (0.5 * m_p * sqrt (2 * E / m_p) * sqrt (2 * E / m_p))
        with (0.5 * m_p * (sqrt (2 * E / m_p) * sqrt (2 * E / m_p))) by ring.
      rewrite Hsq. assert (H05 : 0.5 = 1 / 2) by lra. rewrite H05. field. lra. }
    assert (Hv : v = sqrt (2 * E / m_p)).
    { unfold v. rewrite Hres. unfold IntegrateParticle_energy. destruct gm2 as [g2 m2].
      cbn [fst] in Vc, Vv. rewrite Vc, Kc, Hk. cbn. rewrite Vv. exact Hv1. }
    split; [rewrite Hv; apply sqrt_pos|].
    split; [intros _; rewrite Hv; exact Hh|]. intros Hke. congruence.
  - (* electron *)
    set (gam := E / m_e / c_0 / c_0 + 1).
    assert (Hgam : 1 <= gam).
    { unfold gam. assert (0 <= E / m_e / c_0 / c_0); [|lra].
      unfold Rdiv. repeat apply Rmult_le_pos; try exact HE; left;
        now apply Rinv_0_lt_compat. }
    set (a := 1 - 1 / (gam * gam)).
    assert (Hgg : 1 <= gam * gam) by nra.
    assert (Ha : 0 <= a < 1).
    { unfold a. assert (0 < 1 / (gam * gam) <= 1); [|lra]. split.
      - apply Rdiv_lt_0_compat; lra.
      - apply Rmult_le_reg_r with (gam * gam); [lra|]. field_simplify; lra. }
    assert (Hv1 : v_n (part gm1.1) = c_0 * sqrt a /\ gammarel gm1.2 = gam).
    { unfold gm1, IntegrateParticle_speed. rewrite Hk. cbn. rewrite Hk. cbn.
      split; reflexivity. }
    destruct Hv1 as [Hv1 Hg1].
    assert (Hsa : sqrt a * sqrt a = a) by (apply sqrt_sqrt; lra).
    assert (Hone : 1 - c_0 * sqrt a * (c_0 * sqrt a) / (c_0 * c_0) = 1 / gam * (1 / gam)).
    { replace (c_0 * sqrt a * (c_0 * sqrt a)) with (c_0 * c_0 * (sqrt a * sqrt a)) by ring.
      rewrite Hsa. unfold a. field. lra. }
    assert (Hroot : 1 / sqrt (1 - c_0 * sqrt a * (c_0 * sqrt a) / (c_0 * c_0)) = gam).
    { rewrite Hone, sqrt_square; [field; lra|].
      apply Rlt_le, Rdiv_lt_0_compat; lra. }
    assert (Hv : v = c_0 * sqrt a /\ gammarel res.2 = gam).
    { unfold v. rewrite Hres. unfold IntegrateParticle_energy. destruct gm2 as [g2 m2].
      cbn [fst snd] in Vc, Vv, Hm2. rewrite Vc, Kc, Hk. cbn. rewrite Vv, Hm2. tauto. }
    destruct Hv as [Hv Hg].
    split; [rewrite Hv; apply Rmult_le_pos; [lra|apply sqrt_pos]|].
    split; [intros Hkp; congruence|]. intros _.
    split; [|split].
    + rewrite Hv. assert (sqrt a < 1); [|nra].
      rewrite <- sqrt_1. apply sqrt_lt_1; lra.
    + rewrite Hg. unfold gam. field. lra.
    + rewrite Hg, Hv. exact Hroot.
Qed.

(** X2.  The energy of the start is the kinetic energy the particle is started
    with: a proton or an electron of the kinetic energy [Energie], which is
    not negative, gets the speed that gives [H = Energie] back, without and
    with relativity; the speed of the electron is below the speed of
    light. *)
Theorem IntegrateParticle_charged_energy (g : Globals) (m : Motion) :
  0 <= Energie (scan g) ->
  protneut (cfg g) = PROTON \/ protneut (cfg g) = ELECTRONS ->
  let res := IntegrateParticle_startvector (g, m) in
  let v := v_n (part res.1) in
  H_ (trk res.1) = Energie (scan g) /\ Hmax (part res.1) = Energie (scan g)
  /\ 0 <= v
  /\ (protneut (cfg g) = PROTON -> 0.5 * m_p * v * v = Energie (scan g))
  /\ (protneut (cfg g) = ELECTRONS ->
      v < c_0 /\ gammarel res.2 = 1 + Energie (scan g) / (m_e * c_0 * c_0)
      /\ 1 / sqrt (1 - v * v / (c_0 * c_0)) = gammarel res.2).
Proof using Type.
  clear BFeld steps odeint CylKartCoord BFodeintrk OUTPUT_EVERYTHING OUTPUT_EVERYTHINGandSPIN
    OUTPUT_ENDPOINTSandSPIN fopen_fails fillndist IncrementCodes Bcoor ausgabe flux_line.
  clear NDist Codes.
  intros HE Hk res v.
  destruct positive_constants as (_ & Hmp & Hme & Hc).
  destruct (startvector_charged g m HE Hk) as (Hv0 & Hp & He).
  fold res in Hv0, Hp, He. fold v in Hv0, Hp, He.
  assert (Hc2 : cfg (IntegrateParticle_velocity (IntegrateParticle_speed (g, m))).1 = cfg g).
  { destruct (IntegrateParticle_speed_keeps g m) as (Kc & _).
    destruct (IntegrateParticle_speed (g, m)) as [g1 m1].
    destruct (IntegrateParticle_velocity_keeps g1 m1) as (Vc & _).
    cbn [fst] in Kc. rewrite Vc. exact Kc. }
  (* [Hmax] is set to [H] *)
  assert (Hm : Hmax (part res.1) = H_ (trk res.1)).
  { unfold res, IntegrateParticle_startvector.
    generalize (IntegrateParticle_velocity (IntegrateParticle_speed (g, m))).
    intros [g2 m2]. unfold IntegrateParticle_energy. cbv zeta.
    destruct (is_NEUTRON _); reflexivity. }
  (* [H] is the energy of the speed [v] *)
  assert (HH : H_ (trk res.1) = Energie (scan g)).
  { unfold v, res, IntegrateParticle_startvector in *.
    revert Hc2 Hp He.
    generalize (IntegrateParticle_velocity (IntegrateParticle_speed (g, m))).
    intros [g2 m2] Hc2 Hp He. cbn [fst] in Hc2.
    unfold IntegrateParticle_energy in *. rewrite Hc2 in *.
    destruct Hk as [Hk|Hk]; rewrite Hk in *; cbn in Hp, He |- *.
    - exact (Hp eq_refl).
    - destruct (He eq_refl) as (_ & Hg & Hr). rewrite Hr, Hg. field. lra. }
  split; [exact HH|]. split; [rewrite Hm; exact HH|].
  split; [exact Hv0|]. split; [exact Hp|exact He].
Qed.

(** X3.  A neutron of the mass [m_n] whose kinetic energy at the start is not
    negative is started (no early return) with the speed of that energy, and
    the energy of the start, in neV, is the [Energie] it was given, in eV,
    whatever the field and the height of the start are. *)
Theorem IntegrateParticle_neutron_energy (g : Globals) (m : Motion) :
  protneut (cfg g) = NEUTRON -> M (cfg g) = m_n -> bfeldwahl (cfg g) <> 3%Z ->
  0 <= start_Ekin BFeld g ->
  let g1 := (IntegrateParticle_neutron BFeld g).1 in
  let res := IntegrateParticle_startvector (g1, m) in
  (IntegrateParticle_neutron BFeld g).2 = false
  /\ 0.5 * m_n * (v_n (part res.1) * v_n (part res.1)) = start_Ekin BFeld g
  /\ H_ (trk res.1) = Energie (scan g) * 1E9
  /\ Hmax (part res.1) = Energie (scan g) * 1E9.
Proof.
  intros Hk HM Hb HE g1 res.
  destruct positive_constants as (Hmn & _).
  set (ekin := start_Ekin BFeld g) in *.
  assert (Hn : IntegrateParticle_neutron BFeld g
               = (neutron_started ekin (neutron_field BFeld g), false)).
  { unfold IntegrateParticle_neutron. rewrite Hk. cbn [is_NEUTRON]. fold ekin.
    assert (H0 : Rgeb ekin 0.0 = true) by (apply Rgeb_spec; lra).
    rewrite H0. reflexivity. }
  assert (Hg1 : g1 = neutron_started ekin (neutron_field BFeld g))
    by (unfold g1; rewrite Hn; reflexivity).
  assert (Hv1 : v_n (part g1) = sqrt (2 / m_n * ekin)).
  { rewrite Hg1. unfold neutron_started. cbn [part set_part v_n].
    replace (cfg (neutron_field BFeld g)) with (cfg g) by reflexivity.
    rewrite (proj2 (Z.eqb_neq _ _) Hb), HM. f_equal. lra. }
  assert (Hc1 : cfg g1 = cfg g /\ scan g1 = scan g /\ spin g1 = spin g
                /\ Bws (fld g1)
                   = Bws (BFeld (r_n (scan g)) (phi_n (scan g) * conv) (z_n (scan g)) 0.0)).
  { rewrite Hg1. repeat split. }
  destruct Hc1 as (Hc1 & Hs1 & Hsp1 & HB1).
  pose proof (IntegrateParticle_speed_keeps g1 m) as (Kc & Ks & Ksp & Kf & _).
  assert (Kv : v_n (part (IntegrateParticle_speed (g1, m)).1) = v_n (part g1)).
  { unfold IntegrateParticle_speed. rewrite Hc1, Hk. cbn [is_PROTON].
    rewrite Hc1, Hk. reflexivity. }
  set (gm1 := IntegrateParticle_speed (g1, m)) in *.
  pose proof (IntegrateParticle_velocity_keeps gm1.1 gm1.2)
    as (Vc & Vs & Vsp & Vf & _ & Vv & Vz).
  replace (gm1.1, gm1.2) with gm1 in * by (destruct gm1; reflexivity).
  assert (Hres : res = IntegrateParticle_energy (IntegrateParticle_velocity gm1)) by reflexivity.
  set (gm2 := IntegrateParticle_velocity gm1) in *.
  assert (Hz : ystart gm2.1 3%Z = z_n (scan g)).
  { rewrite Vz; [now rewrite Ks, Hs1|]. rewrite Kc, Hc1, Hk. discriminate. }
  assert (Hsq : sqrt (2 / m_n * ekin) * sqrt (2 / m_n * ekin) = 2 / m_n * ekin).
  { apply sqrt_sqrt. apply Rmult_le_pos; [|exact HE].
    apply Rlt_le, Rdiv_lt_0_compat; lra. }
  assert (Hkin : 0.5 * m_n * (sqrt (2 / m_n * ekin) * sqrt (2 / m_n * ekin)) = ekin).
  { rewrite Hsq. assert (H05 : 0.5 = 1 / 2) by lra. rewrite H05. field. lra. }
  assert (HH : v_n (part res.1) = sqrt (2 / m_n * ekin)
               /\ H_ (trk res.1) = Energie (scan g) * 1E9
               /\ Hmax (part res.1) = Energie (scan g) * 1E9).
  { rewrite Hres. unfold IntegrateParticle_energy. destruct gm2 as [g2 m2].
    cbn [fst] in Vc, Vs, Vsp, Vf, Vv, Hz. rewrite Vc, Kc, Hc1, Hk.
    cbn [is_NEUTRON fst]. cbn [set_Hmax set_vend_H set_part set_trk part trk H_ Hmax v_n].
    rewrite Vv, Kv, Hv1, Hz, Vsp, Ksp, Hsp1, Vf, Kf, HB1.
    assert (HHval : (m_n * gravconst * z_n (scan g)
                     + 0.5 * m_n * sqrt (2 / m_n * ekin) * sqrt (2 / m_n * ekin)
                     - mu_n (spin g)
                       * Bws (BFeld (r_n (scan g)) (phi_n (scan g) * conv) (z_n (scan g)) 0.0))
                    * 1E9 = Energie (scan g) * 1E9).
    { replace (0.5 * m_n * sqrt (2 / m_n * ekin) * sqrt (2 / m_n * ekin))
        with (0.5 * m_n * (sqrt (2 / m_n * ekin) * sqrt (2 / m_n * ekin))) by ring.
      rewrite Hkin. unfold ekin, start_Ekin. rewrite HM. ring. }
    split; [reflexivity|]. split; exact HHval. }
  destruct HH as (Hv & HH1 & HH2).
  split; [rewrite Hn; reflexivity|]. split; [rewrite Hv; exact Hkin|].
  split; [exact HH1|exact HH2].
Qed.

(** ** Properties of the step *)

Lemma step_length_eq (g : Globals) :
  step_length g
  = (if truthy (BruteForce (cfg g)) && Rltb (Bws (fld g)) (BFTargetB (cfg g) + 0.1)
     then delx (cfg g) / 10 else delx (cfg g)).
Proof.
  unfold step_length. destruct (truthy (BruteForce (cfg g))); cbn.
  - rewrite !andb_true_r.
    destruct (Rltb (Bws (fld g)) (BFTargetB (cfg g) + 0.1)) eqn:Hlt; [reflexivity|].
    rewrite Rltb_false; [reflexivity|].
    destruct (Rlt_dec (Bws (fld g)) (BFTargetB (cfg g) + 0.1)) as [Hl|Hl].
    + apply Rltb_true in Hl. congruence.
    + lra.
  - rewrite !andb_false_r. reflexivity.
Qed.

(** X4.  The second test of lines 922-927 is never reached with a true
    condition: in brute-force mode the step is a tenth of [delx] wherever
    [|B|] is below [BFTargetB + 0.1], and it is never a hundredth. *)
Theorem step_length_never_a_hundredth (g : Globals) :
  let c := cfg g in
  step_length g
  = (if truthy (BruteForce c) && Rltb (Bws (fld g)) (BFTargetB c + 0.1)
     then delx c / 10 else delx c)
  /\ (delx c <> 0 -> step_length g <> delx c / 100)
  /\ (truthy (BruteForce c) = false -> step_length g = delx c).
Proof.
  intros c.
  pose proof (step_length_eq g) as H1. fold c in H1.
  split; [exact H1|]. split.
  - intros Hd. rewrite H1.
    destruct (truthy (BruteForce c) && Rltb (Bws (fld g)) (BFTargetB c + 0.1));
      intros Heq; apply Hd; lra.
  - intros Hf. rewrite H1, Hf. reflexivity.
Qed.

(** X5.  The angle is brought back by one turn, to either side and never both: an
    angle of at most two turns ends between [-2 pi] and [2 pi], one of more
    than two turns stays above a turn, and what is taken off is 0 or one
    turn of [2 pi], the other five values being left as they are. *)
Theorem wrap_phi_one_turn (y : Z -> R) :
  let y' := wrap_phi y in
  let phi := y 5%Z in
  (forall i, i <> 5%Z -> y' i = y i)
  /\ y' 5%Z = (if Rlt_dec (2 * pi) phi then phi - 2 * pi
               else if Rlt_dec phi (- (2 * pi)) then phi + 2 * pi else phi)
  /\ (- (4 * pi) <= phi <= 4 * pi -> - (2 * pi) <= y' 5%Z <= 2 * pi)
  /\ (4 * pi < phi -> 2 * pi < y' 5%Z)
  /\ (phi < - (4 * pi) -> y' 5%Z < - (2 * pi)).
Proof.
  intros y' phi.
  assert (Hpi : 0 < pi) by (unfold pi; lra).
  assert (H20 : 2.0 = 2) by lra.
  assert (Hval : y' 5%Z = (if Rlt_dec (2 * pi) phi then phi - 2 * pi
                           else if Rlt_dec phi (- (2 * pi)) then phi + 2 * pi else phi)).
  { unfold y', wrap_phi. fold phi. rewrite H20.
    assert (Hy : forall v, upd y 5 v 5%Z = v) by reflexivity.
    destruct (Rgtb phi (2 * pi)) eqn:Hg.
    - apply Rgtb_spec in Hg. rewrite Hy. rewrite Rltb_false by lra. rewrite Hy.
      destruct (Rlt_dec (2 * pi) phi); [reflexivity|lra].
    - assert (Hng : ~ 2 * pi < phi).
      { intros Hlt. apply Rgtb_spec in Hlt. congruence. }
      fold phi. destruct (Rlt_dec (2 * pi) phi); [contradiction|].
      destruct (Rlt_dec phi (- (2 * pi))) as [Hlt|Hlt].
      + rewrite Rltb_true by lra. apply Hy.
      + rewrite Rltb_false by lra. reflexivity. }
  split.
  - intros i Hi. unfold y', wrap_phi.
    destruct (Rgtb _ _); destruct (Rltb _ _); unfold upd;
      rewrite ?(proj2 (Z.eqb_neq _ _) Hi); reflexivity.
  - split; [exact Hval|]. rewrite Hval.
    repeat split; intros; destruct (Rlt_dec (2 * pi) phi); try destruct (Rlt_dec phi (- (2 * pi)));
      lra.
Qed.

(** ** Properties of the loop *)

(** What the output of a round and the Bloch integration leave alone: the
    configuration, the particle with its times, the vector of the integrator,
    the scan and the counter of the calls. *)
Definition kept (g g' : Globals) : Prop :=
  cfg g' = cfg g /\ part g' = part g /\ ystart g' = ystart g
  /\ nintcalls g' = nintcalls g /\ scan g' = scan g
  /\ ENDLOG (files g') = ENDLOG (files g).

Lemma kept_refl g : kept g g.
Proof. repeat split. Qed.

Lemma kept_trans a b c : kept a b -> kept b c -> kept a c.
Proof.
  intros (A1 & A2 & A3 & A4 & A5 & A6) (B1 & B2 & B3 & B4 & B5 & B6).
  repeat split; congruence.
Qed.


Lemma BF_threshold_kept g : kept g (BF_threshold g).
Proof. repeat split. Qed.

Lemma BF_polarisation_kept g : kept g (BF_polarisation g).
Proof.
  unfold BF_polarisation. cbv zeta.
  destruct (_ && _); [|apply kept_refl].
  destruct (truthy _); [|repeat split].
  unfold mt_get_double. destruct (Rltb _ _); repeat split.
Qed.

Lemma BF_firstint_kept g : kept g (BF_firstint g).
Proof. unfold BF_firstint. cbv zeta. destruct (Rgtb _ _); repeat split. Qed.

Lemma BF_buffer_kept g : kept g (BF_buffer CylKartCoord g).
Proof. unfold BF_buffer. cbv zeta. destruct (Rltb _ _); repeat split. Qed.

Lemma BF_write_kept_all o k g : kept g (BF_write o k g).
Proof. repeat split. Qed.

Lemma BF_integrate_kept g :
  kept g (BF_integrate BFodeintrk OUTPUT_EVERYTHINGandSPIN OUTPUT_ENDPOINTSandSPIN g).
Proof.
  unfold BF_integrate. destruct (BF_integrates g); [|apply kept_refl].
  destruct (BF_call BFodeintrk (BF_first_spin (bf g))) as [I o].
  set (b := BF_first_spin (bf g)).
  set (g1 := set_bf _ (set_bfout o g)).
  assert (H1 : kept g g1) by (repeat split).
  cbv zeta.
  set (g2 := if (_ || _)%bool then _ else g1).
  assert (H2 : kept g g2).
  { unfold g2. destruct (_ || _)%bool; [|exact H1].
    apply for_loop_keeps; [exact H1|].
    intros k s Hs. apply kept_trans with s; [exact Hs|apply BF_write_kept_all]. }
  destruct H2 as (A1 & A2 & A3 & A4 & A5 & A6). repeat split; assumption.
Qed.

Lemma BruteForceIntegration_kept g :
  kept g (BruteForceIntegration CylKartCoord BFodeintrk OUTPUT_EVERYTHINGandSPIN
            OUTPUT_ENDPOINTSandSPIN g).
Proof.
  unfold BruteForceIntegration.
  eapply kept_trans; [|apply BF_integrate_kept].
  eapply kept_trans; [|apply BF_buffer_kept].
  eapply kept_trans; [|apply BF_firstint_kept].
  eapply kept_trans; [|apply BF_polarisation_kept].
  apply BF_threshold_kept.
Qed.

Lemma save_time_kept g : kept g (save_time g).
Proof. repeat split. Qed.

Lemma track_dense_kept k g : kept g (track_dense k g).
Proof.
  unfold track_dense. cbv zeta. destruct (Rgeb _ _); [|apply kept_refl].
  destruct (update_logs g (trk g)). repeat split.
Qed.

Lemma track_point_kept g : kept g (track_point BFeld g).
Proof.
  unfold track_point. cbv zeta. destruct (Rgeb _ _); [|apply kept_refl].
  destruct (update_logs _ _). repeat split.
Qed.

Lemma track_output_kept g :
  kept g (track_output BFeld OUTPUT_EVERYTHING OUTPUT_EVERYTHINGandSPIN g).
Proof.
  unfold track_output. cbv zeta.
  destruct (_ && _).
  - apply for_loop_keeps; [apply kept_refl|].
    intros k s Hs. apply kept_trans with s; [exact Hs|apply track_dense_kept].
  - destruct (_ && _); [apply track_point_kept|apply kept_refl].
Qed.

Lemma track_rollover_kept g : kept g (track_rollover g).
Proof. unfold track_rollover. cbv zeta. destruct (_ >? _)%Z; repeat split. Qed.

Lemma loop_output_kept g g' :
  loop_output BFeld CylKartCoord BFodeintrk OUTPUT_EVERYTHING OUTPUT_EVERYTHINGandSPIN
    OUTPUT_ENDPOINTSandSPIN fopen_fails g = inl g' ->
  kept g g'.
Proof.
  unfold loop_output. cbv zeta. intros H.
  set (gb := if truthy (BruteForce (cfg (save_time g)))
             then BruteForceIntegration CylKartCoord BFodeintrk OUTPUT_EVERYTHINGandSPIN
                    OUTPUT_ENDPOINTSandSPIN (save_time g)
             else save_time g) in *.
  assert (Hb : kept g gb).
  { unfold gb. destruct (truthy _); [|apply save_time_kept].
    apply kept_trans with (save_time g); [apply save_time_kept|].
    apply BruteForceIntegration_kept. }
  set (gt := track_rollover (track_output BFeld OUTPUT_EVERYTHING OUTPUT_EVERYTHINGandSPIN gb))
    in *.
  assert (Ht : kept g gt).
  { apply kept_trans with gb; [exact Hb|].
    eapply kept_trans; [apply track_output_kept|apply track_rollover_kept]. }
  unfold BF_rollover in H. cbv zeta in H.
  destruct (_ && _); [destruct (fopen_fails _); [discriminate|]|];
    injection H as <-; [|exact Ht].
  destruct Ht as (A1 & A2 & A3 & A4 & A5 & A6). repeat split; assumption.
Qed.

(** [odeint] leaves the configuration, the times of the particle, the scan
    and the counter of the calls. *)
Lemma call_odeint_keeps stepper g :
  let g' := call_odeint stepper g in
  cfg g' = cfg g /\ scan g' = scan g /\ nintcalls g' = nintcalls g
  /\ x1 (part g') = x1 (part g) /\ x2 (part g') = x2 (part g)
  /\ xstart (part g') = xstart (part g) /\ xend (part g') = xend (part g)
  /\ Hmax (part g') = Hmax (part g) /\ v_n (part g') = v_n (part g)
  /\ files g' = files g.
Proof. repeat split. Qed.

(** What a round does with the times and the counters. *)
Lemma loop_integrate_times (w : World) :
  let g := globals w in
  let y := ystart g in
  let d := step_length (set_fld (BFeld y.[1] y.[5] y.[3] (x2 (part g))) g) in
  let w' := loop_integrate w in
  let g' := globals w' in
  cfg g' = cfg g /\ scan g' = scan g
  /\ x1 (part g') = x2 (part g) /\ x2 (part g') = x2 (part g) + d
  /\ xstart (part g') = xstart (part g) /\ xend (part g') = xend (part g)
  /\ nintcalls g' = nintcalls g + 1
  /\ delx_n (motion w') = d
  /\ schritte (motion w') = (schritte (motion w) + 1)%Z
  /\ ntotalsteps (motion w') = ntotalsteps (motion w) + IZR (kount (dense g'))
  /\ Hmax (part g) <= Hmax (part g') /\ H_ (trk g') <= Hmax (part g')
  /\ codes w' = codes w /\ VolumeB w' = VolumeB w
  /\ v_n (part g') = v_n (part g) /\ files g' = files g
  /\ ytemp1 (motion w')
     = (if truthy (TrajectoryLength setup) then y.[1] else ytemp1 (motion w))
  /\ ytemp3 (motion w') = y.[3] /\ ytemp5 (motion w') = y.[5].
Proof.
  intros g y d w' g'. unfold g', w', loop_integrate. fold g. fold y. cbv zeta.
  fold d.
  set (g1 := set_ystart (wrap_phi y) (set_times _ _ _)).
  set (g2 := if (runge setup =? 2)%Z then call_odeint true g1 else g1).
  set (g3 := if (runge setup =? 1)%Z then call_odeint false g2 else g2).
  assert (H2 : cfg g2 = cfg g /\ scan g2 = scan g /\ nintcalls g2 = nintcalls g
               /\ x1 (part g2) = x2 (part g) /\ x2 (part g2) = x2 (part g) + d
               /\ xstart (part g2) = xstart (part g) /\ xend (part g2) = xend (part g)
               /\ Hmax (part g2) = Hmax (part g) /\ v_n (part g2) = v_n (part g)
               /\ files g2 = files g).
  { unfold g2. destruct (_ =? 2)%Z; repeat split. }
  assert (H3 : cfg g3 = cfg g /\ scan g3 = scan g /\ nintcalls g3 = nintcalls g
               /\ x1 (part g3) = x2 (part g) /\ x2 (part g3) = x2 (part g) + d
               /\ xstart (part g3) = xstart (part g) /\ xend (part g3) = xend (part g)
               /\ Hmax (part g3) = Hmax (part g) /\ v_n (part g3) = v_n (part g)
               /\ files g3 = files g).
  { unfold g3. destruct (_ =? 1)%Z; [|exact H2].
    destruct H2 as (A1 & A2 & A3 & A4 & A5 & A6 & A7 & A8 & A9 & A10).
    destruct (call_odeint_keeps false g2)
      as (B1 & B2 & B3 & B4 & B5 & B6 & B7 & B8 & B9 & B10).
    repeat split; congruence. }
  destruct H3 as (A1 & A2 & A3 & A4 & A5 & A6 & A7 & A8 & A9 & A10).
  set (g4 := set_nintcalls (nintcalls g3 + 1) g3).
  set (v := sqrt (Rabs (speed2 (ystart g4)))).
  set (h := energy_H g4 v (ystart g4 3%Z) (Bws (fld g4))).
  destruct (Rgtb h (Hmax (part (set_vend_H v h g4)))) eqn:Hgt; cbn;
    rewrite ?A1, ?A2, ?A3, ?A4, ?A5, ?A6, ?A7, ?A8, ?A9, ?A10.
  - apply Rgtb_spec in Hgt. cbn in Hgt. rewrite A8 in Hgt.
    repeat split; try reflexivity; lra.
  - assert (Hle : h <= Hmax (part g)).
    { destruct (Rle_dec h (Hmax (part g))) as [Hl|Hl]; [exact Hl|].
      assert (Hlt : Hmax (part (set_vend_H v h g4)) < h) by (cbn; rewrite A8; lra).
      apply Rgtb_spec in Hlt. congruence. }
    repeat split; try reflexivity; lra.
Qed.

Lemma step_length_cases (g : Globals) :
  step_length g = delx (cfg g) / 10 \/ step_length g = delx (cfg g).
Proof.
  rewrite step_length_eq. destruct (_ && _); [left|right]; reflexivity.
Qed.

Lemma step_length_plain (g : Globals) :
  truthy (BruteForce (cfg g)) = false -> step_length g = delx (cfg g).
Proof. intros H. rewrite step_length_eq, H. reflexivity. Qed.

(** A round that does not end the program. *)
Lemma loop_round_spec (w w' : World) :
  loop_round w = inl w' ->
  let g := globals w in
  let g' := globals w' in
  let d := x2 (part g') - x1 (part g') in
  cfg g' = cfg g /\ scan g' = scan g
  /\ x1 (part g') = x2 (part g)
  /\ (d = delx (cfg g) / 10 \/ d = delx (cfg g))
  /\ (truthy (BruteForce (cfg g)) = false -> d = delx (cfg g))
  /\ delx_n (motion w') = d
  /\ xstart (part g') = xstart (part g) /\ xend (part g') = xend (part g)
  /\ nintcalls g' = nintcalls g + 1
  /\ schritte (motion w') = (schritte (motion w) + 1)%Z
  /\ Hmax (part g) <= Hmax (part g')
  /\ v_n (part g') = v_n (part g)
  /\ ytemp1 (motion w')
     = (if truthy (TrajectoryLength setup) then ystart g 1%Z else ytemp1 (motion w))
  /\ ytemp3 (motion w') = ystart g 3%Z /\ ytemp5 (motion w') = ystart g 5%Z
  /\ codes w' = codes w /\ VolumeB w' = VolumeB w
  /\ ENDLOG (files g') = ENDLOG (files g).
Proof.
  intros H g g' d. subst g g' d. revert H.
  unfold loop_round. cbv zeta.
  pose proof (loop_integrate_times w) as T. cbv zeta in T.
  pose proof (step_length_cases
                (set_fld (BFeld (ystart (globals w) 1%Z) (ystart (globals w) 5%Z)
                            (ystart (globals w) 3%Z) (x2 (part (globals w)))) (globals w)))
    as Hcases.
  pose proof (step_length_plain
                (set_fld (BFeld (ystart (globals w) 1%Z) (ystart (globals w) 5%Z)
                            (ystart (globals w) 3%Z) (x2 (part (globals w)))) (globals w)))
    as Hplain.
  revert T Hcases Hplain.
  generalize (step_length
                (set_fld (BFeld (ystart (globals w) 1%Z) (ystart (globals w) 5%Z)
                            (ystart (globals w) 3%Z) (x2 (part (globals w)))) (globals w))).
  change (cfg (set_fld (BFeld (ystart (globals w) 1%Z) (ystart (globals w) 5%Z)
                            (ystart (globals w) 3%Z) (x2 (part (globals w)))) (globals w)))
    with (cfg (globals w)).
  generalize (loop_integrate w). intros w1 sl T Hcases Hplain H.
  destruct (loop_output _ _ _ _ _ _ _ (globals w1)) as [g2|code] eqn:Ho; [|discriminate].
  apply loop_output_kept in Ho. destruct Ho as (K1 & K2 & K3 & K4 & K5 & K6).
  injection H as Hw. subst w'.
  destruct T as (T1 & T2 & T3 & T4 & T5 & T6 & T7 & T8 & T9 & _ & T11 & _
                 & T13 & T14 & T15 & T16 & T17 & T18 & T19).
  generalize (Entkommen (ystart g2) (x2 (part g2)) (H_ (trk g2))
                (stopall (part g2), kennz (part g2))).
  intros sk. cbn.
  rewrite K1, K2, K4, K5, K6, T1, T2, T3, T4, T5, T6, T7, T8, T9, T13, T14, T15, T16,
    T17, T18, T19.
  replace (x2 (part (globals w)) + sl - x2 (part (globals w))) with sl by ring.
  repeat split; try assumption.
Qed.

(** X6.  The loop returns after one round or more, at most as many as were
    allowed.  Every round adds one to [schritte] (an [int] of the program:
    the count is stated for a run in which it stays below [2^31]), the
    largest energy never goes down, the configuration, the point of the
    scan, [xstart] and [xend] are left as they are, and the loop is left
    only with the time of the particle over or with [stopall] set. *)
Theorem integration_loop_rounds (fuel : nat) (w w' : World) :
  integration_loop fuel w = Some (inl w') ->
  let g := globals w in
  let g' := globals w' in
  exists n : nat,
    (1 <= n <= fuel)%nat
    /\ ((- 2 ^ 31 <= schritte (motion w))%Z ->
        (schritte (motion w) + Z.of_nat n < 2 ^ 31)%Z ->
        schritte (motion w') = (schritte (motion w) + Z.of_nat n)%Z)
    /\ Hmax (part g) <= Hmax (part g')
    /\ cfg g' = cfg g /\ scan g' = scan g
    /\ xstart (part g') = xstart (part g) /\ xend (part g') = xend (part g)
    /\ (xend (part g') < x2 (part g') - xstart (part g') \/ stopall (part g') <> 0%Z).
Proof.
  revert w. induction fuel as [|fuel IH]; intros w; [discriminate|].
  cbn [integration_loop].
  destruct (loop_round w) as [w1|code] eqn:Hr; [|discriminate].
  pose proof (loop_round_spec w w1 Hr) as R. cbv zeta in R.
  destruct R as (R1 & R2 & R3 & R4 & R5 & R6 & R7 & R8 & R9 & R10 & R11 & _).
  destruct (loop_goes_on (globals w1)) eqn:Hgo; intros H.
  - specialize (IH w1 H). cbv zeta in IH.
    destruct IH as (n & Hn & I2 & I6 & I7 & I8 & I9 & I10 & I11).
    exists (S n).
    split; [lia|].
    split; [intros Hlo Hhi; rewrite I2; lia|].
    split; [lra|].
    split; [congruence|]. split; [congruence|]. split; [congruence|].
    split; [congruence|]. exact I11.
  - injection H as <-. exists 1%nat.
    split; [lia|]. split; [intros _ _; lia|].
    split; [exact R11|].
    split; [exact R1|]. split; [exact R2|]. split; [exact R7|]. split; [exact R8|].
    unfold loop_goes_on in Hgo. apply andb_false_iff in Hgo as [Hgo|Hgo].
    + left. destruct (Rle_dec (x2 (part (globals w1)) - xstart (part (globals w1)))
                        (xend (part (globals w1)))) as [Hl|Hl]; [|lra].
      apply Rleb_true in Hl. congruence.
    + right. unfold truthy in Hgo. rewrite negb_involutive in Hgo.
      apply Z.eqb_neq in Hgo. exact Hgo.
Qed.

(** ** The loop as a whole *)

(** What the loop leaves alone. *)
Lemma integration_loop_keeps (fuel : nat) (w w' : World) :
  integration_loop fuel w = Some (inl w') ->
  cfg (globals w') = cfg (globals w) /\ scan (globals w') = scan (globals w)
  /\ v_n (part (globals w')) = v_n (part (globals w))
  /\ codes w' = codes w /\ VolumeB w' = VolumeB w
  /\ ENDLOG (files (globals w')) = ENDLOG (files (globals w)).
Proof.
  revert w. induction fuel as [|fuel IH]; intros w; [discriminate|].
  cbn [integration_loop].
  destruct (loop_round w) as [w1|code] eqn:Hr; [|discriminate].
  pose proof (loop_round_spec w w1 Hr) as R. cbv zeta in R.
  destruct R as (R1 & R2 & _ & _ & _ & _ & _ & _ & _ & _ & _ & R12 & _ & _ & _
                 & R16 & R17 & R18).
  destruct (loop_goes_on (globals w1)); intros H.
  - destruct (IH w1 H) as (I1 & I2 & I3 & I4 & I5 & I6).
    repeat split; congruence.
  - injection H as <-. repeat split; assumption.
Qed.

(** The output of a round leaves the program only where the next spin log
    cannot be opened. *)
Lemma loop_output_exit (g : Globals) (code : Z) :
  loop_output BFeld CylKartCoord BFodeintrk OUTPUT_EVERYTHING OUTPUT_EVERYTHINGandSPIN
    OUTPUT_ENDPOINTSandSPIN fopen_fails g = inr code ->
  code = 1%Z /\ truthy (BruteForce (cfg g)) = true /\ exists name, fopen_fails name = true.
Proof.
  unfold loop_output. cbv zeta.
  set (gb := if truthy (BruteForce (cfg (save_time g)))
             then BruteForceIntegration CylKartCoord BFodeintrk OUTPUT_EVERYTHINGandSPIN
                    OUTPUT_ENDPOINTSandSPIN (save_time g)
             else save_time g).
  assert (Hb : kept g gb).
  { unfold gb. destruct (truthy _); [|apply save_time_kept].
    apply kept_trans with (save_time g); [apply save_time_kept|].
    apply BruteForceIntegration_kept. }
  assert (Ht : kept g (track_rollover
                         (track_output BFeld OUTPUT_EVERYTHING OUTPUT_EVERYTHINGandSPIN gb))).
  { apply kept_trans with gb; [exact Hb|].
    eapply kept_trans; [apply track_output_kept|apply track_rollover_kept]. }
  revert Ht.
  generalize (track_rollover (track_output BFeld OUTPUT_EVERYTHING OUTPUT_EVERYTHINGandSPIN gb)).
  intros gt (Hc & _). unfold BF_rollover. cbv zeta. rewrite Hc.
  destruct (BFZeilencount (files gt) >? 100000)%Z; cbn [andb]; [|discriminate].
  destruct (truthy (BruteForce (cfg g))); [|discriminate].
  destruct (fopen_fails _) eqn:Hf; [|discriminate].
  intros H. injection H as <-. split; [reflexivity|]. split; [reflexivity|].
  eexists. exact Hf.
Qed.

Lemma loop_round_exit (w : World) (code : Z) :
  loop_round w = inr code ->
  code = 1%Z /\ truthy (BruteForce (cfg (globals w))) = true
  /\ exists name, fopen_fails name = true.
Proof.
  unfold loop_round. cbv zeta.
  destruct (loop_integrate_times w) as (T1 & _). revert T1.
  generalize (loop_integrate w). intros w1 T1.
  destruct (loop_output _ _ _ _ _ _ _ (globals w1)) as [g2|c] eqn:Ho; [discriminate|].
  intros H. injection H as <-. apply loop_output_exit in Ho. rewrite T1 in Ho. exact Ho.
Qed.

Lemma integration_loop_exit (fuel : nat) (w : World) (code : Z) :
  integration_loop fuel w = Some (inr code) ->
  code = 1%Z /\ truthy (BruteForce (cfg (globals w))) = true
  /\ exists name, fopen_fails name = true.
Proof.
  revert w. induction fuel as [|fuel IH]; intros w; [discriminate|].
  cbn [integration_loop].
  destruct (loop_round w) as [w1|c] eqn:Hr.
  - pose proof (loop_round_spec w w1 Hr) as R. cbv zeta in R. destruct R as (R1 & _).
    destruct (loop_goes_on (globals w1)); intros H; [|discriminate].
    apply IH in H. rewrite R1 in H. exact H.
  - intros H. injection H as <-. exact (loop_round_exit w c Hr).
Qed.

(** The rounds that are enough for the loop. *)
Lemma integration_loop_enough (n fuel : nat) (w : World) :
  0 < delx (cfg (globals w)) ->
  xend (part (globals w)) - (x2 (part (globals w)) - xstart (part (globals w)))
  < INR n * (delx (cfg (globals w)) / 10) ->
  (S n <= fuel)%nat ->
  exists r, integration_loop fuel w = Some r.
Proof.
  revert fuel w.
  induction n as [|n IH]; intros fuel w Hd Hleft Hfuel;
    (destruct fuel as [|fuel]; [lia|]); cbn [integration_loop];
    destruct (loop_round w) as [w1|code] eqn:Hr; try (eexists; reflexivity);
    pose proof (loop_round_spec w w1 Hr) as R; cbv zeta in R;
    destruct R as (R1 & R2 & R3 & R4 & R5 & R6 & R7 & R8 & R9 & R10 & R11 & _);
    destruct (loop_goes_on (globals w1)) eqn:Hgo; try (eexists; reflexivity);
    unfold loop_goes_on in Hgo; apply andb_true_iff in Hgo as [Hgo _];
    apply Rleb_spec in Hgo.
  - exfalso. cbn [INR] in Hleft. destruct R4 as [R4|R4]; lra.
  - apply IH; [rewrite R1; exact Hd| |lia].
    rewrite S_INR in Hleft. rewrite R1, R7, R8. destruct R4 as [R4|R4]; lra.
Qed.

(** X8.  One round writes the place of the particle before the step to [ytemp3]
    and [ytemp5] whatever [TrajectoryLength] is; only [ytemp1] is written
    with [TrajectoryLength] set and is left as it is without (line 931 has
    no braces). *)
Theorem loop_round_trajectory (w w' : World) :
  loop_round w = inl w' ->
  let y := ystart (globals w) in
  ytemp3 (motion w') = y 3%Z /\ ytemp5 (motion w') = y 5%Z
  /\ (truthy (TrajectoryLength setup) = true -> ytemp1 (motion w') = y 1%Z)
  /\ (truthy (TrajectoryLength setup) = false -> ytemp1 (motion w') = ytemp1 (motion w)).
Proof.
  intros Hr y. pose proof (loop_round_spec w w' Hr) as R. cbv zeta in R.
  destruct R as (_ & _ & _ & _ & _ & _ & _ & _ & _ & _ & _ & _ & R13 & R14 & R15 & _).
  split; [exact R14|]. split; [exact R15|].
  split; intros Ht; rewrite Ht in R13; exact R13.
Qed.
(** ** The end of the particle (lines 1087-1109) *)

(** [fmodl] for a positive divisor: the result has the sign of [x], is
    smaller than [y], and differs from [x] by a multiple of [y]. *)
Lemma fmodl_spec (x y : R) :
  0 < y ->
  - y < fmodl x y < y
  /\ (0 <= x -> 0 <= fmodl x y) /\ (x <= 0 -> fmodl x y <= 0)
  /\ exists k : Z, x = fmodl x y + IZR k * y.
Proof.
  intros Hy. unfold fmodl.
  assert (Hx : x = x / y * y) by (field; lra).
  split; [|split; [|split]]; [| | |exists (trunc (x / y)); ring].
  - unfold trunc. destruct (Rle_dec 0 (x / y)) as [Hq|Hq].
    + destruct (base_Int_part (x / y)) as [B1 B2].
      set (k := IZR (Int_part (x / y))) in *.
      assert (E : x - k * y = (x / y - k) * y) by (field; lra).
      rewrite E. split; nra.
    + destruct (base_Int_part (- (x / y))) as [B1 B2].
      rewrite opp_IZR. set (k := IZR (Int_part (- (x / y)))) in *.
      assert (E : x - - k * y = (x / y + k) * y) by (field; lra).
      rewrite E. split; nra.
  - intros H0. unfold trunc.
    assert (Hq : 0 <= x / y) by (apply Rmult_le_pos; [lra|left; now apply Rinv_0_lt_compat]).
    destruct (Rle_dec 0 (x / y)) as [_|Hn]; [|contradiction].
    destruct (base_Int_part (x / y)) as [B1 B2].
    set (k := IZR (Int_part (x / y))) in *.
    assert (E : x - k * y = (x / y - k) * y) by (field; lra).
    rewrite E. nra.
  - intros H0. unfold trunc. destruct (Rle_dec 0 (x / y)) as [Hq|Hq].
    + assert (Hz : x / y = 0).
      { assert (x / y <= 0); [|lra].
        assert (Hi : 0 < / y) by now apply Rinv_0_lt_compat.
        unfold Rdiv. nra. }
      rewrite Hz. replace (Int_part 0) with 0%Z.
      * lra.
      * apply Int_part_spec. lra.
    + destruct (base_Int_part (- (x / y))) as [B1 B2].
      rewrite opp_IZR. set (k := IZR (Int_part (- (x / y)))) in *.
      assert (E : x - - k * y = (x / y + k) * y) by (field; lra).
      rewrite E. nra.
Qed.

(** X9.  The angle of the end is made of the angle of the vector in degrees,
    [phitemp]: it lies between 0 and 360, both ends included (the sum
    [360.0 + phiend] of line 1094 is rounded in the program, and gives 360
    for a remainder just below 0, so that only the closed bound is
    stated).  For an angle that is not negative no sum is made: the angle
    of the end is the remainder of [fmodl] itself, below 360, and differs
    from [phitemp] by a whole number of turns.  The times of the last
    points of the track and [R] are set back to 0. *)
Theorem particle_end_angle (w : World) :
  let w' := particle_end w in
  let m' := motion w' in
  phitemp m' = ystart (globals w) 5%Z / conv
  /\ 0 <= phiend m' <= 360
  /\ (0 <= phitemp m' ->
      phiend m' = fmodl (phitemp m') 360
      /\ phiend m' < 360
      /\ exists k : Z, phitemp m' = phiend m' + 360 * IZR k)
  /\ R_ m' = 0
  /\ timetemp (trk (globals w')) = 0 /\ time_temp (trk (globals w')) = 0.
Proof.
  intros w' m'.
  destruct (fmodl_spec (ystart (globals w) 5%Z / conv) 360 ltac:(lra))
    as (Hr & Hpos & _ & k & Hk).
  assert (Hp : phitemp m' = ystart (globals w) 5%Z / conv) by reflexivity.
  assert (He : phiend m'
               = if Rltb (fmodl (ystart (globals w) 5%Z / conv) 360) 0
                 then 360.0 + fmodl (ystart (globals w) 5%Z / conv) 360
                 else fmodl (ystart (globals w) 5%Z / conv) 360) by reflexivity.
  split; [exact Hp|]. rewrite Hp, He. clear Hp He.
  assert (Hrest : R_ m' = 0 /\ timetemp (trk (globals w')) = 0
                  /\ time_temp (trk (globals w')) = 0) by (cbn; repeat split; lra).
  revert Hr Hpos Hk Hrest.
  generalize (fmodl (ystart (globals w) 5%Z / conv) 360).
  generalize (ystart (globals w) 5%Z / conv).
  intros x r Hr Hpos Hk Hrest.
  assert (H360 : 360.0 = 360) by lra.
  split; [|split; [|exact Hrest]].
  - destruct (Rltb r 0) eqn:Hlt.
    + apply Rltb_spec in Hlt. rewrite H360. lra.
    + assert (0 <= r); [|lra].
      destruct (Rle_dec 0 r) as [Hl|Hl]; [exact Hl|].
      rewrite Rltb_true in Hlt by lra. discriminate.
  - intros H0. specialize (Hpos H0).
    assert (Hf : Rltb r 0 = false).
    { destruct (Rltb r 0) eqn:Hlt; [|reflexivity].
      apply Rltb_spec in Hlt. lra. }
    rewrite Hf. split; [reflexivity|]. split; [lra|].
    exists k. lra.
Qed.

(** What the end of the particle writes. *)
Lemma particle_end_spec (w : World) :
  let g := globals w in
  let w' := particle_end w in
  let g' := globals w' in
  cfg g' = cfg g /\ scan g' = scan g /\ part g' = part g
  /\ (exists t y v h wx,
        ENDLOG (files g') = ausgabe t y v h wx
        /\ h = H_ (trk g') /\ ENDLOG (files (globals wx)) = ENDLOG (files g))
  /\ codes w' = IncrementCodes (kennz (part g)) (codes w)
  /\ VolumeB w' = VolumeB w
  /\ (is_PROTON (protneut (cfg g)) || is_ELECTRONS (protneut (cfg g)) = true ->
      H_ (trk g')
      = c_0 * c_0 * M (cfg g)
        * (1 / sqrt (1 - v_n (part g) * v_n (part g) / (c_0 * c_0)) - 1)).
Proof.
  intros g w' g'. split; [reflexivity|]. split; [reflexivity|]. split; [reflexivity|].
  split.
  { do 5 eexists. split; [reflexivity|]. split; reflexivity. }
  split; [reflexivity|]. split; [reflexivity|].
  intros Hk. unfold g', w', particle_end. cbn. fold g.
  destruct (protneut (cfg g)); try discriminate Hk; reflexivity.
Qed.

(** ** The output of the field (lines 1135-1158) *)

Lemma ring_volume_eq (sc : Scan) : ring_volume sc = 2 * pi * r_n sc * dr_n steps * dz_n steps.
Proof.
  unfold ring_volume. assert (H05 : 0.5 = 1 / 2) by lra. rewrite H05. field.
Qed.

(** The loop of lines 1149-1156 while it stays inside the array. *)
Lemma ramp_heating_loop (g : Globals) (last : Z) (V0 : Z -> R) :
  (last < VolumeB_size)%Z ->
  exists V,
    for_loop 0 last (ramp_heating g) (Some V0) = Some V
    /\ forall E, V E = if ((0 <=? E) && (E <=? last))%Z && Rgeb (EnTest g E) 0
                       then V0 E + ring_volume (scan g) else V0 E.
Proof.
  intros Hlast.
  destruct (Z_lt_le_dec last 0) as [Hneg|Hpos].
  - rewrite for_loop_empty by lia. exists V0. split; [reflexivity|].
    intros E. replace ((0 <=? E) && (E <=? last))%Z with false; [reflexivity|].
    symmetry. apply andb_false_iff. destruct (Z.leb_spec 0 E); [right|left; reflexivity].
    apply Z.leb_gt. lia.
  - pose (P := fun (j : Z) (acc : option (Z -> R)) =>
        exists V, acc = Some V
                  /\ forall E, V E = if ((0 <=? E) && (E <? j))%Z && Rgeb (EnTest g E) 0
                                     then V0 E + ring_volume (scan g) else V0 E).
    assert (HP : P (last + 1)%Z (for_loop 0 last (ramp_heating g) (Some V0))).
    { apply for_loop_ind; [lia| |].
      - exists V0. split; [reflexivity|]. intros E.
        replace ((0 <=? E) && (E <? 0))%Z with false; [reflexivity|].
        symmetry. apply andb_false_iff. destruct (Z.leb_spec 0 E); [right|left; reflexivity].
        apply Z.ltb_ge. lia.
      - intros j acc Hj (V & -> & HV). unfold ramp_heating.
        destruct (Rgeb (EnTest g j) 0) eqn:Hen.
        + rewrite (proj2 (Z.ltb_lt j VolumeB_size)) by lia.
          eexists. split; [reflexivity|]. intros E. unfold upd.
          destruct (Z.eqb_spec E j) as [->|Hne].
          * rewrite HV, Hen.
            rewrite (proj2 (Z.leb_le 0 j)), (proj2 (Z.ltb_ge j j)),
              (proj2 (Z.ltb_lt j (j + 1))) by lia.
            reflexivity.
          * rewrite HV. replace (E <? j + 1)%Z with (E <? j)%Z; [reflexivity|].
            destruct (Z.ltb_spec E j), (Z.ltb_spec E (j + 1)); try reflexivity; lia.
        + exists V. split; [reflexivity|]. intros E. rewrite HV.
          destruct (Z.eqb_spec E j) as [->|Hne].
          * rewrite Hen, !andb_false_r. reflexivity.
          * replace (E <? j + 1)%Z with (E <? j)%Z; [reflexivity|].
            destruct (Z.ltb_spec E j), (Z.ltb_spec E (j + 1)); try reflexivity; lia. }
    destruct HP as (V & HV1 & HV2). exists V. split; [exact HV1|].
    intros E. rewrite HV2. replace (E <? last + 1)%Z with (E <=? last)%Z; [reflexivity|].
    destruct (Z.leb_spec E last), (Z.ltb_spec E (last + 1)); try reflexivity; lia.
Qed.

(** The output of the field stays inside [VolumeB] with [EnergieE] below
    200. *)
Lemma field_only_returns (w : World) :
  EnergieE (scan (globals w)) < 200 -> exists w', field_only w = Some w'.
Proof.
  intros HE.
  assert (Hlast : (Int_part (EnergieE (scan (globals w))) < VolumeB_size)%Z).
  { destruct (base_Int_part (EnergieE (scan (globals w)))) as [B1 B2].
    apply lt_IZR. unfold VolumeB_size. lra. }
  unfold field_only. cbv zeta.
  set (g1 := set_files _ (set_fld _ (globals w))).
  destruct (ramp_heating_loop g1 (Int_part (EnergieE (scan (globals w)))) (VolumeB w) Hlast)
    as (V & HV1 & _).
  rewrite HV1. eexists. reflexivity.
Qed.

(** X10.  A run that only writes the field, with [EnergieE] below the 200 entries
    of [VolumeB]: one row of the field at the point of the scan goes to the
    end log; the volume [2 pi r_n dr_n dz_n] of the ring around the point is
    added to [VolumeB[E]] for the integers [E] from 0 to [EnergieE] with
    [E*1e-9 - M*g*z_n + mu_n*|B| >= 0] and to no other entry; and [Energie]
    is left behind [EnergieE], at the first integer above it. *)
Theorem field_only_volume (w : World) :
  let g := globals w in
  let sc := scan g in
  let F := BFeld (r_n sc) (phi_n sc) (z_n sc) 500.0 in
  let b := sqrt (Br F * Br F + Bz F * Bz F + Bphi F * Bphi F) in
  EnergieE sc < 200 ->
  exists w',
    field_only w = Some w'
    /\ (forall E : Z,
          VolumeB w' E
          = if ((0 <=? E) && (E <=? Int_part (EnergieE sc)))%Z
               && Rgeb (IZR E * 1.0e-9 - M (cfg g) * gravconst * z_n sc + mu_n (spin g) * b) 0
            then VolumeB w E + 2 * pi * r_n sc * dr_n steps * dz_n steps
            else VolumeB w E)
    /\ ENDLOG (files (globals w'))
       = fprintf (ENDLOG (files g))
           (EndRow [r_n sc * 100; 0.0; z_n sc * 100; Br F * 1e4; Bphi F * 1e4;
                    Bz F * 1e4; 0.0; 0.0; b])
    /\ Bws (fld (globals w')) = b
    /\ (0 <= EnergieE sc ->
        EnergieE sc < Energie (scan (globals w')) <= EnergieE sc + 1)
    /\ (EnergieE sc < 0 -> Energie (scan (globals w')) = 0)
    /\ r_n (scan (globals w')) = r_n sc /\ z_n (scan (globals w')) = z_n sc
    /\ phi_n (scan (globals w')) = phi_n sc
    /\ codes w' = codes w.
Proof.
  intros g sc F b HE.
  assert (Hlast : (Int_part (EnergieE sc) < VolumeB_size)%Z).
  { destruct (base_Int_part (EnergieE sc)) as [B1 B2].
    apply lt_IZR. unfold VolumeB_size. lra. }
  unfold field_only. fold g. fold sc. cbv zeta. fold F. fold b.
  set (g1 := set_files _ (set_fld _ g)).
  destruct (ramp_heating_loop g1 (Int_part (EnergieE sc)) (VolumeB w) Hlast) as (V & HV1 & HV2).
  rewrite HV1. eexists. split; [reflexivity|].
  destruct (base_Int_part (EnergieE sc)) as [B1 B2].
  split; [|split; [reflexivity|]; split; [reflexivity|]; split; [|split]].
  - intros E. cbn [VolumeB]. rewrite HV2, ring_volume_eq. reflexivity.
  - intros H0. cbn.
    assert (Hi : (0 <= Int_part (EnergieE sc))%Z).
    { apply le_IZR. destruct (Z_lt_le_dec (Int_part (EnergieE sc)) 0) as [Hn|Hn].
      - apply IZR_lt in Hn. assert (Hn' : (Int_part (EnergieE sc) <= -1)%Z) by (apply lt_IZR in Hn; lia).
        apply IZR_le in Hn'. lra.
      - apply IZR_le in Hn. exact Hn. }
    rewrite Z.max_r by lia. rewrite plus_IZR. lra.
  - intros H0. cbn.
    assert (Hi : (Int_part (EnergieE sc) <= -1)%Z).
    { assert (Hlt : (Int_part (EnergieE sc) < 0)%Z) by (apply lt_IZR; lra). lia. }
    rewrite Z.max_l by lia. reflexivity.
  - repeat split.
Qed.

(** X11.  With [EnergieE] at 200 or above the loop writes behind the end of
    [VolumeB] as soon as an [EnTest] is not negative for an integer from 200
    to [EnergieE]. *)
Theorem field_only_overrun (w : World) (E : Z) :
  let g := globals w in
  let sc := scan g in
  let F := BFeld (r_n sc) (phi_n sc) (z_n sc) 500.0 in
  let b := sqrt (Br F * Br F + Bz F * Bz F + Bphi F * Bphi F) in
  (200 <= E)%Z -> IZR E <= EnergieE sc ->
  0 <= IZR E * 1.0e-9 - M (cfg g) * gravconst * z_n sc + mu_n (spin g) * b ->
  field_only w = None.
Proof.
  intros g sc F b H200 HE Hen.
  assert (Hlast : (E <= Int_part (EnergieE sc))%Z).
  { destruct (base_Int_part (EnergieE sc)) as [B1 B2].
    assert (Hlt : (E < Int_part (EnergieE sc) + 1)%Z); [|lia].
    apply lt_IZR. rewrite plus_IZR. lra. }
  unfold field_only. fold g. fold sc. cbv zeta. fold F. fold b.
  set (g1 := set_files _ (set_fld _ g)).
  assert (Hen1 : Rgeb (EnTest g1 E) 0 = true) by (apply Rgeb_spec; exact Hen).
  assert (Hloop : for_loop 0 (Int_part (EnergieE sc)) (ramp_heating g1) (Some (VolumeB w))
                  = None).
  { pose (P := fun (j : Z) (acc : option (Z -> R)) => (E < j)%Z -> acc = None).
    assert (HP : P (Int_part (EnergieE sc) + 1)%Z
                   (for_loop 0 (Int_part (EnergieE sc)) (ramp_heating g1) (Some (VolumeB w)))).
    { apply for_loop_ind; [lia| |].
      - intros Hj. lia.
      - intros j acc Hj HPj Hlt. destruct acc as [V|]; [|reflexivity].
        destruct (Z.eq_dec j E) as [->|Hne].
        + unfold ramp_heating. rewrite Hen1.
          rewrite (proj2 (Z.ltb_ge E VolumeB_size)) by (unfold VolumeB_size; lia).
          reflexivity.
        + assert (Hd : Some V = None) by (apply HPj; lia). discriminate Hd. }
    apply HP. lia. }
  rewrite Hloop. reflexivity.
Qed.
(** ** The particle from its start vector to its end (lines 829-1159) *)

(** What the start vector and the lines before the loop leave alone. *)
Definition start_keeps (g g' : Globals) : Prop :=
  cfg g' = cfg g /\ scan g' = scan g /\ files g' = files g
  /\ x2 (part g') = x2 (part g) /\ xstart (part g') = xstart (part g)
  /\ xend (part g') = xend (part g).

Lemma startvector_keeps (g : Globals) (m : Motion) :
  start_keeps g (IntegrateParticle_startvector (g, m)).1.
Proof.
  assert (H1 : start_keeps g (IntegrateParticle_speed (g, m)).1).
  { unfold IntegrateParticle_speed.
    destruct (is_PROTON (protneut (cfg g))); cbn;
      destruct (is_ELECTRONS (protneut (cfg g))); cbn; repeat split. }
  assert (H2 : forall gm, start_keeps gm.1 (IntegrateParticle_velocity gm).1).
  { intros [g1 m1]. unfold IntegrateParticle_velocity.
    destruct (negb _); [|repeat split].
    destruct (truthy (TrajectoryLength setup)); cbn [fst]; repeat split. }
  assert (H3 : forall gm, start_keeps gm.1 (IntegrateParticle_energy gm).1).
  { intros [g1 m1]. unfold IntegrateParticle_energy. cbv zeta.
    destruct (is_NEUTRON _); repeat split. }
  unfold IntegrateParticle_startvector.
  specialize (H2 (IntegrateParticle_speed (g, m))).
  specialize (H3 (IntegrateParticle_velocity (IntegrateParticle_speed (g, m)))).
  revert H1 H2 H3.
  generalize (IntegrateParticle_energy
                (IntegrateParticle_velocity (IntegrateParticle_speed (g, m)))).1.
  generalize (IntegrateParticle_velocity (IntegrateParticle_speed (g, m))).1.
  generalize (IntegrateParticle_speed (g, m)).1.
  intros a b c (A1 & A2 & A3 & A4 & A5 & A6) (B1 & B2 & B3 & B4 & B5 & B6)
    (C1 & C2 & C3 & C4 & C5 & C6).
  repeat split; congruence.
Qed.

Lemma loop_enter_keeps (w : World) :
  let w' := loop_enter w in
  cfg (globals w') = cfg (globals w) /\ scan (globals w') = scan (globals w)
  /\ files (globals w') = files (globals w) /\ part (globals w') = part (globals w)
  /\ codes w' = codes w /\ VolumeB w' = VolumeB w
  /\ schritte (motion w') = 0%Z /\ deltat (motion w') = delx (cfg (globals w))
  /\ timetemp (trk (globals w')) = 0.
Proof.
  unfold loop_enter. cbv zeta.
  destruct (truthy (BruteForce (cfg (globals w)))); [destruct (Bcoor (globals w)) as [[bx by'] bz]|];
    repeat split.
Qed.

(** The world the loop is entered with. *)
Definition loop_start (w : World) : World :=
  let gm := IntegrateParticle_startvector (globals w, motion w) in
  loop_enter (mkWorld gm.1 gm.2 (ndist w) (codes w) (VolumeB w)).

Lemma loop_start_keeps (w : World) :
  let w' := loop_start w in
  cfg (globals w') = cfg (globals w) /\ scan (globals w') = scan (globals w)
  /\ files (globals w') = files (globals w)
  /\ x2 (part (globals w')) = x2 (part (globals w))
  /\ xstart (part (globals w')) = xstart (part (globals w))
  /\ xend (part (globals w')) = xend (part (globals w))
  /\ codes w' = codes w /\ VolumeB w' = VolumeB w
  /\ v_n (part (globals w'))
     = v_n (part (IntegrateParticle_startvector (globals w, motion w)).1).
Proof.
  unfold loop_start. cbv zeta.
  pose proof (startvector_keeps (globals w) (motion w)) as S. revert S.
  generalize (IntegrateParticle_startvector (globals w, motion w)). intros gm S.
  destruct S as (S1 & S2 & S3 & S4 & S5 & S6).
  destruct (loop_enter_keeps (mkWorld gm.1 gm.2 (ndist w) (codes w) (VolumeB w)))
    as (E1 & E2 & E3 & E4 & E5 & E6 & _).
  cbn [globals codes VolumeB] in E1, E2, E3, E4, E5, E6.
  rewrite E1, E2, E3, E4, E5, E6. repeat split; assumption.
Qed.

(** The call for a neutron, a proton or an electron. *)
Lemma IntegrateParticle_track_tracked (fuel : nat) (w : World) :
  let k := protneut (cfg (globals w)) in
  k = NEUTRON \/ k = PROTON \/ k = ELECTRONS ->
  IntegrateParticle_track fuel w
  = match integration_loop fuel (loop_start w) with
    | Some (inl w) => Returns (particle_end w)
    | Some (inr code) => Exits code
    | None => Unfinished
    end.
Proof.
  intros k Hk. unfold IntegrateParticle_track, loop_start. cbv zeta.
  destruct (startvector_keeps (globals w) (motion w)) as (S1 & _).
  cbn [globals]. rewrite S1. fold k.
  generalize (integration_loop fuel
                (loop_enter
                   {| globals := (IntegrateParticle_startvector (globals w, motion w)).1;
                      motion := (IntegrateParticle_startvector (globals w, motion w)).2;
                      ndist := ndist w; codes := codes w; VolumeB := VolumeB w |})).
  intros r.
  destruct Hk as [-> | [-> | ->]]; cbn; destruct r as [[w1|c]|]; reflexivity.
Qed.

(** X12.  For a neutron, a proton or an electron whose call returns, the end log
    is written by the one call of [ausgabe] at the end of the particle
    (line 1101), with the [H] the call leaves: that call finds the end log
    as it was when the particle was started, for the start vector, the loop
    and the Bloch integration write nothing to it.  The particle is counted
    once, under the [kennz] it ends with, and the call leaves the variables
    of the scan and [VolumeB] as they are. *)
Theorem IntegrateParticle_track_record (fuel : nat) (w w' : World) :
  let k := protneut (cfg (globals w)) in
  k = NEUTRON \/ k = PROTON \/ k = ELECTRONS ->
  IntegrateParticle_track fuel w = Returns w' ->
  (exists t y v wx,
     ENDLOG (files (globals w')) = ausgabe t y v (H_ (trk (globals w'))) wx
     /\ ENDLOG (files (globals wx)) = ENDLOG (files (globals w)))
  /\ codes w' = IncrementCodes (kennz (part (globals w'))) (codes w)
  /\ VolumeB w' = VolumeB w
  /\ scan (globals w') = scan (globals w)
  /\ cfg (globals w') = cfg (globals w).
Proof.
  intros k Hk. rewrite (IntegrateParticle_track_tracked fuel w Hk).
  destruct (integration_loop fuel (loop_start w)) as [[w2|c]|] eqn:Hl; try discriminate.
  intros H. injection H as <-.
  destruct (integration_loop_keeps fuel _ _ Hl) as (L1 & L2 & L3 & L4 & L5 & L6).
  destruct (loop_start_keeps w) as (S1 & S2 & S3 & _ & _ & _ & S7 & S8 & _).
  destruct (particle_end_spec w2)
    as (P1 & P2 & P3 & (t & y & v & h & wx & P4 & P4' & P4'') & P5 & P6 & _).
  split.
  { exists t, y, v, wx. rewrite P4, <- P4', P4'', L6, S3. split; reflexivity. }
  rewrite P5, P6, P3, P2, P1, L4, L5, L2, L1, S7, S8, S2, S1. repeat split.
Qed.

(** X13.  The energy written at the end for a proton or an electron is the one of
    the speed [v_n] of the start, not of the speed at the end: whatever the
    track was, an electron (with [M = m_e]) ends with [H = Energie], and a
    proton with the energy the relativistic formula gives for the speed
    [sqrt(2*Energie/m_p)]. *)
Theorem charged_end_energy (fuel : nat) (w w' : World) :
  let g := globals w in
  let E := Energie (scan g) in
  0 <= E ->
  protneut (cfg g) = PROTON \/ protneut (cfg g) = ELECTRONS ->
  IntegrateParticle_track fuel w = Returns w' ->
  (protneut (cfg g) = ELECTRONS -> M (cfg g) = m_e -> H_ (trk (globals w')) = E)
  /\ (protneut (cfg g) = PROTON ->
      H_ (trk (globals w'))
      = c_0 * c_0 * M (cfg g) * (1 / sqrt (1 - 2 * E / m_p / (c_0 * c_0)) - 1)).
Proof.
  intros g E HE Hk.
  assert (Hk3 : protneut (cfg g) = NEUTRON \/ protneut (cfg g) = PROTON
                \/ protneut (cfg g) = ELECTRONS) by (destruct Hk; auto).
  rewrite (IntegrateParticle_track_tracked fuel w Hk3).
  destruct (integration_loop fuel (loop_start w)) as [[w2|c]|] eqn:Hl; try discriminate.
  intros H. injection H as <-.
  destruct (integration_loop_keeps fuel _ _ Hl) as (L1 & L2 & L3 & _).
  destruct (loop_start_keeps w) as (S1 & _ & _ & _ & _ & _ & _ & _ & S9).
  destruct (particle_end_spec w2) as (_ & _ & _ & _ & _ & _ & P7).
  assert (Hpe : is_PROTON (protneut (cfg (globals w2)))
                || is_ELECTRONS (protneut (cfg (globals w2))) = true).
  { rewrite L1, S1. fold g. destruct Hk as [-> | ->]; reflexivity. }
  specialize (P7 Hpe). rewrite P7, L1, L3, S1, S9. fold g.
  destruct (startvector_charged g (motion w) HE Hk) as (_ & C4 & C5).
  cbv zeta in C4, C5. fold E in C4, C5.
  set (v := v_n (part (IntegrateParticle_startvector (g, motion w)).1)) in *.
  destruct positive_constants as (_ & Hmp & Hme & Hc).
  split.
  - intros Hel HM. destruct (C5 Hel) as (_ & C6 & C7).
    rewrite C7, C6, HM. field. lra.
  - intros Hp. specialize (C4 Hp).
    assert (Hvv : v * v = 2 * E / m_p).
    { assert (H05 : 0.5 = 1 / 2) by lra. rewrite H05 in C4.
      apply Rmult_eq_reg_l with (1 / 2 * m_p); [|lra].
      replace (1 / 2 * m_p * (v * v)) with (1 / 2 * m_p * v * v) by ring.
      rewrite C4. field. lra. }
    rewrite Hvv. reflexivity.
Qed.

(** X14.  How a call fails: it leaves the program only with [exit(1)], for a
    particle that is tracked, in brute-force mode, where a spin log cannot be
    opened; it writes behind [VolumeB] only in a run that writes the field
    with [EnergieE] at 200 or above; a kind that is neither tracked nor one
    of [BF_ONLY] and 99 returns with the start vector and writes nothing. *)
Theorem IntegrateParticle_track_failures (fuel : nat) (w : World) :
  let g := globals w in
  let k := protneut (cfg g) in
  let tracked := k = NEUTRON \/ k = PROTON \/ k = ELECTRONS in
  (forall code, IntegrateParticle_track fuel w = Exits code ->
     code = 1%Z /\ tracked /\ truthy (BruteForce (cfg g)) = true
     /\ exists name, fopen_fails name = true)
  /\ (IntegrateParticle_track fuel w = Overruns ->
      k = BF_ONLY /\ 200 <= EnergieE (scan g))
  /\ (IntegrateParticle_track fuel w = Unfinished -> tracked)
  /\ (~ tracked -> k <> BF_ONLY -> k <> KIND_OTHER 99 ->
      exists w', IntegrateParticle_track fuel w = Returns w'
                 /\ files (globals w') = files g /\ codes w' = codes w
                 /\ VolumeB w' = VolumeB w /\ scan (globals w') = scan g).
Proof.
  intros g k tracked.
  destruct (startvector_keeps (globals w) (motion w)) as (S1 & S2 & S3 & _).
  fold g in S1, S2, S3.
  assert (Hcases : tracked \/ ~ tracked).
  { unfold tracked. destruct k; auto; right; intros [H|[H|H]]; discriminate. }
  destruct Hcases as [Ht|Hn].
  - rewrite (IntegrateParticle_track_tracked fuel w Ht).
    destruct (integration_loop fuel (loop_start w)) as [[w2|c]|] eqn:Hl.
    + split; [discriminate|]. split; [discriminate|]. split; [discriminate|].
      intros Hn. contradiction.
    + destruct (integration_loop_exit fuel _ _ Hl) as (E1 & E2 & E3).
      destruct (loop_start_keeps w) as (L1 & _). rewrite L1 in E2.
      split; [|split; [discriminate|split; [intros _; exact Ht|intros Hn; contradiction]]].
      intros code Hc. injection Hc as <-. repeat split; assumption.
    + split; [discriminate|]. split; [discriminate|]. split; [intros _; exact Ht|].
      intros Hn. contradiction.
  - assert (Hf : is_NEUTRON k || is_PROTON k || is_ELECTRONS k = false).
    { unfold tracked in Hn. destruct k; try reflexivity; exfalso; apply Hn; auto. }
    assert (Hun : IntegrateParticle_track fuel w
                  = let gm := IntegrateParticle_startvector (globals w, motion w) in
                    let w1 := mkWorld gm.1 gm.2 (ndist w) (codes w) (VolumeB w) in
                    let w2 := match k with KIND_OTHER 99 => flux_line w1 | _ => w1 end in
                    if is_BF_ONLY k then
                      match field_only w2 with Some w => Returns w | None => Overruns end
                    else Returns w2).
    { unfold IntegrateParticle_track. cbv zeta. cbn [globals]. fold g. rewrite S1. fold k.
      rewrite Hf. reflexivity. }
    rewrite Hun. cbv zeta.
    set (w1 := mkWorld _ _ (ndist w) (codes w) (VolumeB w)).
    split; [|split; [|split]].
    + intros code. destruct (is_BF_ONLY k); [destruct (field_only _)|]; discriminate.
    + destruct (is_BF_ONLY k) eqn:Hb; [|discriminate].
      assert (Hk : k = BF_ONLY) by (destruct k; try discriminate Hb; reflexivity).
      rewrite Hk. intros Ho. split; [reflexivity|].
      destruct (Rle_dec 200 (EnergieE (scan g))) as [Hl|Hl]; [exact Hl|exfalso].
      assert (Hlt : EnergieE (scan (globals w1)) < 200).
      { change (EnergieE (scan (IntegrateParticle_startvector (g, motion w)).1) < 200).
        rewrite S2. lra. }
      destruct (field_only_returns w1 Hlt) as (w3 & H3).
      rewrite H3 in Ho. discriminate Ho.
    + destruct (is_BF_ONLY k); [destruct (field_only _)|]; discriminate.
    + intros _ Hb H99. exists w1.
      assert (Hb' : is_BF_ONLY k = false) by (destruct k; try reflexivity; contradiction).
      rewrite Hb'.
      assert (Hw : match k with KIND_OTHER 99 => flux_line w1 | _ => w1 end = w1).
      { destruct k as [| | | |c]; try reflexivity.
        destruct c as [|p|p]; try reflexivity.
        do 7 (destruct p as [p|p|]; try reflexivity). contradiction. }
      rewrite Hw. repeat split; assumption.
Qed.
(** ** The buffer and the probabilities of [BruteForceIntegration] *)

(** The loop of lines 1236-1256 leaves the buffer behind the values it adds
    as it is. *)
Lemma BF_store_loop_behind (d : Dense) (off ks : Z) (t : Z -> R) (f : Z -> Z -> R) :
  (1 <= ks)%Z ->
  let tf := for_loop ks (kount d) (BF_store CylKartCoord d off ks) (t, f) in
  forall i, (off + kount d - (ks - 1) < i)%Z -> tf.1 i = t i /\ forall c, tf.2 c i = f c i.
Proof.
  intros Hks tf.
  destruct (Z_lt_le_dec (kount d) ks) as [Hlt | Hge].
  { subst tf. rewrite for_loop_empty by lia. cbn. auto. }
  pose (P := fun (j : Z) (tf : (Z -> R) * (Z -> Z -> R)) =>
      forall i, (off + kount d - (ks - 1) < i)%Z -> tf.1 i = t i /\ forall c, tf.2 c i = f c i).
  assert (HP : P (kount d + 1)%Z tf).
  { subst tf. apply for_loop_ind; [lia | |].
    - unfold P. cbn. auto.
    - intros j [t' f'] Hj Hold. unfold P, BF_store. cbn in Hold |- *.
      destruct (CylKartCoord (Bp d 1%Z j) (Bp d 5%Z j) (Bp d 9%Z j) (yp d 5%Z j))
        as [[cx cy] cz].
      cbn. intros i Hi. destruct (Hold i Hi) as [O1 O2]. unfold upd, upd2.
      replace (i =? off + j - (ks - 1))%Z with false by lia.
      split; [exact O1|]. intros c. rewrite !andb_false_r. apply O2. }
  exact HP.
Qed.

Lemma BF_integrate_buffer g :
  let g' := BF_integrate BFodeintrk OUTPUT_EVERYTHINGandSPIN OUTPUT_ENDPOINTSandSPIN g in
  BFtime (bf g') = BFtime (bf g) /\ BFField (bf g') = BFField (bf g).
Proof.
  unfold BF_integrate. destruct (BF_integrates g); [|split; reflexivity].
  destruct (BF_call BFodeintrk (BF_first_spin (bf g))) as [I o].
  assert (Hfs : BFtime (BF_first_spin (bf g)) = BFtime (bf g)
                /\ BFField (BF_first_spin (bf g)) = BFField (bf g)).
  { unfold BF_first_spin. destruct (truthy _); split; reflexivity. }
  revert Hfs. generalize (BF_first_spin (bf g)). intros b [Hb1 Hb2]. cbv zeta.
  set (g1 := set_bf _ (set_bfout o g)).
  assert (H1 : BFtime (bf g1) = BFtime (bf g) /\ BFField (bf g1) = BFField (bf g))
    by (split; assumption).
  set (g2 := if (_ || _)%bool then _ else g1).
  assert (H2 : BFtime (bf g2) = BFtime (bf g) /\ BFField (bf g2) = BFField (bf g)).
  { unfold g2. destruct (_ || _)%bool; [|exact H1].
    apply for_loop_keeps; [exact H1|]. intros k s Hs. exact Hs. }
  exact H2.
Qed.

(** X15.  The buffer of the Bloch integration is bounded: a call that finds fewer
    than 2000 values in it leaves fewer than 2000, and it writes the buffer
    only behind the values it holds and not further than [kount] places
    behind them: at no index above [1999 + kount]. *)
Theorem BruteForce_buffer_bound (g : Globals) :
  (0 <= offset (bf g) < 2000)%Z -> (0 <= kount (dense g))%Z ->
  let g4 := BF_filled CylKartCoord g in
  let g5 := BruteForceIntegration CylKartCoord BFodeintrk OUTPUT_EVERYTHINGandSPIN
              OUTPUT_ENDPOINTSandSPIN g in
  (0 <= offset (bf g5) < 2000)%Z
  /\ (0 <= offset (bf g4) <= offset (bf g) + kount (dense g))%Z
  /\ (offset (bf g5) = 0%Z \/ offset (bf g5) = offset (bf g4))
  /\ (forall i, (i <= offset (bf g) \/ offset (bf g) + kount (dense g) < i)%Z ->
        BFtime (bf g5) i = BFtime (bf g) i
        /\ forall c, BFField (bf g5) c i = BFField (bf g) c i).
Proof.
  intros Hoff Hk g4 g5.
  set (b := bf g). set (d := dense g).
  set (ks := if (offset b >? 0)%Z then 2%Z else 1%Z).
  assert (Hks : (1 <= ks)%Z /\ (offset b + kount d - (ks - 1) <= offset b + kount d)%Z
                /\ (0 <= offset b + kount d - (ks - 1))%Z).
  { unfold ks. destruct (Z.gtb_spec (offset b) 0); fold b d in Hoff, Hk; lia. }
  destruct Hks as (Hks1 & Hks2 & Hks3).
  destruct (BF_filled_spec CylKartCoord g) as (Hc & Hd & _ & _ & _ & Hm & Ho4 & _).
  fold g4 b d ks in Hc, Hd, Hm, Ho4.
  (* the three parts before the buffer keep it *)
  set (g3 := BF_firstint (BF_polarisation (BF_threshold g))).
  assert (H3 : cfg g3 = cfg g /\ dense g3 = d /\ BFBmin (bf g3) = step_BFBmin d
               /\ offset (bf g3) = offset b /\ BFtime (bf g3) = BFtime b
               /\ BFField (bf g3) = BFField b).
  { subst g3.
    pose proof (BF_threshold_bf g) as Hb1. cbn zeta in Hb1.
    destruct (BF_threshold_keeps g) as (Hc1 & Hd1 & _).
    destruct (BF_polarisation_keeps (BF_threshold g))
      as (Hc2 & Hd2 & _ & _ & _ & Hm2 & _ & _ & Ho2 & Ht2 & Hf2 & _).
    destruct (BF_firstint_keeps (BF_polarisation (BF_threshold g)))
      as (Hc3 & Hd3 & _ & _ & _ & _ & _ & _ & Hm3 & _ & Ho3 & Ht3 & Hf3 & _).
    rewrite Hc3, Hd3, Hm3, Ho3, Ht3, Hf3, Hc2, Hd2, Hm2, Ho2, Ht2, Hf2, Hb1.
    repeat split; assumption. }
  destruct H3 as (Hc3 & Hd3 & Hm3 & Ho3 & Ht3 & Hf3).
  assert (Hbuf : forall i, (i <= offset b \/ offset b + kount d < i)%Z ->
                   BFtime (bf g4) i = BFtime b i /\ forall c, BFField (bf g4) c i = BFField b c i).
  { intros i Hi. subst g4. unfold BF_filled. fold g3. unfold BF_buffer.
    rewrite Hm3, Hc3, Hd3, Ho3, Ht3, Hf3. fold ks.
    destruct (Rltb (step_BFBmin d) (BFTargetB (cfg g))).
    - cbn [bf set_bf BFtime BFField].
      destruct (BF_store_loop CylKartCoord d (offset b) ks (BFtime b) (BFField b) Hks1)
        as [_ Hold].
      pose proof (BF_store_loop_behind d (offset b) ks (BFtime b) (BFField b) Hks1) as Hbeh.
      cbv zeta in Hold, Hbeh.
      destruct Hi as [Hi|Hi]; [apply Hold; exact Hi|apply Hbeh; lia].
    - rewrite Ht3, Hf3. split; reflexivity. }
  assert (H4 : (0 <= offset (bf g4) <= offset b + kount d)%Z).
  { rewrite Ho4. destruct (Rltb _ _); fold b d in Hoff, Hk; lia. }
  assert (H5 : g5 = BF_integrate BFodeintrk OUTPUT_EVERYTHINGandSPIN OUTPUT_ENDPOINTSandSPIN g4)
    by reflexivity.
  destruct (BF_integrate_buffer g4) as [Hb1 Hb2]. rewrite <- H5 in Hb1, Hb2.
  assert (Ho5 : (offset (bf g5) = 0 \/ offset (bf g5) = offset (bf g4))%Z
                /\ (0 <= offset (bf g5) < 2000)%Z).
  { destruct (BF_integrates g4) eqn:Hi.
    - destruct (BF_integrate_effect BFodeintrk OUTPUT_EVERYTHINGandSPIN
                  OUTPUT_ENDPOINTSandSPIN g4 Hi) as (_ & _ & _ & E4 & _).
      rewrite <- H5 in E4. rewrite E4. split; [left; reflexivity|lia].
    - rewrite H5, (BF_integrate_skip BFodeintrk _ _ g4 Hi).
      split; [right; reflexivity|].
      unfold BF_integrates in Hi. apply orb_false_iff in Hi as [_ Hi].
      rewrite Z.geb_leb in Hi. apply Z.leb_gt in Hi. lia. }
  destruct Ho5 as [Ho5 Ho5'].
  split; [exact Ho5'|]. split; [exact H4|]. split; [exact Ho5|].
  intros i Hi. rewrite Hb1, Hb2. apply Hbuf. exact Hi.
Qed.

(** X16.  The probability that the spin is not flipped never grows: with a
    polarisation between -1/2 and 1/2 and [BFsurvprob] a probability, a call
    leaves [BFsurvprob] between 0 and its value before, and where
    [BFflipprob = 1 - BFsurvprob] held [BFflipprob] does not go down and
    stays at or below 1. *)
Theorem BruteForce_survival_never_grows (g : Globals) :
  0 <= BFsurvprob (bf g) <= 1 -> - 0.5 <= BFpol (bf g) <= 0.5 ->
  let g5 := BruteForceIntegration CylKartCoord BFodeintrk OUTPUT_EVERYTHINGandSPIN
              OUTPUT_ENDPOINTSandSPIN g in
  0 <= BFsurvprob (bf g5) <= BFsurvprob (bf g)
  /\ (BFflipprob (bf g) = 1 - BFsurvprob (bf g) ->
      BFflipprob (bf g) <= BFflipprob (bf g5) <= 1
      /\ BFflipprob (bf g5) = 1 - BFsurvprob (bf g5)).
Proof.
  intros Hs Hp g5.
  destruct (BruteForceIntegration_polarisation CylKartCoord BFodeintrk
              OUTPUT_EVERYTHINGandSPIN OUTPUT_ENDPOINTSandSPIN g) as (Hsu & Hfl & _).
  fold g5 in Hsu, Hfl. rewrite Hsu, Hfl.
  destruct (BF_left_low_field g).
  - assert (H1 : 0 <= (BFpol (bf g) + 0.5) * BFsurvprob (bf g)) by (apply Rmult_le_pos; lra).
    assert (H2 : (BFpol (bf g) + 0.5) * BFsurvprob (bf g) <= 1 * BFsurvprob (bf g))
      by (apply Rmult_le_compat_r; lra).
    split; [lra|]. intros Hf. rewrite Hf. split; lra.
  - split; [lra|]. intros Hf. split; [lra|exact Hf].
Qed.

(** X21.  An integration that finds [firstint] set (lines 1265-1274) starts
    with the spin along the first field of the buffer and of the length 1/2,
    so that its projection on that field is 1/2; with [firstint] at 0 the
    spin is left as it is.  The buffer is not written. *)
Theorem BF_first_spin_half (b : BF) :
  let B := fun i : Z => BFField b i 1%Z in
  let n := sqrt (B 1%Z ^ 2 + B 2%Z ^ 2 + B 3%Z ^ 2) in
  let b' := BF_first_spin b in
  0 < B 1%Z ^ 2 + B 2%Z ^ 2 + B 3%Z ^ 2 ->
  (truthy (firstint b) = true ->
   (forall i, (1 <= i <= 3)%Z -> I_n b' i = B i / n * 0.5)
   /\ I_n b' 1%Z ^ 2 + I_n b' 2%Z ^ 2 + I_n b' 3%Z ^ 2 = 1 / 4
   /\ (I_n b' 1%Z * B 1%Z + I_n b' 2%Z * B 2%Z + I_n b' 3%Z * B 3%Z) / n = 1 / 2
   /\ BFBws b' 1%Z = n)
  /\ (truthy (firstint b) = false -> b' = b)
  /\ offset b' = offset b /\ BFtime b' = BFtime b /\ BFField b' = BFField b.
Proof using Type.
  intros B n b' Hpos.
  assert (Hn : 0 < n) by (apply sqrt_lt_R0; exact Hpos).
  assert (Hnn : n * n = B 1%Z ^ 2 + B 2%Z ^ 2 + B 3%Z ^ 2) by (apply sqrt_sqrt; lra).
  assert (H05 : 0.5 = 1 / 2) by lra.
  unfold b', BF_first_spin. fold (B 1%Z) (B 2%Z) (B 3%Z). fold n.
  destruct (truthy (firstint b)).
  - split; [|split; [intros Hf; discriminate Hf|repeat split]].
    intros _. cbn [I_n BFBws].
    assert (HI : forall i, (1 <= i <= 3)%Z ->
                   upd (upd (upd (I_n b) 1 (B 1%Z / n * 0.5)) 2 (B 2%Z / n * 0.5)) 3
                     (B 3%Z / n * 0.5) i = B i / n * 0.5).
    { intros i Hi. assert (Hc : i = 1%Z \/ i = 2%Z \/ i = 3%Z) by lia.
      destruct Hc as [-> | [-> | ->]]; reflexivity. }
    split; [exact HI|].
    rewrite (HI 1%Z), (HI 2%Z), (HI 3%Z) by lia. rewrite H05.
    split; [|split; [|reflexivity]].
    + replace ((B 1%Z / n * (1 / 2)) ^ 2 + (B 2%Z / n * (1 / 2)) ^ 2
               + (B 3%Z / n * (1 / 2)) ^ 2)
        with ((B 1%Z ^ 2 + B 2%Z ^ 2 + B 3%Z ^ 2) / (n * n) * (1 / 4)) by (field; lra).
      rewrite <- Hnn. field. lra.
    + replace ((B 1%Z / n * (1 / 2) * B 1%Z + B 2%Z / n * (1 / 2) * B 2%Z
                + B 3%Z / n * (1 / 2) * B 3%Z) / n)
        with ((B 1%Z ^ 2 + B 2%Z ^ 2 + B 3%Z ^ 2) / (n * n) * (1 / 2)) by (field; lra).
      rewrite <- Hnn. field. lra.
  - split; [intros Hf; discriminate Hf|]. repeat split.
Qed.

(** ** The times of the points of the track (lines 982-1039) *)

(** The time of a row of the track. *)
Definition row_time (l : Line) : option R :=
  match l with
  | TrackRow _ (t :: _) => Some t
  | _ => None
  end.

(** [spaced s t0 rows t1]: the rows are rows of the track, each one [s] or
    more after the one before it, the first one after [t0]; [t1] is the time
    of the last one ([t0] without rows). *)
Inductive spaced (s : R) (t0 : R) : list Line -> R -> Prop :=
  | spaced_nil : spaced s t0 [] t0
  | spaced_snoc rows t1 r t :
      spaced s t0 rows t1 -> row_time r = Some t -> s <= t - t1 ->
      spaced s t0 (rows ++ [r]) t.

(** What a run of the loop of lines 985-1013 has written. *)
(** A row of the track: the number of the particle and 29 values. *)
Definition track_row (l : Line) : Prop :=
  exists n vals, l = TrackRow n vals /\ length vals = 29%nat.

Definition track_written (g g' : Globals) (rows : list Line) : Prop :=
  (OUTFILE1 (files g')).2 = (OUTFILE1 (files g)).2 ++ rows
  /\ Forall track_row rows
  /\ Zeilencount (trk g') = (Zeilencount (trk g) + Z.of_nat (length rows))%Z
  /\ BahnPointSaveTime (trk g') = BahnPointSaveTime (trk g)
  /\ dense g' = dense g.

Lemma track_dense_loop_spaced (g : Globals) (n : Z) :
  let g' := for_loop 2 n track_dense g in
  exists rows,
    track_written g g' rows
    /\ spaced (BahnPointSaveTime (trk g)) (time_temp (trk g)) rows (time_temp (trk g'))
    /\ timetemp (trk g') = timetemp (trk g).
Proof.
  intros g'. subst g'.
  apply (for_loop_keeps
           (fun g' => exists rows,
                track_written g g' rows
                /\ spaced (BahnPointSaveTime (trk g)) (time_temp (trk g)) rows
                     (time_temp (trk g'))
                /\ timetemp (trk g') = timetemp (trk g))).
  - exists []. split; [|split; [constructor|reflexivity]].
    unfold track_written. rewrite app_nil_r. cbn. repeat split; [constructor|lia].
  - intros k t (rows & (W1 & W0 & W2 & W3 & W4) & Hsp & Htt).
    unfold track_dense. cbv zeta.
    destruct (Rgeb _ _) eqn:Hge.
    + apply Rgeb_spec in Hge. rewrite W3, W4 in Hge.
      destruct (update_logs t (trk t)) as [lv lf].
      eexists (rows ++ [_]). split; [|split].
      * unfold track_written. cbn. rewrite W1, W2, W3, W4, app_assoc, length_app.
        cbn [length]. repeat split; [|lia].
        apply Forall_app. split; [exact W0|]. constructor; [|constructor].
        eexists _, _. split; reflexivity.
      * cbn. rewrite W4. eapply spaced_snoc; [exact Hsp|reflexivity|exact Hge].
      * exact Htt.
    + exists rows. split; [|split]; [repeat split|..]; assumption.
Qed.

(** X17.  The points of the track a round writes are [BahnPointSaveTime] or more
    apart: with a step of that length or more, the values saved of the step
    are written each one [BahnPointSaveTime] or more after the last one
    written ([time_temp]); with a shorter step the end of the step is
    written, alone, when it is [BahnPointSaveTime] or more after
    [timetemp].  Every row written has the number of the particle and 29
    values and is counted in [Zeilencount], and nothing is written when the
    output of the track is not asked for. *)
Theorem track_output_spacing (g : Globals) :
  let s := BahnPointSaveTime (trk g) in
  let step := x2 (part g) - x1 (part g) in
  let aw := ausgabewunsch (part g) in
  let g' := track_output BFeld OUTPUT_EVERYTHING OUTPUT_EVERYTHINGandSPIN g in
  exists rows,
    (OUTFILE1 (files g')).2 = (OUTFILE1 (files g)).2 ++ rows
    /\ Forall track_row rows
    /\ Zeilencount (trk g') = (Zeilencount (trk g) + Z.of_nat (length rows))%Z
    /\ (s <= step ->
        spaced s (time_temp (trk g)) rows (time_temp (trk g'))
        /\ timetemp (trk g') = timetemp (trk g))
    /\ (step < s ->
        spaced s (timetemp (trk g)) rows (timetemp (trk g'))
        /\ (length rows <= 1)%nat
        /\ (forall r, In r rows -> row_time r = Some (x2 (part g)))
        /\ time_temp (trk g') = time_temp (trk g))
    /\ (aw <> OUTPUT_EVERYTHING -> aw <> OUTPUT_EVERYTHINGandSPIN -> rows = []).
Proof.
  intros s step aw g'. subst g'. unfold track_output. cbv zeta. fold aw. fold step. fold s.
  set (wanted := ((aw =? OUTPUT_EVERYTHING) || (aw =? OUTPUT_EVERYTHINGandSPIN))%Z).
  assert (Hw : (aw <> OUTPUT_EVERYTHING -> aw <> OUTPUT_EVERYTHINGandSPIN -> wanted = false)).
  { intros H1 H2. unfold wanted.
    rewrite (proj2 (Z.eqb_neq _ _) H1), (proj2 (Z.eqb_neq _ _) H2). reflexivity. }
  assert (Hnone : exists rows : list Line,
             (OUTFILE1 (files g)).2 = (OUTFILE1 (files g)).2 ++ rows
             /\ Forall track_row rows
             /\ Zeilencount (trk g) = (Zeilencount (trk g) + Z.of_nat (length rows))%Z
             /\ (s <= step -> spaced s (time_temp (trk g)) rows (time_temp (trk g))
                              /\ timetemp (trk g) = timetemp (trk g))
             /\ (step < s -> spaced s (timetemp (trk g)) rows (timetemp (trk g))
                             /\ (length rows <= 1)%nat
                             /\ (forall r, In r rows -> row_time r = Some (x2 (part g)))
                             /\ time_temp (trk g) = time_temp (trk g))
             /\ (aw <> OUTPUT_EVERYTHING -> aw <> OUTPUT_EVERYTHINGandSPIN -> rows = [])).
  { exists []. rewrite app_nil_r. cbn [length].
    split; [reflexivity|]. split; [constructor|]. split; [lia|].
    split; [intros _; split; [constructor|reflexivity]|].
    split; [|reflexivity].
    intros _. split; [constructor|]. split; [lia|]. split; [|reflexivity].
    intros r []. }
  destruct wanted eqn:Hwanted; cbn [andb]; [|exact Hnone].
  assert (Hnot : aw <> OUTPUT_EVERYTHING -> aw <> OUTPUT_EVERYTHINGandSPIN ->
                 forall rows : list Line, rows = []).
  { intros H1 H2. specialize (Hw H1 H2). discriminate Hw. }
  destruct (Rgeb step s) eqn:Hge.
  - apply Rgeb_spec in Hge.
    destruct (track_dense_loop_spaced g (kount (dense g)))
      as (rows & (W1 & W0 & W2 & _) & Hsp & Htt).
    exists rows. split; [exact W1|]. split; [exact W0|]. split; [exact W2|].
    split; [intros _; split; assumption|].
    split; [intros Hlt; fold s in Hlt; lra|].
    intros H1 H2. apply Hnot; assumption.
  - assert (Hlt : step < s).
    { destruct (Rlt_dec step s) as [Hl|Hl]; [exact Hl|].
      assert (Hc : Rgeb step s = true) by (apply Rgeb_spec; lra). congruence. }
    rewrite (Rltb_true _ _ Hlt).
    unfold track_point. cbv zeta. fold s.
    destruct (Rgeb (x2 (part g) - timetemp (trk g)) s) eqn:Hpt; [|exact Hnone].
    apply Rgeb_spec in Hpt.
    destruct (update_logs _ (trk g)) as [lv lf].
    eexists [_]. cbn [length].
    split; [reflexivity|].
    split; [constructor; [eexists _, _; split; reflexivity|constructor]|].
    split; [cbn; lia|].
    split; [intros Hle; lra|].
    split.
    + intros _. split.
      * apply (spaced_snoc s (timetemp (trk g)) [] (timetemp (trk g)));
          [constructor|reflexivity|exact Hpt].
      * split; [lia|]. split; [|reflexivity].
        intros r [<-|[]]. reflexivity.
    + intros H1 H2. apply Hnot; assumption.
Qed.

(** ** Calls that return *)

Lemma integration_loop_returns (n fuel : nat) (w : World) :
  (forall name, fopen_fails name = false) ->
  0 < delx (cfg (globals w)) ->
  xend (part (globals w)) - (x2 (part (globals w)) - xstart (part (globals w)))
  < INR n * (delx (cfg (globals w)) / 10) ->
  (S n <= fuel)%nat ->
  exists w', integration_loop fuel w = Some (inl w').
Proof.
  intros Hf Hd Hleft Hfuel.
  destruct (integration_loop_enough n fuel w Hd Hleft Hfuel) as [[w'|code] Hr].
  - exists w'. exact Hr.
  - destruct (integration_loop_exit fuel w code Hr) as (_ & _ & name & Hn).
    rewrite Hf in Hn. discriminate Hn.
Qed.

Lemma loop_round_returns (w : World) :
  (forall name, fopen_fails name = false) -> exists w', loop_round w = inl w'.
Proof.
  intros Hf. destruct (loop_round w) as [w'|code] eqn:Hr.
  - exists w'. reflexivity.
  - destruct (loop_round_exit w code Hr) as (_ & _ & name & Hn).
    rewrite Hf in Hn. discriminate Hn.
Qed.

Lemma IntegrateParticle_track_returns (n fuel : nat) (w : World) :
  let k := protneut (cfg (globals w)) in
  k = NEUTRON \/ k = PROTON \/ k = ELECTRONS ->
  (forall name, fopen_fails name = false) ->
  0 < delx (cfg (globals w)) ->
  xend (part (globals w)) - (x2 (part (globals w)) - xstart (part (globals w)))
  < INR n * (delx (cfg (globals w)) / 10) ->
  (S n <= fuel)%nat ->
  exists w', IntegrateParticle_track fuel w = Returns w'.
Proof.
  intros k Hk Hf Hd Hleft Hfuel.
  rewrite (IntegrateParticle_track_tracked fuel w Hk).
  destruct (loop_start_keeps w) as (S1 & _ & _ & S4 & S5 & S6 & _).
  destruct (integration_loop_returns n fuel (loop_start w) Hf) as [w' Hw'].
  - rewrite S1. exact Hd.
  - rewrite S1, S4, S5, S6. exact Hleft.
  - exact Hfuel.
  - rewrite Hw'. eexists. reflexivity.
Qed.

(** The rows a round adds to the track file. *)
Lemma track_output_rows (g : Globals) :
  let g' := track_output BFeld OUTPUT_EVERYTHING OUTPUT_EVERYTHINGandSPIN g in
  exists rows,
    (OUTFILE1 (files g')).2 = (OUTFILE1 (files g)).2 ++ rows /\ Forall track_row rows.
Proof.
  intros g'. subst g'. unfold track_output. cbv zeta.
  assert (Hnone : exists rows : list Line,
             (OUTFILE1 (files g)).2 = (OUTFILE1 (files g)).2 ++ rows /\ Forall track_row rows).
  { exists []. rewrite app_nil_r. split; [reflexivity|constructor]. }
  destruct (_ && _).
  - destruct (track_dense_loop_spaced g (kount (dense g))) as (rows & (W1 & W0 & _) & _).
    exists rows. split; assumption.
  - destruct (_ && _); [|exact Hnone].
    unfold track_point. cbv zeta.
    destruct (Rgeb _ _); [|exact Hnone].
    destruct (update_logs _ (trk g)) as [lv lf].
    eexists [_]. split; [reflexivity|].
    constructor; [eexists _, _; split; reflexivity|constructor].
Qed.

(** ** The columns of the track files *)

(** The header [main] writes to the first track file (line 553). *)
Definition first_track_header : string :=
  "Teilchen t r drdt z dzdt phi dphidt x y v H Br dBrdr dBrdphi dBrdz Bphi dBphidr dBphidphi dBphidz Bz dBzdr dBzdphi dBzdz Babs Er Ez timestep logvlad logthumb".

(** The number of the names of a header: the runs of characters other than
    the blank. *)
Fixpoint count_names (in_name : bool) (s : string) : nat :=
  match s with
  | EmptyString => 0
  | String c s' =>
      if Ascii.eqb c (Ascii.ascii_of_nat 32) then count_names false s'
      else ((if in_name then 0 else 1) + count_names true s')%nat
  end.

Definition columns (s : string) : nat := count_names false s.

(** The values of a line of a file. *)
Definition values (l : Line) : nat :=
  match l with
  | Header s => columns s
  | TrackRow _ vals => S (length vals)
  | BFRow vals | EndRow vals => length vals
  end.

(** X18.  The rows of the track have 30 values, as many as the header of the
    first track file has names; the header the loop writes to the track
    files that follow (line 1047) has 33 names, three more than their rows
    have values.  The header of the spin logs has 10 names, as many as the
    rows of line 1314 have values. *)
Theorem track_columns (g : Globals) (o : BFOut) (k : Z) :
  let g' := track_output BFeld OUTPUT_EVERYTHING OUTPUT_EVERYTHINGandSPIN g in
  (exists rows,
     (OUTFILE1 (files g')).2 = (OUTFILE1 (files g)).2 ++ rows
     /\ Forall (fun r => values r = 30%nat) rows)
  /\ columns first_track_header = 30%nat
  /\ columns track_header = 33%nat
  /\ (Zeilencount (trk g) > 40000 ->
      (OUTFILE1 (files (track_rollover g))).2 = [Header track_header]
      /\ values (Header track_header) = 33%nat)%Z
  /\ columns BF_header = 10%nat
  /\ (exists row, (BFLOG (files (BF_write o k g))).2 = (BFLOG (files g)).2 ++ [row]
                  /\ values row = 10%nat).
Proof.
  intros g'.
  split.
  { destruct (track_output_rows g) as (rows & W1 & W0).
    exists rows. split; [exact W1|].
    eapply Forall_impl; [exact W0|]. intros r (n & vals & -> & Hl). cbn. rewrite Hl.
    reflexivity. }
  split; [reflexivity|]. split; [reflexivity|].
  split.
  { intros Hz. unfold track_rollover. cbv zeta.
    rewrite (proj2 (Z.gtb_lt _ _)) by lia. split; reflexivity. }
  split; [reflexivity|].
  eexists. split; reflexivity.
Qed.
End Program.

Arguments globals {NDist Codes} w.
Arguments motion {NDist Codes} w.
Arguments ndist {NDist Codes} w.
Arguments codes {NDist Codes} w.
Arguments VolumeB {NDist Codes} w.

Arguments Returns {NDist Codes} w.
Arguments Exits {NDist Codes} code.
Arguments Overruns {NDist Codes}.
Arguments Unfinished {NDist Codes}.

(** ** Runs on small inputs *)

(** A point of the scan, 0.3 m from the axis and 0.1 m high, with 100 (neV
    for a neutron, eV for a proton or an electron) of energy; the particle
    may run for no time at all ([xend = 0]), so that the loop is left after
    its first round. *)
Definition scan_point : Scan := mkScan 100 0.3 0.1 30 60 0 150 0.5 1 360 180 360 90.

Definition started (c : Config) : Globals := set_scan scan_point (initial c mt_03).

Definition electrons : Config :=
  mkConfig ELECTRONS m_e 0 1 0 POLARISATION_NONE 0.1 0 1 5 1e-8 0 1 "./out" 0.

Definition field_output : Config :=
  mkConfig BF_ONLY m_n 0 1 0 POLARISATION_NONE 0.1 0 1 5 1e-8 0 1 "./out" 0.

Definition setup_example : Setup := mkSetup 0 0.12 0.01 2 0.
Definition steps_example : Steps := mkSteps 0 1 0.3 0.01 0 0.02 0 1 0 1 0.

Definition motion_start : Motion := mkMotion 0 0 0 0 0 0 0 0 0 0 0 0 0 0 0 0 0 0.

(** An integrator that leaves the particle where it is, files that are
    always opened, no table of the distribution, the codes as the list of the
    [kennz] counted, and an end log of the time, the speed and the energy. *)
Definition odeint_still : bool -> Globals -> OdeResult :=
  fun _ g => mkOdeResult (ystart g) (dense g) (fld g) (efld g) (Qm0 g)
               (stopall (part g), kennz (part g)).
Definition always_opened : FileName -> bool := fun _ => false.
Definition ausgabe_short : R -> (Z -> R) -> R -> R -> World unit (list Z) -> File :=
  fun t _ v h w => fprintf (ENDLOG (files (globals w))) (EndRow [t; v; h]).

Definition world_of (g : Globals) : World unit (list Z) :=
  mkWorld unit (list Z) g motion_start tt [] zero.

#[local] Abbreviation loop_round_example :=
  (loop_round no_BFeld stays setup_example odeint_still as_they_are (spin_along 0.25) 1 3 4
     always_opened unit (list Z) (fun _ n => n)).
#[local] Abbreviation integration_loop_example :=
  (integration_loop no_BFeld stays setup_example odeint_still as_they_are (spin_along 0.25)
     1 3 4 always_opened unit (list Z) (fun _ n => n)).
#[local] Abbreviation track_example :=
  (IntegrateParticle_track no_BFeld stays setup_example steps_example odeint_still as_they_are
     (spin_along 0.25) 1 3 4 always_opened unit (list Z) (fun _ n => n) cons
     (fun _ => (0, 0, 1)) ausgabe_short (fun w => w)).

Lemma IntegrateParticle_velocity_speed_witness :
  let g := started protons in
  let res := IntegrateParticle_velocity stays setup_example (g, motion_start) in
  protneut (cfg g) <> BF_ONLY
  /\ vr_n res.2 ^ 2 + vphi_n res.2 ^ 2 + vz_n res.2 ^ 2 = v_n (part g) ^ 2
  /\ speed2 (ystart res.1) = v_n (part g) ^ 2.
Proof.
  intros g res.
  assert (Hk : protneut (cfg g) <> BF_ONLY) by discriminate.
  assert (Hr : r_n (scan g) <> 0) by (cbn; lra).
  split; [exact Hk|].
  destruct (IntegrateParticle_velocity_speed stays setup_example g motion_start Hk)
    as (_ & _ & _ & _ & _ & H6 & H7 & _).
  split; [exact H6|]. exact (proj2 (H7 Hr)).
Defined.

Lemma IntegrateParticle_charged_energy_witness :
  let g := started protons in
  let res := IntegrateParticle_startvector stays setup_example (g, motion_start) in
  0 <= Energie (scan g)
  /\ (protneut (cfg g) = PROTON \/ protneut (cfg g) = ELECTRONS)
  /\ H_ (trk res.1) = 100 /\ Hmax (part res.1) = 100.
Proof.
  intros g res.
  assert (HE : 0 <= Energie (scan g)) by (cbn; lra).
  assert (Hk : protneut (cfg g) = PROTON \/ protneut (cfg g) = ELECTRONS)
    by (left; reflexivity).
  split; [exact HE|]. split; [exact Hk|].
  destruct (IntegrateParticle_charged_energy stays setup_example g motion_start HE Hk)
    as (H1 & H2 & _).
  split; [exact H1|exact H2].
Defined.

Lemma IntegrateParticle_neutron_energy_witness :
  let g := started neutrons in
  let g1 := (IntegrateParticle_neutron no_BFeld g).1 in
  let res := IntegrateParticle_startvector stays setup_example (g1, motion_start) in
  protneut (cfg g) = NEUTRON /\ M (cfg g) = m_n /\ bfeldwahl (cfg g) <> 3%Z
  /\ 0 <= start_Ekin no_BFeld g
  /\ (IntegrateParticle_neutron no_BFeld g).2 = false
  /\ H_ (trk res.1) = 100 * 1E9.
Proof.
  intros g g1 res.
  assert (Hk : protneut (cfg g) = NEUTRON) by reflexivity.
  assert (HM : M (cfg g) = m_n) by reflexivity.
  assert (Hb : bfeldwahl (cfg g) <> 3%Z) by discriminate.
  assert (HE : 0 <= start_Ekin no_BFeld g).
  { unfold start_Ekin. cbn. unfold m_n, gravconst. lra. }
  split; [exact Hk|]. split; [exact HM|]. split; [exact Hb|]. split; [exact HE|].
  destruct (IntegrateParticle_neutron_energy no_BFeld stays setup_example g motion_start
              Hk HM Hb HE) as (H1 & _ & H3 & _).
  split; [exact H1|exact H3].
Defined.

(** The facts about the example the loop is run on. *)
Lemma example_runs (c : Config) :
  0 < delx c ->
  let w := world_of (started c) in
  (forall name, always_opened name = false)
  /\ 0 < delx (cfg (globals w))
  /\ xend (part (globals w)) - (x2 (part (globals w)) - xstart (part (globals w)))
     < INR 1 * (delx (cfg (globals w)) / 10).
Proof.
  intros Hd w. split; [reflexivity|]. cbn. split; lra.
Qed.

Lemma integration_loop_rounds_witness :
  let w := world_of (started protons) in
  exists w' n,
    integration_loop_example 2 w = Some (inl w')
    /\ (1 <= n <= 2)%nat
    /\ schritte (motion w') = Z.of_nat n
    /\ cfg (globals w') = protons.
Proof.
  intros w.
  destruct (example_runs protons ltac:(cbv [delx protons]; lra)) as (Hf & Hd & Hleft).
  destruct (integration_loop_returns no_BFeld stays setup_example odeint_still as_they_are
              (spin_along 0.25) 1 3 4 always_opened unit (list Z) (fun _ n => n)
              1 2 w Hf Hd Hleft (le_n 2)) as [w' Hw'].
  destruct (integration_loop_rounds no_BFeld stays setup_example odeint_still as_they_are
              (spin_along 0.25) 1 3 4 always_opened unit (list Z) (fun _ n => n)
              2 w w' Hw') as (n & Hn & H1 & _ & H3 & _).
  assert (H0 : schritte (motion w) = 0%Z) by reflexivity.
  exists w', n. split; [exact Hw'|]. split; [exact Hn|].
  split; [|exact H3].
  rewrite H1, H0; [reflexivity|lia|lia].
Defined.

Lemma loop_round_trajectory_witness :
  let w := world_of (started protons) in
  exists w',
    loop_round_example w = inl w'
    /\ ytemp3 (motion w') = ystart (globals w) 3%Z
    /\ ytemp5 (motion w') = ystart (globals w) 5%Z
    /\ ytemp1 (motion w') = ytemp1 (motion w).
Proof.
  intros w.
  destruct (loop_round_returns no_BFeld stays setup_example odeint_still as_they_are
              (spin_along 0.25) 1 3 4 always_opened unit (list Z) (fun _ n => n)
              w (fun _ => eq_refl)) as [w' Hw'].
  destruct (loop_round_trajectory no_BFeld stays setup_example odeint_still as_they_are
              (spin_along 0.25) 1 3 4 always_opened unit (list Z) (fun _ n => n)
              w w' Hw') as (H3 & H5 & _ & H1).
  exists w'. split; [exact Hw'|]. split; [exact H3|]. split; [exact H5|].
  apply H1. reflexivity.
Defined.

Lemma field_only_volume_witness :
  let w := world_of (started field_output) in
  EnergieE (scan (globals w)) < 200
  /\ exists w',
       field_only no_BFeld steps_example unit (list Z) w = Some w'
       /\ 150 < Energie (scan (globals w')) <= 151
       /\ VolumeB w' 150%Z = 2 * pi * 0.3 * 0.01 * 0.02
       /\ VolumeB w' 151%Z = 0.
Proof.
  intros w.
  assert (HE : EnergieE (scan (globals w)) < 200) by (cbn; lra).
  split; [exact HE|].
  destruct (field_only_volume no_BFeld steps_example unit (list Z) w HE)
    as (w' & Hw' & HV & _ & _ & Hen & _).
  exists w'. split; [exact Hw'|]. split.
  { assert (H0 : 0 <= EnergieE (scan (globals w))) by (cbn; lra).
    specialize (Hen H0). cbn in Hen. lra. }
  assert (Hip : Int_part (EnergieE (scan (globals w))) = 150%Z).
  { symmetry. apply Int_part_spec. cbn. lra. }
  split.
  - rewrite (HV 150%Z), Hip. cbn [Z.leb andb Z.compare Pos.compare Pos.compare_cont].
    rewrite (proj2 (Rgeb_spec _ _)).
    + cbn. unfold zero. lra.
    + change (0 <= 150 * 1.0e-9 - m_n * gravconst * 0.1
                   + 0 * sqrt (0 * 0 + 0 * 0 + 0 * 0)).
      unfold m_n, gravconst. lra.
  - rewrite (HV 151%Z), Hip. reflexivity.
Defined.

(** The same run with [EnergieE = 250]. *)
Definition started_250 : Globals :=
  set_scan (mkScan 0 0.3 0 0 0 0 250 0.5 1 360 180 360 90) (initial field_output mt_03).

Lemma field_only_overrun_witness :
  let w := world_of started_250 in
  (200 <= 200)%Z /\ IZR 200 <= EnergieE (scan (globals w))
  /\ field_only no_BFeld steps_example unit (list Z) w = None.
Proof.
  intros w.
  assert (H1 : (200 <= 200)%Z) by lia.
  assert (H2 : IZR 200 <= EnergieE (scan (globals w))) by (cbn; lra).
  split; [exact H1|]. split; [exact H2|].
  apply (field_only_overrun no_BFeld steps_example unit (list Z) w 200 H1 H2).
  change (0 <= 200 * 1.0e-9 - m_n * gravconst * 0 + 0 * sqrt (0 * 0 + 0 * 0 + 0 * 0)).
  lra.
Defined.

Lemma IntegrateParticle_track_record_witness :
  let w := world_of (started neutrons_track) in
  exists w' t v,
    track_example 2 w = Returns w'
    /\ (ENDLOG (files (globals w'))).2 = [EndRow [t; v; H_ (trk (globals w'))]]
    /\ codes w' = [kennz (part (globals w'))]
    /\ scan (globals w') = scan_point.
Proof.
  intros w.
  assert (Hk : protneut (cfg (globals w)) = NEUTRON \/ protneut (cfg (globals w)) = PROTON
               \/ protneut (cfg (globals w)) = ELECTRONS) by (left; reflexivity).
  destruct (example_runs neutrons_track ltac:(cbv [delx neutrons_track]; lra))
    as (Hf & Hd & Hleft).
  destruct (IntegrateParticle_track_returns no_BFeld stays setup_example steps_example
              odeint_still as_they_are (spin_along 0.25) 1 3 4 always_opened unit (list Z)
              (fun _ n => n) cons (fun _ => (0, 0, 1)) ausgabe_short (fun w => w)
              1 2 w Hk Hf Hd Hleft (le_n 2)) as [w' Hw'].
  destruct (IntegrateParticle_track_record no_BFeld stays setup_example steps_example
              odeint_still as_they_are (spin_along 0.25) 1 3 4 always_opened unit (list Z)
              (fun _ n => n) cons (fun _ => (0, 0, 1)) ausgabe_short (fun w => w)
              2 w w' Hk Hw') as ((t & y & v & wx & Hlog & Hold) & Hc & _ & Hs & _).
  exists w', t, v. split; [exact Hw'|].
  split; [rewrite Hlog; unfold ausgabe_short; rewrite Hold; reflexivity|].
  split; [exact Hc|exact Hs].
Defined.

Lemma charged_end_energy_witness :
  let w := world_of (started electrons) in
  exists w', track_example 2 w = Returns w' /\ H_ (trk (globals w')) = 100.
Proof.
  intros w.
  assert (Hk : protneut (cfg (globals w)) = NEUTRON \/ protneut (cfg (globals w)) = PROTON
               \/ protneut (cfg (globals w)) = ELECTRONS) by (right; right; reflexivity).
  destruct (example_runs electrons ltac:(cbv [delx electrons]; lra)) as (Hf & Hd & Hleft).
  destruct (IntegrateParticle_track_returns no_BFeld stays setup_example steps_example
              odeint_still as_they_are (spin_along 0.25) 1 3 4 always_opened unit (list Z)
              (fun _ n => n) cons (fun _ => (0, 0, 1)) ausgabe_short (fun w => w)
              1 2 w Hk Hf Hd Hleft (le_n 2)) as [w' Hw'].
  assert (HE : 0 <= Energie (scan (globals w))) by (cbn; lra).
  destruct (charged_end_energy no_BFeld stays setup_example steps_example
              odeint_still as_they_are (spin_along 0.25) 1 3 4 always_opened unit (list Z)
              (fun _ n => n) cons (fun _ => (0, 0, 1)) ausgabe_short (fun w => w)
              2 w w' HE (or_intror eq_refl) Hw') as (He & _).
  exists w'. split; [exact Hw'|]. exact (He eq_refl eq_refl).
Defined.

(** A buffer of 1995 values and a step of 10. *)
Definition nearly_full : Globals :=
  let g := initial neutrons mt_03 in
  let b := bf g in
  mkGlobals (cfg g) (spin g) (fld g) (efld g) (Qm0 g) (scan g) (part g) (diag g)
    (mkBF (BFBmin b) (BFPolmin b) (firstint b) 1995 (BFtime b) (BFField b) (I_n b)
       (BFpol b) (BFlogpol b) (BFsurvprob b) (BFflipprob b) (BFBws b))
    (bfout g) (mkDense 10 zero zero2 zero2 zero2) (trk g) (files g)
    (v_mt_state g) (rando g) (dxsav g) (ystart g) (nintcalls g).

Lemma BruteForce_buffer_bound_witness :
  let g5 := BruteForceIntegration as_they_are (spin_along 0.25) 3 4 nearly_full in
  (0 <= offset (bf nearly_full) < 2000)%Z /\ (0 <= kount (dense nearly_full))%Z
  /\ (0 <= offset (bf g5) < 2000)%Z
  /\ BFtime (bf g5) 2006%Z = 0.
Proof.
  intros g5.
  assert (H1 : (0 <= offset (bf nearly_full) < 2000)%Z) by (cbn; lia).
  assert (H2 : (0 <= kount (dense nearly_full))%Z) by (cbn; lia).
  split; [exact H1|]. split; [exact H2|].
  destruct (BruteForce_buffer_bound as_they_are (spin_along 0.25) 3 4 nearly_full H1 H2)
    as (H3 & _ & _ & H6).
  split; [exact H3|].
  assert (Hi : (2006 <= offset (bf nearly_full)
                \/ offset (bf nearly_full) + kount (dense nearly_full) < 2006)%Z)
    by (right; cbn; lia).
  exact (proj1 (H6 2006%Z Hi)).
Defined.

Lemma BruteForce_survival_never_grows_witness :
  let g := initial neutrons mt_03 in
  let g5 := BruteForceIntegration as_they_are (spin_along 0.25) 3 4 g in
  0 <= BFsurvprob (bf g) <= 1 /\ - 0.5 <= BFpol (bf g) <= 0.5
  /\ 0 <= BFsurvprob (bf g5) <= 1.
Proof.
  intros g g5.
  assert (H1 : 0 <= BFsurvprob (bf g) <= 1) by (cbn; lra).
  assert (H2 : - 0.5 <= BFpol (bf g) <= 0.5) by (cbn; lra).
  split; [exact H1|]. split; [exact H2|].
  destruct (BruteForce_survival_never_grows as_they_are (spin_along 0.25) 3 4 g H1 H2)
    as (H3 & _).
  assert (Hs : BFsurvprob (bf g) = 1.0) by reflexivity.
  rewrite Hs in H3. unfold g5. lra.
Defined.

(** A buffer with the field (1, 1, 1) everywhere, before the first
    integration. *)
Definition first_buffer : BF :=
  mkBF 10.0 false 1 12 zero (fun _ _ => 1) zero 0.5 0 1.0 0.0 zero.

Lemma BF_first_spin_half_witness :
  let b' := BF_first_spin first_buffer in
  0 < 1 ^ 2 + 1 ^ 2 + 1 ^ 2
  /\ I_n b' 1%Z ^ 2 + I_n b' 2%Z ^ 2 + I_n b' 3%Z ^ 2 = 1 / 4.
Proof.
  intros b'.
  assert (Hpos : 0 < 1 ^ 2 + 1 ^ 2 + 1 ^ 2) by lra.
  split; [exact Hpos|].
  destruct (BF_first_spin_half first_buffer Hpos) as (H1 & _).
  exact (proj1 (proj2 (H1 eq_refl))).
Defined.

End Tracking.

(** * More of [src/src/main.cpp]: the settings of the particles and the totals
      of a run *)

Module PENTrackRun.
Import PENTrack.
#[local] Open Scope Z_scope.

(** ** The settings of [all] (lines 109-113) *)

(** X19.  After the loop of lines 109-113 every kind of particle of [particle.in]
    other than [all] has the settings of [all] in place of its own, [all]
    keeps its own, and no kind is added but [all] itself, which
    [particlein["all"]] makes, without settings, as soon as the file has a
    kind other than [all]; a file with no other kind, and the empty one, is
    left as it is. *)
Theorem settings_of_all_inherits (particlein : TConfig) :
  let p' := settings_of_all particlein in
  (forall name, name <> "all"%string -> is_Some (particlein !! name) ->
     section_of p' name = section_of particlein "all")
  /\ section_of p' "all" = section_of particlein "all"
  /\ (forall name,
        is_Some (p' !! name)
        <-> is_Some (particlein !! name)
            \/ (name = "all"%string
                /\ exists other, other <> "all"%string /\ is_Some (particlein !! other)))
  /\ ((forall name, is_Some (particlein !! name) -> name = "all"%string) -> p' = particlein).
Proof.
  intros p'. subst p'. unfold settings_of_all. cbv zeta.
  destruct (decide (dom particlein ⊆ {["all"%string]})) as [Hsub|Hsub].
  - assert (Honly : forall name, is_Some (particlein !! name) -> name = "all"%string).
    { intros name Hn. apply elem_of_dom in Hn. apply Hsub in Hn.
      now apply elem_of_singleton in Hn. }
    split; [|split; [|split]].
    + intros name Hne Hn. contradiction Hne. now apply Honly.
    + reflexivity.
    + intros name. split; [intros H; left; exact H|].
      intros [H|(_ & other & Hne & Ho)]; [exact H|].
      contradiction Hne. now apply Honly.
    + reflexivity.
  - assert (Hother : exists other, other <> "all"%string /\ is_Some (particlein !! other)).
    { destruct (decide (exists other, other ∈ dom particlein /\ other <> "all"%string))
        as [(o & Ho & Hne)|Hno].
      - exists o. split; [exact Hne|]. now apply elem_of_dom.
      - contradiction Hsub. intros x Hx. apply elem_of_singleton.
        destruct (decide (x = "all"%string)) as [->|Hne]; [reflexivity|].
        contradiction Hno. exists x. split; assumption. }
    split; [|split; [|split]].
    + intros name Hne [v Hv]. unfold section_of at 1.
      rewrite lookup_insert_ne by (intros Heq; apply Hne; symmetry; exact Heq).
      rewrite map_lookup_imap, Hv. cbn.
      destruct (decide (name = "all"%string)) as [Heq|_]; [contradiction|reflexivity].
    + unfold section_of at 1. rewrite lookup_insert_eq. reflexivity.
    + intros name. destruct (decide (name = "all"%string)) as [->|Hne].
      * rewrite lookup_insert_eq. split; [intros _|intros _; eexists; reflexivity].
        right. split; [reflexivity|exact Hother].
      * rewrite lookup_insert_ne by (intros Heq; apply Hne; symmetry; exact Heq).
        rewrite map_lookup_imap. split.
        -- intros [v Hv]. left. destruct (particlein !! name); [eexists; reflexivity|].
           discriminate Hv.
        -- intros [[v Hv]|[Heq _]]; [|contradiction].
           rewrite Hv. cbn. eexists. reflexivity.
    + intros Honly. contradiction Hsub. intros x Hx. apply elem_of_singleton.
      apply Honly. now apply elem_of_dom.
Qed.

(** ** The totals of a run (lines 200-219 and 395-412) *)

Section Program.

Variable TParticle World : Type.
Variable CreateParticle : World -> TParticle * World.
Variable Integrate : R -> gmap string string -> TParticle -> World -> TParticle * World.
Variable GetName : TParticle -> string.
Variable GetStopID : TParticle -> Z.
Variable GetNumberOfSteps : TParticle -> Z.
Variable GetSecondaryParticles : TParticle -> list TParticle.

#[local] Abbreviation integrate_and_count :=
  (integrate_and_count TParticle World Integrate GetName GetStopID GetNumberOfSteps).
#[local] Abbreviation particle_round :=
  (particle_round TParticle World CreateParticle Integrate GetName GetStopID GetNumberOfSteps
     GetSecondaryParticles).
#[local] Abbreviation particle_loop :=
  (particle_loop TParticle World CreateParticle Integrate GetName GetStopID GetNumberOfSteps
     GetSecondaryParticles).
#[local] Abbreviation Run := (Run TParticle World).
#[local] Abbreviation integrated := (integrated TParticle World).
#[local] Abbreviation ntotalsteps := (ntotalsteps TParticle World).
#[local] Abbreviation ID_counter := (ID_counter TParticle World).

(** The steps of the particles of a list. *)
Definition steps_of (l : list TParticle) : Z :=
  foldr (fun p n => GetNumberOfSteps p + n) 0 l.

(** [st'] has the particles of [st] and [k] more, with their steps. *)
Definition follows (k : nat) (st st' : Run) : Prop :=
  exists more,
    integrated st' = more ++ integrated st /\ length more = k
    /\ ntotalsteps st' = ntotalsteps st + steps_of more.

Lemma steps_of_app (a b : list TParticle) : steps_of (a ++ b) = steps_of a + steps_of b.
Proof using Type.
  induction a as [|p a IH]; [reflexivity|].
  cbn [app]. unfold steps_of in *. cbn [foldr]. rewrite IH. lia.
Qed.

Lemma follows_refl (st : Run) : follows 0 st st.
Proof using Type. exists []. cbn. repeat split. lia. Qed.

Lemma follows_trans (j k : nat) (a b c : Run) :
  follows j a b -> follows k b c -> follows (k + j) a c.
Proof using Type.
  intros (m1 & I1 & L1 & N1) (m2 & I2 & L2 & N2). exists (m2 ++ m1).
  rewrite I2, I1, N2, N1, app_assoc, length_app, L1, L2, steps_of_app.
  split; [reflexivity|]. split; [reflexivity|]. lia.
Qed.

Lemma integrate_and_count_follows g particlein p (st : Run) :
  follows 1 st (integrate_and_count g particlein p st).2.
Proof using Type.
  unfold PENTrack.integrate_and_count. destruct (Integrate _ _ _ _) as [q w].
  exists [q]. cbn. repeat split. lia.
Qed.

Lemma secondaries_follow g particlein (l : list TParticle) (st : Run) :
  follows (length l) st
    (fold_left (fun st i => (integrate_and_count g particlein i st).2) l st).
Proof using Type.
  revert st. induction l as [|i l IH]; intros st; [apply follows_refl|].
  cbn [fold_left length]. replace (S (length l)) with (length l + 1)%nat by lia.
  eapply follows_trans; [apply integrate_and_count_follows|apply IH].
Qed.

Lemma particle_round_follows g particlein (st : Run) :
  exists k, follows (S k) st (particle_round g particlein st)
            /\ (secondaries g <> 1 -> k = 0%nat).
Proof using Type.
  unfold PENTrack.particle_round. destruct (CreateParticle _) as [p w].
  pose proof (integrate_and_count_follows g particlein p
                (mkRun TParticle World w (ID_counter st) (ntotalsteps st) (integrated st)))
    as H1.
  destruct (PENTrack.integrate_and_count _ _ _ _ _ _ _ _ _ _) as [q st1]. cbn [snd] in H1.
  assert (H0 : follows 1 st st1).
  { destruct H1 as (more & I & L & N). exists more. repeat split; assumption. }
  destruct (Z.eqb_spec (secondaries g) 1) as [Hs|Hs].
  - exists (length (GetSecondaryParticles q)). split; [|intros Hne; contradiction].
    replace (S (length (GetSecondaryParticles q)))
      with (length (GetSecondaryParticles q) + 1)%nat by lia.
    eapply follows_trans; [exact H0|apply secondaries_follow].
  - exists 0%nat. split; [exact H0|reflexivity].
Qed.

Lemma particle_loop_follows g particlein w :
  let st := particle_loop g particlein w in
  let n := Z.to_nat (simcount g) in
  exists k, follows (n + k) (mkRun TParticle World w ∅ 0 []) st
            /\ (secondaries g <> 1 -> k = 0%nat).
Proof using Type.
  unfold PENTrack.particle_loop. cbv zeta.
  induction (Z.to_nat (simcount g)) as [|n IH].
  - exists 0%nat. split; [apply follows_refl|reflexivity].
  - cbn [Nat.iter]. destruct IH as (k & Hf & Hk).
    destruct (particle_round_follows g particlein
                (Nat.iter n (particle_round g particlein) (mkRun TParticle World w ∅ 0 [])))
      as (j & Hj & Hj0).
    exists (j + k)%nat. split.
    + replace (S n + (j + k))%nat with (S j + (n + k))%nat by lia.
      eapply follows_trans; [exact Hf|exact Hj].
    + intros Hs. rewrite (Hk Hs), (Hj0 Hs). reflexivity.
Qed.

Lemma OutputCodes_length (m : Counter) :
  length (OutputCodes m) = S (11 * size m).
Proof using Type.
  unfold OutputCodes, entries. cbn [length]. f_equal.
  rewrite length_concat, <- length_map_to_list.
  rewrite <- (Permutation_length
                (merge_sort_Permutation key_le (H:=key_le_dec) (map_to_list m))).
  generalize (merge_sort key_le (H:=key_le_dec) (map_to_list m)). intros l.
  induction l as [|e l IH]; [reflexivity|].
  change (11 + list_sum (map length (map (fun e : string * gmap Z Z => OutputCodes_of e.1 e.2) l))
          = 11 * S (length l))%nat.
  rewrite IH. lia.
Qed.


End Program.

End PENTrackRun.
